(** * asciinema2video: a shallow embedding of [src/program.ts]

    The program converts an asciinema cast file to a video: it validates the
    input path, parses the command-line options, composes an HTML page around
    the asciinema player, drives a headless browser through Puppeteer and
    records the page with a screen recorder.

    Conventions of the embedding.
    - A JavaScript string is a [string]: the sequence of the bytes of its
      UTF-8 encoding (the encoding [fs.readFileSync (_, 'utf-8')] decodes and
      [Buffer.from] produces).  Where the 16-bit code units of a string
      matter, the string is a list of them and [Buffer_from] gives its
      bytes.
    - A JavaScript number is a [number]: not-a-number, an infinity, or a signed
      decimal [m * 10 ^ e], which stands for the binary64 value nearest to it.
      The numbers the program computes come from [binary64], which rounds a
      decimal to the nearest binary64 value (ties to even, overflow to an
      infinity, underflow to zero) and gives the decimal [Number::toString]
      writes for that value.
    - The file system, the browser, the recorder and the process are an
      environment [Env] that answers every call; asynchronous code runs in the
      monad [M], which threads the log of the calls made and the signal
      listeners of the process. *)

From Stdlib Require Import String Ascii List Bool ZArith NArith Lia.
From Stdlib Require Import DecimalString DecimalN.
Import ListNotations.

Local Open Scope string_scope.

(** ** Strings *)

(** The double quote, which the page template uses in attribute values. *)
Definition dquote : string := String (ascii_of_nat 34) EmptyString.

Definition is_empty (s : string) : bool :=
  match s with
  | EmptyString => true
  | String _ _ => false
  end.

(** [s.startsWith(p)]. *)
Fixpoint starts_with (p s : string) : bool :=
  match p, s with
  | EmptyString, _ => true
  | String a p', String b s' => Ascii.eqb a b && starts_with p' s'
  | String _ _, EmptyString => false
  end.

(** [s] with a leading [p] removed, when [s] starts with [p]. *)
Fixpoint strip_prefix (p s : string) : option string :=
  match p, s with
  | EmptyString, _ => Some s
  | String a p', String b s' =>
      if Ascii.eqb a b then strip_prefix p' s' else None
  | String _ _, EmptyString => None
  end.

(** The number of positions of [s] at which [p] occurs (occurrences may
    overlap). *)
Fixpoint count_occurrences (p s : string) : nat :=
  (if starts_with p s then 1 else 0) +
  match s with
  | EmptyString => 0
  | String _ s' => count_occurrences p s'
  end.

(** [s.endsWith(p)]. *)
Definition ends_with (p s : string) : bool :=
  starts_with p
    (substring (String.length s - String.length p) (String.length p) s)
  && (String.length p <=? String.length s)%nat.

(** Every character of [s] satisfies [P]. *)
Fixpoint forall_chars (P : ascii -> bool) (s : string) : bool :=
  match s with
  | EmptyString => true
  | String c r => P c && forall_chars P r
  end.

(** [s] holds no [c]. *)
Definition lacks (c : ascii) (s : string) : bool :=
  forall_chars (fun x => negb (Ascii.eqb x c)) s.

(** [c] is the last character of [s]. *)
Fixpoint ends_in (c : ascii) (s : string) : bool :=
  match s with
  | EmptyString => false
  | String x EmptyString => Ascii.eqb x c
  | String _ r => ends_in c r
  end.

(** [c] is the first character of [s]. *)
Definition starts_in (c : ascii) (s : string) : bool :=
  match s with
  | String x _ => Ascii.eqb x c
  | EmptyString => false
  end.

(** ** Numbers *)

Inductive number : Type :=
| NaN
| Infinity (neg : bool)
| Dec (neg : bool) (m : N) (e : Z).

Definition isNaN (x : number) : bool :=
  match x with
  | NaN => true
  | _ => false
  end.

Definition code (c : ascii) : N := N_of_ascii c.

Definition is_digit (c : ascii) : bool :=
  ((48 <=? code c) && (code c <=? 57))%N.

Definition digit_value (c : ascii) : N := (code c - 48)%N.

(** The value of a character as a digit in radix [r] (letters count from
    ten, in either case), when it is one. *)
Definition radix_digit (r : N) (c : ascii) : option N :=
  let n := code c in
  let v :=
    if ((48 <=? n) && (n <=? 57))%N then Some (n - 48)%N
    else if ((97 <=? n) && (n <=? 122))%N then Some (n - 87)%N
    else if ((65 <=? n) && (n <=? 90))%N then Some (n - 55)%N
    else None in
  match v with
  | Some d => if (d <? r)%N then Some d else None
  | None => None
  end.

(** White space and line terminators of the language, as UTF-8 sequences:
    TAB, LF, VT, FF, CR, SP; U+00A0; U+1680, U+2000..U+200A, U+2028, U+2029,
    U+202F, U+205F, U+3000 and U+FEFF. *)
Definition is_space1 (c : ascii) : bool :=
  let n := code c in
  ((9 <=? n) && (n <=? 13) || (n =? 32))%N.

Definition is_space2 (c1 c2 : ascii) : bool :=
  ((code c1 =? 194) && (code c2 =? 160))%N.

Definition is_space3 (c1 c2 c3 : ascii) : bool :=
  let a := code c1 in
  let b := code c2 in
  let c := code c3 in
  (((a =? 225) && (b =? 154) && (c =? 128))
   || ((a =? 226) && (b =? 128)
       && (((128 <=? c) && (c <=? 138)) || (c =? 168) || (c =? 169) || (c =? 175)))
   || ((a =? 226) && (b =? 129) && (c =? 159))
   || ((a =? 227) && (b =? 128) && (c =? 128))
   || ((a =? 239) && (b =? 187) && (c =? 191)))%N.

(** [TrimString (s, start)]. *)
Fixpoint trimStart (s : string) : string :=
  match s with
  | EmptyString => s
  | String c1 r1 =>
      if is_space1 c1 then trimStart r1
      else
        match r1 with
        | EmptyString => s
        | String c2 r2 =>
            if is_space2 c1 c2 then trimStart r2
            else
              match r2 with
              | EmptyString => s
              | String c3 r3 =>
                  if is_space3 c1 c2 c3 then trimStart r3 else s
              end
        end
  end.

(** A leading sign: whether it is a minus, and the rest. *)
Definition strip_sign (s : string) : bool * string :=
  match s with
  | String c r =>
      if (code c =? 45)%N then (true, r)
      else if (code c =? 43)%N then (false, r)
      else (false, s)
  | EmptyString => (false, s)
  end.

(** The longest run of radix-[r] digits at the start of [s], read as a
    number in radix [r] on top of [acc]; the number of digits read; the
    rest. *)
Fixpoint read_digits (r : N) (acc : N) (s : string) : N * nat * string :=
  match s with
  | String c s' =>
      match radix_digit r c with
      | Some d =>
          let '(v, k, rest) := read_digits r (acc * r + d)%N s' in
          (v, S k, rest)
      | None => (acc, O, s)
      end
  | EmptyString => (acc, O, s)
  end.

(** *** Binary64

    A Number is a binary64 value; [parseInt] and [parseFloat] give the one
    nearest to the decimal they read. *)

(** The fraction [(a / b) / base ^ k]. *)
Definition scale_by (base a b : N) (k : Z) : N * N :=
  if (0 <=? k)%Z then (a, (b * base ^ Z.to_N k)%N)
  else ((a * base ^ Z.to_N (- k))%N, b).

(** The integer nearest to [a / b]; of two that are as near, the even
    one. *)
Definition round_half_even (a b : N) : N :=
  let q := (a / b)%N in
  match (2 * (a mod b) ?= b)%N with
  | Lt => q
  | Gt => (q + 1)%N
  | Eq => if N.even q then q else (q + 1)%N
  end.

(** The exponent [g] with [2 ^ g <= a / b < 2 ^ (g + 1)], for positive [a]
    and [b]. *)
Definition ratio_log2 (a b : N) : Z :=
  let g := (Z.of_N (N.log2 a) - Z.of_N (N.log2 b))%Z in
  let '(x, y) := scale_by 2 a b g in
  if (y <=? x)%N then g else (g - 1)%Z.

(** The magnitude of a binary64 value: zero, [q * 2 ^ e2] with a
    significand of at most 53 bits (of exactly 53 bits unless [e2] is the
    least exponent, -1074), or infinity. *)
Inductive magnitude : Type :=
| Zero
| Finite (q : N) (e2 : Z)
| Overflow.

Definition magnitude_eqb (x y : magnitude) : bool :=
  match x, y with
  | Zero, Zero | Overflow, Overflow => true
  | Finite q e2, Finite q' e2' => (q =? q')%N && (e2 =? e2')%Z
  | _, _ => false
  end.

(** The binary64 magnitude nearest to [a / b], ties to even (the
    round-to-nearest of IEEE 754, which ECMA-262 prescribes): the quotient
    is rounded to 53 bits, or to the multiple of [2 ^ -1074] when it is
    smaller than a 53-bit significand reaches; what rounds to [2 ^ 1024] or
    more overflows. *)
Definition nearest (a b : N) : magnitude :=
  if (a =? 0)%N then Zero
  else
    let e2 := Z.max (ratio_log2 a b - 52) (-1074) in
    let '(x, y) := scale_by 2 a b e2 in
    let q := round_half_even x y in
    if (q =? 0)%N then Zero
    else
      let '(q', e2') :=
        if (q =? 2 ^ 53)%N then ((2 ^ 52)%N, (e2 + 1)%Z) else (q, e2) in
      if (971 <? e2')%Z then Overflow else Finite q' e2'.

(** The binary64 magnitude of the decimal [s * 10 ^ z]. *)
Definition nearest_decimal (s : N) (z : Z) : magnitude :=
  let '(a, b) := scale_by 10 s 1 (- z) in nearest a b.

(** Of the two multiples of [10 ^ z] next to [a / b], one that reads back as
    [x]; the nearer one, and of two as near the even one, when both do. *)
Definition candidate (x : magnitude) (a b : N) (z : Z) : option N :=
  let '(p, r) := scale_by 10 a b z in
  let lo := (p / r)%N in
  let hi := (lo + 1)%N in
  match magnitude_eqb (nearest_decimal lo z) x,
        magnitude_eqb (nearest_decimal hi z) x with
  | true, true =>
      match (2 * (p mod r) ?= r)%N with
      | Lt => Some lo
      | Gt => Some hi
      | Eq => Some (if N.even lo then lo else hi)
      end
  | true, false => Some lo
  | false, true => Some hi
  | false, false => None
  end.

(** The shortest decimal that reads back as [x = a / b]: the multiples of
    [10 ^ z] are tried from [z] downwards, coarsest first; after [fuel]
    steps the decimal is [a / b] written out, which [last] is. *)
Fixpoint shortest (fuel : nat) (x : magnitude) (a b : N) (z : Z) (last : N * Z)
    : N * Z :=
  match fuel with
  | O => last
  | S fuel' =>
      match candidate x a b z with
      | Some s => (s, z)
      | None => shortest fuel' x a b (z - 1) last
      end
  end.

(** An exponent [z] with [a / b < 10 ^ z], at most two above the least. *)
Definition decimal_bound (a b : N) : Z :=
  ((ratio_log2 a b + 1) * 30103 / 100000 + 2)%Z.

(** The Number value of the decimal [m * 10 ^ e] with sign [neg] (ECMA-262,
    the conversion of a mathematical value to a Number): the nearest
    binary64 value, as the decimal [Number::toString] writes for it, the
    shortest one that reads back as the same value.  An integer is kept as
    its digits with exponent zero. *)
Definition binary64 (neg : bool) (m : N) (e : Z) : number :=
  match nearest_decimal m e with
  | Zero => Dec neg 0 0
  | Overflow => Infinity neg
  | Finite q e2 =>
      let '(a, b) := scale_by 2 q 1 (- e2) in
      let written_out := ((a * 5 ^ N.log2 b)%N, (- Z.of_N (N.log2 b))%Z) in
      let '(s, z) :=
        shortest 24 (Finite q e2) a b (decimal_bound a b) written_out in
      if (0 <=? z)%Z then Dec neg (s * 10 ^ Z.to_N z) 0 else Dec neg s z
  end.

(** [Number.parseInt (s, radix)] (ECMA-262, parseInt): leading white space is
    skipped, a sign is read, under radix 16 or 0 a [0x] prefix is dropped,
    and the Number value of the longest run of digits is the result; without
    a digit it is [NaN].  What follows the digits is ignored. *)
Definition parseInt (s : string) (radix : Z) : number :=
  let '(neg, s1) := strip_sign (trimStart s) in
  if ((radix =? 0) || ((2 <=? radix) && (radix <=? 36)))%Z then
    let hex := starts_with "0x" s1 || starts_with "0X" s1 in
    let strip := ((radix =? 0) || (radix =? 16))%Z && hex in
    let r := if strip then 16%N else if (radix =? 0)%Z then 10%N else Z.to_N radix in
    let s2 := if strip then substring 2 (String.length s1 - 2) s1 else s1 in
    let '(v, k, _) := read_digits r 0 s2 in
    match k with
    | O => NaN
    | S _ => binary64 neg v 0
    end
  else NaN.

(** An exponent part [e], [e+] or [e-] followed by digits, when [s] starts
    with one: its value and the rest. *)
Definition read_exponent (s : string) : option (Z * string) :=
  match s with
  | String c r =>
      if ((code c =? 101) || (code c =? 69))%N then
        let '(neg, r1) := strip_sign r in
        let '(v, k, rest) := read_digits 10 0 r1 in
        match k with
        | O => None
        | S _ => Some (if neg then (- Z.of_N v)%Z else Z.of_N v, rest)
        end
      else None
  | EmptyString => None
  end.

(** An unsigned decimal literal at the start of [s1] ([StrDecimalLiteral]
    without its sign), read with the sign [neg]: [Infinity], or digits with
    an optional fraction and an optional exponent; the Number value of the
    longest such prefix, or [NaN] without one. *)
Definition read_decimal (neg : bool) (s1 : string) : number :=
  if starts_with "Infinity" s1 then Infinity neg
  else
    let '(ip, ki, r1) := read_digits 10 0 s1 in
    let '(m, kf, r2) :=
      match r1 with
      | String c r =>
          if (code c =? 46)%N then
            let '(v, k, rest) := read_digits 10 ip r in
            match ki, k with
            | O, O => (ip, O, r1)
            | _, _ => (v, k, rest)
            end
          else (ip, O, r1)
      | EmptyString => (ip, O, r1)
      end in
    match ki, kf with
    | O, O => NaN
    | _, _ =>
        match read_exponent r2 with
        | Some (x, _) => binary64 neg m (x - Z.of_nat kf)
        | None => binary64 neg m (- Z.of_nat kf)
        end
    end.

(** [Number.parseFloat (s)] (ECMA-262, parseFloat): leading white space is
    skipped, a sign is read, and the longest prefix of the rest that is a
    decimal literal is the result. *)
Definition parseFloat (s : string) : number :=
  let '(neg, s1) := strip_sign (trimStart s) in
  read_decimal neg s1.

(** ** Options *)

Inductive Theme : Type :=
| asciinema
| dracula
| gruvbox_dark
| monokai
| solarized_dark
| solarized_light
| tango
| nord.

Definition THEMES : list Theme :=
  [asciinema; dracula; gruvbox_dark; monokai; solarized_dark;
   solarized_light; tango; nord].

(** The string a theme is at run time. *)
Definition theme_name (t : Theme) : string :=
  match t with
  | asciinema => "asciinema"
  | dracula => "dracula"
  | gruvbox_dark => "gruvbox-dark"
  | monokai => "monokai"
  | solarized_dark => "solarized-dark"
  | solarized_light => "solarized-light"
  | tango => "tango"
  | nord => "nord"
  end.

(** Raw options, as the command line gives them. *)
Record ConvertOptions : Type := mkConvertOptions {
  co_output : string;
  co_width : string;
  co_height : string;
  co_theme : Theme;
  co_speed : string;
  co_scale : string
}.

Record ParsedOptions : Type := mkParsedOptions {
  output : string;
  width : number;
  height : number;
  theme : Theme;
  speed : number;
  scale : number
}.

Definition parseOptions (options : ConvertOptions) : ParsedOptions :=
  {| output := co_output options;
     width := parseInt (co_width options) 10;
     height := parseInt (co_height options) 10;
     theme := co_theme options;
     speed := parseFloat (co_speed options);
     scale := parseFloat (co_scale options) |}.

(** ** Numbers as text *)

Definition digits_of (m : N) : string := NilZero.string_of_uint (N.to_uint m).

Fixpoint zeros (k : nat) : string :=
  match k with
  | O => EmptyString
  | S k' => String "0" (zeros k')
  end.

(** The digits of [s] without its trailing zeros, and how many were
    dropped. *)
Fixpoint strip_trailing_zeros (s : string) : string * nat :=
  match s with
  | EmptyString => (EmptyString, O)
  | String c r =>
      let '(r', z) := strip_trailing_zeros r in
      if is_empty r' && (code c =? 48)%N then (EmptyString, S z)
      else (String c r', z)
  end.

(** [Number::toString (x, 10)] (ECMA-262), which a template literal applies
    to a number: with [s] the [k] significant digits and [n] the position of
    the decimal point, the digits are padded with zeros, split by a point,
    or written in exponent form outside [1e-6 .. 1e21]. *)
Definition numberToString (x : number) : string :=
  match x with
  | NaN => "NaN"
  | Infinity neg => (if neg then "-" else EmptyString) ++ "Infinity"
  | Dec neg m e =>
      if (m =? 0)%N then "0"
      else
        let '(s, z) := strip_trailing_zeros (digits_of m) in
        let k := String.length s in
        let n := (Z.of_nat k + Z.of_nat z + e)%Z in
        (if neg then "-" else EmptyString) ++
        (if ((Z.of_nat k <=? n) && (n <=? 21))%Z then
           s ++ zeros (Z.to_nat n - k)
         else if ((0 <? n) && (n <=? 21))%Z then
           substring 0 (Z.to_nat n) s ++ "."
           ++ substring (Z.to_nat n) (k - Z.to_nat n) s
         else if ((-6 <? n) && (n <=? 0))%Z then
           "0." ++ zeros (Z.to_nat (- n)) ++ s
         else
           substring 0 1 s
           ++ (if (k =? 1)%nat then EmptyString
               else "." ++ substring 1 (k - 1) s)
           ++ "e" ++ (if (n - 1 <? 0)%Z then "-" else "+")
           ++ digits_of (Z.abs_N (n - 1)))
  end.

(** ** Base64 *)

Definition base64_alphabet : string :=
  "ABCDEFGHIJKLMNOPQRSTUVWXYZabcdefghijklmnopqrstuvwxyz0123456789+/".

Definition base64_pad : ascii := ascii_of_nat 61.

(** The character of a six-bit group. *)
Definition base64_char (x : N) : ascii :=
  match String.get (N.to_nat x) base64_alphabet with
  | Some c => c
  | None => base64_pad
  end.

(** The six-bit group of a character of the alphabet (or of the URL-safe
    alphabet, which the decoder of [Buffer] accepts too). *)
Definition base64_sextet (c : ascii) : option N :=
  let n := code c in
  if ((65 <=? n) && (n <=? 90))%N then Some (n - 65)%N
  else if ((97 <=? n) && (n <=? 122))%N then Some (n - 71)%N
  else if ((48 <=? n) && (n <=? 57))%N then Some (n + 4)%N
  else if ((n =? 43) || (n =? 45))%N then Some 62%N
  else if ((n =? 47) || (n =? 95))%N then Some 63%N
  else None.

(** The four six-bit groups of three bytes. *)
Definition enc1 (a : N) : N := N.shiftr a 2.
Definition enc2 (a b : N) : N := N.lor (N.shiftl (N.land a 3) 4) (N.shiftr b 4).
Definition enc3 (b c : N) : N := N.lor (N.shiftl (N.land b 15) 2) (N.shiftr c 6).
Definition enc4 (c : N) : N := N.land c 63.

(** The three bytes of four six-bit groups. *)
Definition dec1 (x1 x2 : N) : N := N.land (N.lor (N.shiftl x1 2) (N.shiftr x2 4)) 255.
Definition dec2 (x2 x3 : N) : N := N.land (N.lor (N.shiftl x2 4) (N.shiftr x3 2)) 255.
Definition dec3 (x3 x4 : N) : N := N.land (N.lor (N.shiftl x3 6) x4) 255.

Definition str1 (c : ascii) : string := String c EmptyString.

(** [Buffer.toString ('base64')]: three bytes give four characters; a last
    group of one or two bytes is padded. *)
Fixpoint base64_encode (s : string) : string :=
  match s with
  | EmptyString => EmptyString
  | String a EmptyString =>
      String (base64_char (enc1 (code a)))
        (String (base64_char (enc2 (code a) 0))
           (String base64_pad (String base64_pad EmptyString)))
  | String a (String b EmptyString) =>
      String (base64_char (enc1 (code a)))
        (String (base64_char (enc2 (code a) (code b)))
           (String (base64_char (enc3 (code b) 0))
              (String base64_pad EmptyString)))
  | String a (String b (String c r)) =>
      String (base64_char (enc1 (code a)))
        (String (base64_char (enc2 (code a) (code b)))
           (String (base64_char (enc3 (code b) (code c)))
              (String (base64_char (enc4 (code c))) (base64_encode r))))
  end.

(** [Buffer.from (_, 'base64')]: four characters give three bytes; decoding
    stops at the padding or at a character outside the alphabet. *)
Fixpoint base64_decode (s : string) : string :=
  match s with
  | String c1 (String c2 (String c3 (String c4 r))) =>
      match base64_sextet c1, base64_sextet c2 with
      | Some x1, Some x2 =>
          match base64_sextet c3 with
          | Some x3 =>
              match base64_sextet c4 with
              | Some x4 =>
                  String (ascii_of_N (dec1 x1 x2))
                    (String (ascii_of_N (dec2 x2 x3))
                       (String (ascii_of_N (dec3 x3 x4)) (base64_decode r)))
              | None =>
                  String (ascii_of_N (dec1 x1 x2))
                    (String (ascii_of_N (dec2 x2 x3)) EmptyString)
              end
          | None => String (ascii_of_N (dec1 x1 x2)) EmptyString
          end
      | _, _ => EmptyString
      end
  | _ => EmptyString
  end.

Definition data_uri_prefix : string := "data:application/json;base64,".

Definition createCastDataUri (castContent : string) : string :=
  let castBase64 := base64_encode castContent in
  data_uri_prefix ++ castBase64.

(** ** The page *)

Record PlayerAssets : Type := mkPlayerAssets {
  jsContent : string;
  cssContent : string
}.

(** The statement of the bootstrap script that registers the listener of the
    player's [ended] event. *)
Definition ended_listener : string :=
  "window.player.addEventListener('ended', () => {
         setTimeout(() => {
            window.playerEnded = true;
         }, 1000);
      });".

Definition generateHtml (playerAssets : PlayerAssets) (castDataUri : string)
    (options : ParsedOptions) : string :=
  "<!DOCTYPE html>
<html>
<head>
  <style>
    "
  ++ cssContent playerAssets
  ++ "
    body {
      margin: 0;
      padding: 0;
      display: flex;
      justify-content: center;
      align-items: center;
      height: 100vh;
      background: #000;
    }
    #player-container {
      width: 100%;
      height: 100%;
    }
  </style>
</head>
<body>
  <div id=" ++ dquote ++ "player-container" ++ dquote ++ "></div>
  <script>
    "
  ++ jsContent playerAssets
  ++ "
  </script>
  <script>
    try {
      const container = document.getElementById('player-container');
      window.player = AsciinemaPlayer.create('"
  ++ castDataUri
  ++ "', container, {
        theme: '"
  ++ theme_name (theme options)
  ++ "',
        speed: "
  ++ numberToString (speed options)
  ++ ",
        fontSize: 'medium',
        autoPlay: false,
        preload: true,
        fit: 'both',
      });

      window.playerEl = window.player.el;
      window.playerReady = true;
      window.playerEnded = false;

      "
  ++ ended_listener
  ++ "
    } catch (error) {
      window.playerError = error.toString();
    }
  </script>
</body>
</html>".

(** ** The environment *)

(** What a synchronous call gives: a value, or an [Error] with a message. *)
Inductive result (A : Type) : Type :=
| Ok (a : A)
| Err (msg : string).

Arguments Ok {A} a.
Arguments Err {A} msg.

(** What becomes of an awaited promise: it resolves, it rejects, or it never
    settles. *)
Inductive reply (A : Type) : Type :=
| Resolved (a : A)
| Rejected (msg : string)
| Unsettled.

Arguments Resolved {A} a.
Arguments Rejected {A} msg.
Arguments Unsettled {A}.

Inductive signal : Type := SIGINT | SIGTERM.

Definition signal_eqb (a b : signal) : bool :=
  match a, b with
  | SIGINT, SIGINT | SIGTERM, SIGTERM => true
  | _, _ => false
  end.

(** A value read back from the page. *)
Inductive jsval : Type :=
| Undefined
| Null
| Bool (b : bool)
| Num (x : number)
| Str (s : string).

(** [ToBoolean]. *)
Definition truthy (v : jsval) : bool :=
  match v with
  | Undefined | Null => false
  | Bool b => b
  | Num NaN => false
  | Num (Infinity _) => true
  | Num (Dec _ m _) => negb (m =? 0)%N
  | Str s => negb (is_empty s)
  end.

(** [ToString], as a template literal applies it. *)
Definition toString (v : jsval) : string :=
  match v with
  | Undefined => "undefined"
  | Null => "null"
  | Bool true => "true"
  | Bool false => "false"
  | Num x => numberToString x
  | Str s => s
  end.

(** The answers of the file system, the module loader, the browser, the
    recorder and the operating system to the calls of one run.  At most one
    signal reaches the process: [interrupt] names it and the await (counted
    from zero over the run) during which it arrives. *)
Record Env : Type := mkEnv {
  path_resolve : string -> string;
  path_dirname : string -> string;
  path_join : list string -> string;
  url_pathname : string -> result string;
  import_meta_resolve : string -> result string;
  fs_existsSync : string -> bool;
  fs_readFileSync : string -> result string;
  puppeteer_launch : reply unit;
  browser_newPage : reply unit;
  page_setViewport : reply unit;
  page_setContent : reply unit;
  wait_playerReady : reply unit;
  eval_playerError : reply jsval;
  import_ffmpeg : reply string;
  recorder_start : reply unit;
  eval_play : reply unit;
  wait_playerEnded : reply unit;
  recorder_stop : reply unit;
  browser_close : reply unit;
  interrupt : option (nat * signal)
}.

(** ** Calls, and the monad of asynchronous code *)

Inductive level : Type := debug | success | error | start | info.

Inductive page_function : Type := ReadPlayerError | PlayerPlay.

Record RecorderOptions : Type := mkRecorderOptions {
  followNewTab : bool;
  fps : N;
  ffmpeg_Path : string;
  videoFrame : number * number
}.

(** The calls a run makes on its collaborators, in the order it makes
    them. *)
Inductive event : Type :=
| EConsola (l : level) (args : list string)
| ELaunch (headless : bool) (args : list string)
| ENewPage
| ESetViewport (w h deviceScaleFactor : number)
| EProcessOn (s : signal)
| EProcessOff (s : signal)
| ESetContent (html waitUntil : string)
| EPageOnConsole
| EWaitForFunction (expr : string) (timeout : N)
| EEvaluate (f : page_function)
| EImportFfmpeg
| ERecorderNew (o : RecorderOptions)
| ERecorderStart (path : string)
| ERecorderStop
| EBrowserClose
| EProcessExit (code : Z).

Record state : Type := mkState {
  log : list event;
  listeners : list signal;
  awaits : nat
}.

Definition initial : state := mkState [] [] 0.

(** How a piece of asynchronous code ends: it returns, it throws, it stays
    suspended on a promise that never settles, or the process is gone
    (by [process.exit] or by a signal nobody listens to). *)
Inductive outcome (A : Type) : Type :=
| Returned (a : A)
| Thrown (msg : string)
| Pending
| Exited (code : Z)
| Killed (s : signal).

Arguments Returned {A} a.
Arguments Thrown {A} msg.
Arguments Pending {A}.
Arguments Exited {A} code.
Arguments Killed {A} s.

Definition M (A : Type) : Type := state -> outcome A * state.

Definition ret {A : Type} (a : A) : M A := fun st => (Returned a, st).

Definition throw {A : Type} (msg : string) : M A := fun st => (Thrown msg, st).

Definition bind {A B : Type} (m : M A) (k : A -> M B) : M B :=
  fun st =>
    match m st with
    | (Returned a, st1) => k a st1
    | (Thrown msg, st1) => (Thrown msg, st1)
    | (Pending, st1) => (Pending, st1)
    | (Exited c, st1) => (Exited c, st1)
    | (Killed s, st1) => (Killed s, st1)
    end.

Declare Scope m_scope.
Delimit Scope m_scope with m.
Notation "x <- m ;; k" := (bind m (fun x => k))
  (at level 61, m at next level, right associativity) : m_scope.
Notation "m ;; k" := (bind m (fun _ => k))
  (at level 61, right associativity) : m_scope.
Local Open Scope m_scope.

(** A synchronous call. *)
Definition lift {A : Type} (r : result A) : M A :=
  match r with
  | Ok a => ret a
  | Err msg => throw msg
  end.

Definition emit (e : event) : M unit :=
  fun st => (Returned tt, mkState (log st ++ [e]) (listeners st) (awaits st)).

(** [process.on (s, cleanup)] and [process.off (s, cleanup)]. *)
Definition process_on (s : signal) : M unit :=
  fun st =>
    (Returned tt, mkState (log st ++ [EProcessOn s]) (s :: listeners st) (awaits st)).

Definition process_off (s : signal) : M unit :=
  fun st =>
    (Returned tt,
     mkState (log st ++ [EProcessOff s])
       (filter (fun x => negb (signal_eqb x s)) (listeners st)) (awaits st)).

(** [try { body } catch (_) { handler }]. *)
Definition try_catch {A : Type} (body : M A) (handler : string -> M A) : M A :=
  fun st =>
    match body st with
    | (Thrown msg, st1) => handler msg st1
    | r => r
    end.

(** [try { body } finally { final }]: [final] runs when [body] returns or
    throws, and what [final] throws replaces the outcome of [body]. *)
Definition try_finally {A : Type} (body : M A) (final : M unit) : M A :=
  fun st =>
    match body st with
    | (Returned a, st1) => (final ;; ret a) st1
    | (Thrown msg, st1) => (final ;; throw msg) st1
    | r => r
    end.

(** The listener of lines 403-406, which [convertCastToVideo] registers for
    both signals: [if (browser) await browser.close (); process.exit (1)].
    When the close is rejected the rejection is unhandled and the process
    ends with status 1 without reaching [process.exit]. *)
Definition cleanup {A : Type} (env : Env) : M A :=
  fun st =>
    let st1 := mkState (log st ++ [EBrowserClose]) (listeners st) (awaits st) in
    match browser_close env with
    | Resolved _ =>
        (Exited 1,
         mkState (log st1 ++ [EProcessExit 1]) (listeners st1) (awaits st1))
    | Rejected _ => (Exited 1, st1)
    | Unsettled => (Pending, st1)
    end.

(** [await call]: the call is made and the code is suspended; without a
    signal it resumes with the reply.  When the signal of the environment
    arrives during this await and nobody listens, the process is killed.
    When the listener of lines 403-406 is registered, it starts and calls
    [browser.close]; of the schedules that follow, the embedding has the one
    in which that close settles before the awaited call does, so that the
    listener runs to its end.  The schedules in which the suspended code
    resumes first (its [finally] block then calls [browser.close] a second
    time) and a second signal are not runs of the embedding: what is stated
    of all environments says of a run with a signal what holds on that one
    schedule. *)
Definition await {A : Type} (env : Env) (e : event) (r : reply A) : M A :=
  fun st =>
    let st1 := mkState (log st ++ [e]) (listeners st) (S (awaits st)) in
    match interrupt env with
    | Some (k, s) =>
        if (k =? awaits st)%nat then
          if existsb (signal_eqb s) (listeners st) then cleanup env st1
          else (Killed s, st1)
        else
          match r with
          | Resolved a => (Returned a, st1)
          | Rejected msg => (Thrown msg, st1)
          | Unsettled => (Pending, st1)
          end
    | None =>
        match r with
        | Resolved a => (Returned a, st1)
        | Rejected msg => (Thrown msg, st1)
        | Unsettled => (Pending, st1)
        end
    end.

(** ** The pipeline *)

Inductive Browser : Type := TheBrowser.
Inductive Page : Type := ThePage.

Definition validateInputFile (env : Env) (inputPath : string) : result string :=
  let inputAbsPath := path_resolve env inputPath in
  if negb (fs_existsSync env inputAbsPath) then
    Err ("Input file not found: " ++ inputAbsPath)
  else Ok inputAbsPath.

Definition result_bind {A B : Type} (r : result A) (k : A -> result B) : result B :=
  match r with
  | Ok a => k a
  | Err msg => Err msg
  end.

Definition getPlayerAssetPaths (env : Env) : result (string * string) :=
  result_bind (import_meta_resolve env "asciinema-player") (fun playerMainPath =>
  result_bind (url_pathname env playerMainPath) (fun pathname =>
  let playerMainDir := path_dirname env pathname in
  let playerPackagePath := path_dirname env playerMainDir in
  let jsPath :=
    path_join env [playerPackagePath; "dist"; "bundle"; "asciinema-player.js"] in
  let cssPath :=
    path_join env [playerPackagePath; "dist"; "bundle"; "asciinema-player.css"] in
  Ok (jsPath, cssPath))).

Definition loadPlayerAssets (env : Env) (jsPath cssPath : string) : result PlayerAssets :=
  result_bind (fs_readFileSync env jsPath) (fun js =>
  result_bind (fs_readFileSync env cssPath) (fun css =>
  Ok {| jsContent := js; cssContent := css |})).

Definition setupBrowser (env : Env) (options : ParsedOptions) : M (Browser * Page) :=
  await env (ELaunch true ["--no-sandbox"; "--disable-setuid-sandbox"])
    (puppeteer_launch env) ;;
  await env ENewPage (browser_newPage env) ;;
  await env (ESetViewport (width options) (height options) (scale options))
    (page_setViewport env) ;;
  ret (TheBrowser, ThePage).

Definition ready_condition : string :=
  "window.playerReady === true && window.playerEl !== undefined".

Definition ended_condition : string := "window.playerEnded === true".

Definition setupPlayer (env : Env) (page : Page) (html : string) : M unit :=
  await env (ESetContent html "domcontentloaded") (page_setContent env) ;;
  emit EPageOnConsole ;;
  try_catch
    (await env (EWaitForFunction ready_condition 15000) (wait_playerReady env) ;;
     emit (EConsola success ["Player initialized successfully"]))
    (fun _error =>
       playerError <- await env (EEvaluate ReadPlayerError) (eval_playerError env) ;;
       (if truthy playerError then
          emit (EConsola error ["Player initialization error:"; toString playerError])
        else ret tt) ;;
       throw ("Player failed to initialize"
              ++ (if truthy playerError then ": " ++ toString playerError
                  else EmptyString))).

Definition recordVideo (env : Env) (page : Page) (outputPath : string)
    (options : ParsedOptions) : M unit :=
  ffmpegPath <- await env EImportFfmpeg (import_ffmpeg env) ;;
  emit (ERecorderNew
          {| followNewTab := false;
             fps := 60;
             ffmpeg_Path := ffmpegPath;
             videoFrame := (width options, height options) |}) ;;
  emit (EConsola start ["Starting recording..."]) ;;
  await env (ERecorderStart outputPath) (recorder_start env) ;;
  emit (EConsola info ["Starting playback..."]) ;;
  await env (EEvaluate PlayerPlay) (eval_play env) ;;
  await env (EWaitForFunction ended_condition 0) (wait_playerEnded env) ;;
  emit (EConsola info ["Stopping recording..."]) ;;
  await env ERecorderStop (recorder_stop env).

Definition convertCastToVideo (env : Env) (inputPath : string)
    (options : ConvertOptions) : M unit :=
  inputAbsPath <- lift (validateInputFile env inputPath) ;;
  let outputAbsPath := path_resolve env (co_output options) in
  let parsedOptions := parseOptions options in
  emit (EConsola start
          ["Converting " ++ inputAbsPath ++ " to " ++ outputAbsPath ++ "..."]) ;;
  paths <- lift (getPlayerAssetPaths env) ;;
  playerAssets <- lift (loadPlayerAssets env (fst paths) (snd paths)) ;;
  castContent <- lift (fs_readFileSync env inputAbsPath) ;;
  let castDataUri := createCastDataUri castContent in
  let html := generateHtml playerAssets castDataUri parsedOptions in
  session <- setupBrowser env parsedOptions ;;
  process_on SIGINT ;;
  process_on SIGTERM ;;
  try_finally
    (setupPlayer env (snd session) html ;;
     recordVideo env (snd session) outputAbsPath parsedOptions ;;
     emit (EConsola success ["Done!"]))
    (process_off SIGINT ;;
     process_off SIGTERM ;;
     await env EBrowserClose (browser_close env)).

(** The number of calls of [browser.close] in a log. *)
Definition closes (l : list event) : nat :=
  List.length (filter (fun e => match e with EBrowserClose => true | _ => false end) l).

(** ** The bootstrap script, as the page runs it

    The second script of the page (lines 248-272) is text to this program
    and code to the browser.  [Window] holds the page globals the script
    writes, the listeners of the player's [ended] event and the pending
    timers; time is counted in milliseconds. *)

(** The callback of [setTimeout] at lines 265-267. *)
Inductive callback : Type := SetPlayerEnded.

(** The listener of lines 264-268. *)
Inductive listener : Type := OnEnded.

Record Window : Type := mkWindow {
  w_playerReady : jsval;
  w_playerEl : bool;
  w_playerEnded : jsval;
  w_playerError : jsval;
  w_listeners : list listener;
  w_timers : list (N * callback)
}.

Definition fresh_window : Window :=
  mkWindow Undefined false Undefined Undefined [] [].

(** The delay passed to [setTimeout], in milliseconds. *)
Definition ended_delay : N := 1000.

(** The script: [create] is what [AsciinemaPlayer.create] does. *)
Definition bootstrap (create : result unit) (w : Window) : Window :=
  match create with
  | Ok _ =>
      {| w_playerReady := Bool true;
         w_playerEl := true;
         w_playerEnded := Bool false;
         w_playerError := w_playerError w;
         w_listeners := w_listeners w ++ [OnEnded];
         w_timers := w_timers w |}
  | Err msg =>
      {| w_playerReady := w_playerReady w;
         w_playerEl := w_playerEl w;
         w_playerEnded := w_playerEnded w;
         w_playerError := Str msg;
         w_listeners := w_listeners w;
         w_timers := w_timers w |}
  end.

(** [setTimeout (cb, delay)] at time [now]. *)
Definition setTimeout (now : N) (cb : callback) (delay : N) (w : Window) : Window :=
  {| w_playerReady := w_playerReady w;
     w_playerEl := w_playerEl w;
     w_playerEnded := w_playerEnded w;
     w_playerError := w_playerError w;
     w_listeners := w_listeners w;
     w_timers := w_timers w ++ [((now + delay)%N, cb)] |}.

Definition run_listener (now : N) (l : listener) (w : Window) : Window :=
  match l with
  | OnEnded => setTimeout now SetPlayerEnded ended_delay w
  end.

(** The player fires its [ended] event at time [now]. *)
Definition fire_ended (now : N) (w : Window) : Window :=
  fold_left (fun w' l => run_listener now l w') (w_listeners w) w.

Definition run_callback (cb : callback) (w : Window) : Window :=
  match cb with
  | SetPlayerEnded =>
      {| w_playerReady := w_playerReady w;
         w_playerEl := w_playerEl w;
         w_playerEnded := Bool true;
         w_playerError := w_playerError w;
         w_listeners := w_listeners w;
         w_timers := w_timers w |}
  end.

(** The event loop at time [now]: the timers that are due run, the others
    stay. *)
Definition run_timers (now : N) (w : Window) : Window :=
  let due := filter (fun t => (fst t <=? now)%N) (w_timers w) in
  let later := filter (fun t => negb (fst t <=? now)%N) (w_timers w) in
  fold_left (fun w' t => run_callback (snd t) w')
    due
    {| w_playerReady := w_playerReady w;
       w_playerEl := w_playerEl w;
       w_playerEnded := w_playerEnded w;
       w_playerError := w_playerError w;
       w_listeners := w_listeners w;
       w_timers := later |}.

(** [window.playerReady === true && window.playerEl !== undefined]. *)
Definition ready_flag (w : Window) : bool :=
  match w_playerReady w with
  | Bool true => w_playerEl w
  | _ => false
  end.

(** [window.playerEnded === true]. *)
Definition ended_flag (w : Window) : bool :=
  match w_playerEnded w with
  | Bool true => true
  | _ => false
  end.

(** ** Reference notions the properties are stated with *)

Fixpoint all_digits (s : string) : bool :=
  match s with
  | EmptyString => true
  | String c r => is_digit c && all_digits r
  end.

(** The value of a string of decimal digits, by the weight of each
    position. *)
Fixpoint decimal_value (s : string) : N :=
  match s with
  | EmptyString => 0%N
  | String c r => (digit_value c * 10 ^ N.of_nat (String.length r) + decimal_value r)%N
  end.

(** Whether the first character of [s], if any, is a decimal digit. *)
Definition starts_with_digit (s : string) : bool :=
  match s with
  | String c _ => is_digit c
  | EmptyString => false
  end.

(** A decimal integer numeral: an optional sign and digits, nothing else. *)
Definition integer_numeral (s : string) : bool :=
  let '(_, r) := strip_sign s in
  negb (is_empty r) && all_digits r.

(** The string of the bytes [l]. *)
Definition bytes (l : list nat) : string :=
  fold_right (fun n s => String (ascii_of_nat n) s) EmptyString l.

(** The white space and the line terminators of ECMA-262, each as the bytes
    of its UTF-8 encoding: TAB, LF, VT, FF, CR, SP; U+00A0; U+1680; U+2000 to
    U+200A; U+2028, U+2029, U+202F, U+205F, U+3000 and U+FEFF. *)
Definition white_space : list string :=
  map bytes
    [[9]; [10]; [11]; [12]; [13]; [32]; [194; 160]; [225; 154; 128];
     [226; 128; 128]; [226; 128; 129]; [226; 128; 130]; [226; 128; 131];
     [226; 128; 132]; [226; 128; 133]; [226; 128; 134]; [226; 128; 135];
     [226; 128; 136]; [226; 128; 137]; [226; 128; 138]; [226; 128; 168];
     [226; 128; 169]; [226; 128; 175]; [226; 129; 159]; [227; 128; 128];
     [239; 187; 191]].

(** [after_white_space raw body]: [raw] is [body] after some white space. *)
Inductive after_white_space : string -> string -> Prop :=
| aws_here : forall s, after_white_space s s
| aws_skip : forall w s body,
    In w white_space -> after_white_space s body ->
    after_white_space (w ++ s) body.

(** [signed s body neg]: [body] is [s] after an optional sign, which is a
    minus when [neg]. *)
Inductive signed (s : string) : string -> bool -> Prop :=
| signed_none : signed s s false
| signed_plus : signed s ("+" ++ s) false
| signed_minus : signed s ("-" ++ s) true.

(** White space, an optional sign, then a digit: the strings with a leading
    integer. *)
Definition leading_integer (raw : string) : Prop :=
  exists body s neg,
    after_white_space raw body /\ signed s body neg
    /\ starts_with_digit s = true.

(** Where an unsigned decimal literal can start: [Infinity], a digit, or a
    point followed by a digit. *)
Definition starts_decimal (s : string) : bool :=
  starts_with "Infinity" s
  || starts_with_digit s
  || match s with
     | String c r => (code c =? 46)%N && starts_with_digit r
     | EmptyString => false
     end.

(** White space, an optional sign, then the start of a decimal literal: the
    strings with a leading floating-point prefix. *)
Definition leading_float (raw : string) : Prop :=
  exists body s neg,
    after_white_space raw body /\ signed s body neg
    /\ starts_decimal s = true.

(** Whether a digit follows the optional sign. *)
Definition integer_start (s : string) : bool :=
  starts_with_digit (snd (strip_sign s)).

(** Whether a decimal literal starts after the optional sign. *)
Definition float_start (s : string) : bool :=
  starts_decimal (snd (strip_sign s)).

(** Whether [s] starts with an exponent indicator. *)
Definition starts_with_exponent (s : string) : bool :=
  match s with
  | String c _ => ((code c =? 101) || (code c =? 69))%N
  | EmptyString => false
  end.

(** Whether [s] starts with a decimal point. *)
Definition starts_with_point (s : string) : bool :=
  match s with
  | String c _ => (code c =? 46)%N
  | EmptyString => false
  end.

(** [P] holds of every number below [n]. *)
Fixpoint all_below (n : nat) (P : N -> bool) : bool :=
  match n with
  | O => true
  | S k => P (N.of_nat k) && all_below k P
  end.

(** What [parseOptions] owes a dimension.  After white space and an
    optional sign, a run of digits is read as the Number value of the run
    with that sign, whatever follows the run; below [2 ^ 53] that value is
    the integer itself.  The result is [NaN] exactly when the string has no
    leading integer. *)
Definition reads_integer (raw : string) (x : number) : Prop :=
  (forall body neg d rest,
     after_white_space raw body -> signed (d ++ rest) body neg ->
     d <> EmptyString -> all_digits d = true ->
     starts_with_digit rest = false ->
     x = binary64 neg (decimal_value d) 0
     /\ ((decimal_value d < 2 ^ 53)%N -> x = Dec neg (decimal_value d) 0))
  /\ (x = NaN <-> ~ leading_integer raw).

(** The value of the digits [xd] of an exponent, negative when [eneg]. *)
Definition exponent_value (eneg : bool) (xd : string) : Z :=
  if eneg then (- Z.of_N (decimal_value xd))%Z else Z.of_N (decimal_value xd).

(** Whether [s] starts with an exponent part: [e] or [E], an optional
    sign, a digit. *)
Definition starts_exponent_part (s : string) : bool :=
  match s with
  | String c r =>
      ((code c =? 101) || (code c =? 69))%N
      && (starts_with_digit r
          || match r with
             | String c2 r2 =>
                 ((code c2 =? 43) || (code c2 =? 45))%N && starts_with_digit r2
             | EmptyString => false
             end)
  | EmptyString => false
  end.

(** The mantissa of a decimal literal: the digits [ip] alone, or [ip], a
    point and the digits [fp], with a digit on one side of the point at
    least; [frac] is what the literal has after [ip]. *)
Definition mantissa (ip frac fp : string) : Prop :=
  all_digits ip = true /\ all_digits fp = true
  /\ ((ip <> EmptyString /\ frac = EmptyString /\ fp = EmptyString)
      \/ (frac = "." ++ fp /\ (ip <> EmptyString \/ fp <> EmptyString))).

(** What [parseOptions] owes a factor.  After white space and an optional
    sign, a mantissa is read as the Number value of the decimal it writes,
    and a mantissa followed by an exponent ([e] or [E], an optional sign,
    digits) as that of the decimal times the power of ten, whatever follows
    short of more of the literal; digits that write an integer below
    [2 ^ 53] are read as that integer; [Infinity] is read as the infinity of
    the sign.  The result is [NaN] exactly when the string has no leading
    decimal literal. *)
Definition reads_float (raw : string) (x : number) : Prop :=
  (forall body neg ip frac fp rest,
     after_white_space raw body -> signed (ip ++ frac ++ rest) body neg ->
     mantissa ip frac fp ->
     starts_with_digit rest = false ->
     (frac = EmptyString -> starts_with_point rest = false) ->
     starts_exponent_part rest = false ->
     x = binary64 neg (decimal_value (ip ++ fp))
           (- Z.of_nat (String.length fp))
     /\ (fp = EmptyString -> (decimal_value ip < 2 ^ 53)%N ->
         x = Dec neg (decimal_value ip) 0))
  /\ (forall body neg ip frac fp c etext eneg xd rest,
        after_white_space raw body ->
        signed (ip ++ frac ++ String c etext) body neg ->
        mantissa ip frac fp ->
        (code c = 101 \/ code c = 69)%N ->
        signed (xd ++ rest) etext eneg ->
        xd <> EmptyString -> all_digits xd = true ->
        starts_with_digit rest = false ->
        x = binary64 neg (decimal_value (ip ++ fp))
              (exponent_value eneg xd - Z.of_nat (String.length fp)))
  /\ (forall body neg rest,
        after_white_space raw body -> signed ("Infinity" ++ rest) body neg ->
        x = Infinity neg)
  /\ (x = NaN <-> ~ leading_float raw).

(** ** Specifications of asynchronous code *)

Definition is_close (e : event) : bool :=
  match e with
  | EBrowserClose => true
  | _ => false
  end.

Definition is_process_on (e : event) : bool :=
  match e with
  | EProcessOn _ => true
  | _ => false
  end.

(** The run got past [setupBrowser]: it registered its signal listeners,
    which line 407 does right after [setupBrowser] returns the browser. *)
Definition session_opened (l : list event) : bool := existsb is_process_on l.

(** Every signal has a listener. *)
Definition all_listened (st : state) : Prop :=
  forall s, existsb (signal_eqb s) (listeners st) = true.

(** [m] keeps a property of the calls logged. *)
Definition emits {A : Type} (ok : event -> Prop) (m : M A) : Prop :=
  forall st, Forall ok (log st) -> Forall ok (log (snd (m st))).

(** Code that runs without listeners and neither closes the browser nor
    registers a listener. *)
Definition quiet {A : Type} (m : M A) : Prop :=
  forall st,
    listeners st = [] ->
    listeners (snd (m st)) = []
    /\ closes (log (snd (m st))) = closes (log st)
    /\ session_opened (log (snd (m st))) = session_opened (log st).

(** Code that runs under the listeners and does not close the browser
    itself: when it returns or throws the browser has not been closed and
    the listeners stand; when the process exits, it is with status 1 and the
    listener has closed the browser once. *)
Definition guarded {A : Type} (m : M A) : Prop :=
  forall st,
    all_listened st ->
    match fst (m st) with
    | Returned _ | Thrown _ =>
        closes (log (snd (m st))) = closes (log st)
        /\ listeners (snd (m st)) = listeners st
    | Exited c => c = 1%Z /\ closes (log (snd (m st))) = S (closes (log st))
    | Killed _ => False
    | Pending => True
    end.

(** The two waits of the pipeline, by their condition and timeout (a
    timeout of zero is no timeout to [page.waitForFunction]). *)
Definition wait_shape (e : event) : Prop :=
  match e with
  | EWaitForFunction expr timeout =>
      (expr = ready_condition /\ timeout = 15000%N)
      \/ (expr = ended_condition /\ timeout = 0%N)
  | _ => True
  end.

(** What an await gives when no signal arrives. *)
Definition settle {A : Type} (r : reply A) : outcome A :=
  match r with
  | Resolved a => Returned a
  | Rejected msg => Thrown msg
  | Unsettled => Pending
  end.

(** The message [setupPlayer] throws when the wait for readiness fails. *)
Definition initialization_failure (playerError : jsval) : string :=
  if truthy playerError then "Player failed to initialize: " ++ toString playerError
  else "Player failed to initialize".

(** What the claim on the browser asks of a run: if the session was opened
    and the run has ended, the browser was closed exactly once, and a run
    that ended by [process.exit] did so with status 1. *)
Definition closed_once {A : Type} (r : outcome A * state) : Prop :=
  session_opened (log (snd r)) = true ->
  fst r <> Pending ->
  closes (log (snd r)) = 1 /\ (forall c, fst r = Exited c -> c = 1%Z).

(** ** A sample environment, after the mocks of the test suite *)

Definition contains (p s : string) : bool :=
  (1 <=? count_occurrences p s)%nat.

Definition sample_cast : string :=
  "{" ++ dquote ++ "version" ++ dquote ++ ": 2, "
  ++ dquote ++ "width" ++ dquote ++ ": 80, "
  ++ dquote ++ "height" ++ dquote ++ ": 24}".

Definition mock_readFileSync (path : string) : result string :=
  if contains ".cast" path then Ok sample_cast
  else if contains ".js" path then Ok "/* JS content */"
  else if contains ".css" path then Ok "/* CSS content */"
  else Ok EmptyString.

(** The part of [s] before its last slash, when it has one. *)
Fixpoint before_last_slash (s : string) : option string :=
  match s with
  | EmptyString => None
  | String c r =>
      match before_last_slash r with
      | Some d => Some (String c d)
      | None => if (code c =? 47)%N then Some EmptyString else None
      end
  end.

Definition mock_dirname (s : string) : string :=
  match before_last_slash s with
  | Some EmptyString => "/"
  | Some d => d
  | None => "."
  end.

Definition mock_pathname (url : string) : result string :=
  match strip_prefix "file://" url with
  | Some p => Ok p
  | None => Err "Invalid URL"
  end.

(** What varies between the scenarios: whether the input exists, and what
    the browser does. *)
Record Scenario : Type := mkScenario {
  sc_exists : bool;
  sc_newPage : reply unit;
  sc_ready : reply unit;
  sc_playerError : reply jsval;
  sc_ended : reply unit;
  sc_interrupt : option (nat * signal)
}.

Definition mock_env (sc : Scenario) : Env :=
  {| path_resolve := fun p => "/absolute/" ++ p;
     path_dirname := mock_dirname;
     path_join := String.concat "/";
     url_pathname := mock_pathname;
     import_meta_resolve :=
       fun _ => Ok "file:///node_modules/asciinema-player/dist/index.js";
     fs_existsSync := fun _ => sc_exists sc;
     fs_readFileSync := mock_readFileSync;
     puppeteer_launch := Resolved tt;
     browser_newPage := sc_newPage sc;
     page_setViewport := Resolved tt;
     page_setContent := Resolved tt;
     wait_playerReady := sc_ready sc;
     eval_playerError := sc_playerError sc;
     import_ffmpeg := Resolved "/path/to/ffmpeg";
     recorder_start := Resolved tt;
     eval_play := Resolved tt;
     wait_playerEnded := sc_ended sc;
     recorder_stop := Resolved tt;
     browser_close := Resolved tt;
     interrupt := sc_interrupt sc |}.

(** Everything succeeds. *)
Definition happy : Scenario :=
  mkScenario true (Resolved tt) (Resolved tt) (Resolved Undefined)
    (Resolved tt) None.

(** The options of the command line when no flag is given. *)
Definition default_options : ConvertOptions :=
  mkConvertOptions "output.mp4" "800" "600" asciinema "1" "2".

(** The scenario of the specification: the player never becomes ready and
    has recorded the error [boom]. *)
Definition boom : Scenario :=
  mkScenario true (Resolved tt) (Rejected "Timeout") (Resolved (Str "boom"))
    (Resolved tt) None.

(** The player never becomes ready and its error flag is set to the empty
    string. *)
Definition empty_error : Scenario :=
  mkScenario true (Resolved tt) (Rejected "Timeout")
    (Resolved (Str EmptyString)) (Resolved tt) None.

(** The browser is launched and [browser.newPage] fails. *)
Definition no_page : Scenario :=
  mkScenario true (Rejected "Protocol error") (Resolved tt)
    (Resolved Undefined) (Resolved tt) None.

(** The recording fails: the wait for the ended flag rejects. *)
Definition recording_fails : Scenario :=
  mkScenario true (Resolved tt) (Resolved tt) (Resolved Undefined)
    (Rejected "Target closed") None.

(** * Definitions for the further properties *)

(** ** Characters of a string *)

Fixpoint string_mem (c : ascii) (s : string) : bool :=
  match s with
  | EmptyString => false
  | String d r => Ascii.eqb c d || string_mem c r
  end.

(** A character of the base64 alphabet, or the padding. *)
Definition base64_text (c : ascii) : bool :=
  string_mem c base64_alphabet || Ascii.eqb c base64_pad.

(** A character that can stand in a single-quoted string literal of the
    bootstrap script as itself: no quote, no backslash, no line break. *)
Definition literal_safe (c : ascii) : bool :=
  negb ((code c =? 39) || (code c =? 92) || (code c =? 10) || (code c =? 13))%N.

(** A character of the text of a number: a digit, a point, a sign, or a
    letter of [e], [NaN] and [Infinity]. *)
Definition number_text (c : ascii) : bool :=
  is_digit c || string_mem c ".-+eNaInfity".

(** ** JavaScript strings and their bytes

    A JavaScript string is a list of 16-bit code units (UTF-16), and
    [Buffer.from (s)] is its UTF-8 encoding. *)

(** The surrogates: U+D800 to U+DBFF and U+DC00 to U+DFFF. *)
Definition is_high_surrogate (u : N) : bool := ((55296 <=? u) && (u <=? 56319))%N.

Definition is_low_surrogate (u : N) : bool := ((56320 <=? u) && (u <=? 57343))%N.

(** The code points of a string.  A high surrogate and the low surrogate
    after it are one code point from U+10000 on; for a surrogate on its own
    the encoder of [Buffer.from] writes U+FFFD. *)
Fixpoint code_points (l : list N) : list N :=
  match l with
  | [] => []
  | h :: r =>
      if is_high_surrogate h then
        match r with
        | lo :: r' =>
            if is_low_surrogate lo then
              (65536 + (h - 55296) * 1024 + (lo - 56320))%N :: code_points r'
            else 65533%N :: code_points r
        | [] => [65533%N]
        end
      else if is_low_surrogate h then 65533%N :: code_points r
      else h :: code_points r
  end.

(** One byte. *)
Definition byte (n : N) : string := String (ascii_of_N n) EmptyString.

(** The UTF-8 encoding of a code point: one byte below U+0080, two below
    U+0800, three below U+10000, four from there on; the first byte tells
    the number, each byte after it holds six bits. *)
Definition utf8 (cp : N) : string :=
  if (cp <? 128)%N then byte cp
  else if (cp <? 2048)%N then byte (192 + cp / 64) ++ byte (128 + cp mod 64)
  else if (cp <? 65536)%N then
    byte (224 + cp / 4096) ++ byte (128 + (cp / 64) mod 64)
    ++ byte (128 + cp mod 64)
  else
    byte (240 + cp / 262144) ++ byte (128 + (cp / 4096) mod 64)
    ++ byte (128 + (cp / 64) mod 64) ++ byte (128 + cp mod 64).

(** [Buffer.from (s)], which is [Buffer.from (s, 'utf8')]. *)
Definition Buffer_from (s : list N) : string :=
  fold_right (fun cp bytes => utf8 cp ++ bytes) EmptyString (code_points s).

(** A string of 16-bit code units in which no surrogate stands on its own:
    what a decoder of UTF-8, such as [fs.readFileSync (_, 'utf-8')], gives. *)
Fixpoint well_formed (l : list N) : bool :=
  match l with
  | [] => true
  | h :: r =>
      if is_high_surrogate h then
        match r with
        | lo :: r' => is_low_surrogate lo && well_formed r'
        | [] => false
        end
      else negb (is_low_surrogate h) && (h <? 65536)%N && well_formed r
  end.

(** The code units of a code point. *)
Definition units_of (cp : N) : list N :=
  if (cp <? 65536)%N then [cp]
  else [(55296 + (cp - 65536) / 1024)%N; (56320 + (cp - 65536) mod 1024)%N].

(** The code point at the start of UTF-8 bytes, and the bytes after it. *)
Definition utf8_first (s : string) : option (N * string) :=
  match s with
  | EmptyString => None
  | String b0 r0 =>
      let a := code b0 in
      if (a <? 128)%N then Some (a, r0)
      else
        match r0 with
        | EmptyString => None
        | String b1 r1 =>
            if (a <? 224)%N then
              Some (((a - 192) * 64 + (code b1 - 128))%N, r1)
            else
              match r1 with
              | EmptyString => None
              | String b2 r2 =>
                  if (a <? 240)%N then
                    Some (((a - 224) * 4096 + (code b1 - 128) * 64
                           + (code b2 - 128))%N, r2)
                  else
                    match r2 with
                    | EmptyString => None
                    | String b3 r3 =>
                        Some (((a - 240) * 262144 + (code b1 - 128) * 4096
                               + (code b2 - 128) * 64 + (code b3 - 128))%N, r3)
                    end
              end
        end
  end.

(** ** The page over time *)

(** What happens in the page after its script has run: the player fires
    [ended] at a time, or the event loop runs at a time. *)
Inductive page_event : Type :=
| PlayerEnded (t : N)
| Tick (t : N).

Definition page_step (w : Window) (e : page_event) : Window :=
  match e with
  | PlayerEnded t => fire_ended t w
  | Tick t => run_timers t w
  end.

Definition run_page (l : list page_event) (w : Window) : Window :=
  fold_left page_step l w.

(** Some [ended] event of [l] is followed by a run of the event loop at
    least 1000 ms after it. *)
Definition ended_then_tick (l : list page_event) : Prop :=
  exists l1 t l2 t',
    l = (l1 ++ PlayerEnded t :: l2)%list /\ In (Tick t') l2 /\ (t + 1000 <= t')%N.

(** The browser's answers about a page in state [w] that no longer
    changes: [page.waitForFunction] resolves when the condition of the
    readiness wait holds of [w] and rejects at its timeout otherwise, and
    [page.evaluate] reads the error flag of [w]; the other answers are those
    of [base]. *)
Definition page_env (w : Window) (base : Env) : Env :=
  {| path_resolve := path_resolve base;
     path_dirname := path_dirname base;
     path_join := path_join base;
     url_pathname := url_pathname base;
     import_meta_resolve := import_meta_resolve base;
     fs_existsSync := fs_existsSync base;
     fs_readFileSync := fs_readFileSync base;
     puppeteer_launch := puppeteer_launch base;
     browser_newPage := browser_newPage base;
     page_setViewport := page_setViewport base;
     page_setContent := page_setContent base;
     wait_playerReady :=
       if ready_flag w then Resolved tt
       else Rejected "Waiting failed: 15000ms exceeded";
     eval_playerError := Resolved (w_playerError w);
     import_ffmpeg := import_ffmpeg base;
     recorder_start := recorder_start base;
     eval_play := eval_play base;
     wait_playerEnded := wait_playerEnded base;
     recorder_stop := recorder_stop base;
     browser_close := browser_close base;
     interrupt := interrupt base |}.

(** The sample environment of a scenario, with other answers to
    [page.setContent] and [browser.close]. *)
Definition mock_env_with (setContent close : reply unit) (sc : Scenario) : Env :=
  {| path_resolve := path_resolve (mock_env sc);
     path_dirname := path_dirname (mock_env sc);
     path_join := path_join (mock_env sc);
     url_pathname := url_pathname (mock_env sc);
     import_meta_resolve := import_meta_resolve (mock_env sc);
     fs_existsSync := fs_existsSync (mock_env sc);
     fs_readFileSync := fs_readFileSync (mock_env sc);
     puppeteer_launch := puppeteer_launch (mock_env sc);
     browser_newPage := browser_newPage (mock_env sc);
     page_setViewport := page_setViewport (mock_env sc);
     page_setContent := setContent;
     wait_playerReady := wait_playerReady (mock_env sc);
     eval_playerError := eval_playerError (mock_env sc);
     import_ffmpeg := import_ffmpeg (mock_env sc);
     recorder_start := recorder_start (mock_env sc);
     eval_play := eval_play (mock_env sc);
     wait_playerEnded := wait_playerEnded (mock_env sc);
     recorder_stop := recorder_stop (mock_env sc);
     browser_close := close;
     interrupt := interrupt (mock_env sc) |}.

(** An environment in which the page cannot be loaded. *)
Definition unloadable_env : Env :=
  mock_env_with (Rejected "Navigation failed") (Resolved tt) happy.

(** An environment in which everything succeeds but the close of the
    browser. *)
Definition unclosable_env : Env :=
  mock_env_with (Resolved tt) (Rejected "Protocol error") happy.

(** The input file does not exist. *)
Definition missing_input : Scenario :=
  mkScenario false (Resolved tt) (Resolved tt) (Resolved Undefined)
    (Resolved tt) None.

(** ** The command *)

(** [process.exit (code)]. *)
Definition process_exit {A : Type} (code : Z) : M A :=
  fun st =>
    (Exited code, mkState (log st ++ [EProcessExit code]) (listeners st) (awaits st)).

(** The action [createProgram] gives the command (lines 428-435): it runs
    the conversion, and on an error logs its message and exits with
    status 1. *)
Definition createProgram_action (env : Env) (inputPath : string)
    (options : ConvertOptions) : M unit :=
  try_catch (convertCastToVideo env inputPath options)
    (fun message => emit (EConsola error [message]) ;; process_exit 1).

(** ** More specifications of asynchronous code *)

(** Code that ends, if it ends, by returning or throwing. *)
Definition settles {A : Type} (m : M A) : Prop :=
  forall st,
    match fst (m st) with
    | Exited _ | Killed _ => False
    | _ => True
    end.

(** Code that exits the process, if it does, with status 1. *)
Definition exits_one {A : Type} (m : M A) : Prop :=
  forall st c, fst (m st) = Exited c -> c = 1%Z.

(** What the options of a run make of the arguments of its calls. *)
Definition call_shape (env : Env) (options : ConvertOptions) (e : event) : Prop :=
  match e with
  | ELaunch headless args =>
      headless = true /\ args = ["--no-sandbox"; "--disable-setuid-sandbox"]
  | ESetViewport w h s =>
      w = width (parseOptions options) /\ h = height (parseOptions options)
      /\ s = scale (parseOptions options)
  | ESetContent html waitUntil =>
      waitUntil = "domcontentloaded"
      /\ exists playerAssets castContent,
           html = generateHtml playerAssets (createCastDataUri castContent)
                    (parseOptions options)
  | ERecorderNew o =>
      fps o = 60%N /\ followNewTab o = false
      /\ videoFrame o
         = (width (parseOptions options), height (parseOptions options))
  | ERecorderStart path => path = path_resolve env (co_output options)
  | EProcessExit c => c = 1%Z
  | _ => True
  end.

(** What is asked of the listeners: when the run has returned or thrown,
    none is registered. *)
Definition released (r : outcome unit * state) : Prop :=
  (fst r = Returned tt \/ exists msg, fst r = Thrown msg) ->
  listeners (snd r) = [].

(** * Properties *)

(** ** Characters and digit runs *)

Ltac case_N :=
  match goal with
  | |- context [(?a <=? ?b)%N] => destruct (N.leb_spec a b)
  | |- context [(?a <? ?b)%N] => destruct (N.ltb_spec a b)
  | |- context [(?a =? ?b)%N] => destruct (N.eqb_spec a b)
  | H : context [(?a <=? ?b)%N] |- _ => destruct (N.leb_spec a b)
  | H : context [(?a <? ?b)%N] |- _ => destruct (N.ltb_spec a b)
  | H : context [(?a =? ?b)%N] |- _ => destruct (N.eqb_spec a b)
  end.

Ltac cases_N :=
  repeat (case_N; cbn [andb orb negb] in *; cbv beta iota zeta in *);
  try discriminate; try reflexivity; try lia.

Lemma is_digit_range (c : ascii) :
  is_digit c = true <-> (48 <= code c <= 57)%N.
Proof.
  unfold is_digit. rewrite andb_true_iff, !N.leb_le. tauto.
Qed.

Lemma radix_digit_10 (c : ascii) :
  radix_digit 10 c = if is_digit c then Some (digit_value c) else None.
Proof.
  unfold radix_digit, is_digit, digit_value. cases_N.
Qed.

Lemma read_digits_none (acc : N) (s : string) :
  starts_with_digit s = false -> read_digits 10 acc s = (acc, O, s).
Proof.
  destruct s as [|c r]; simpl; [reflexivity|].
  intros H. rewrite radix_digit_10, H. reflexivity.
Qed.

Lemma read_digits_some (acc : N) (s : string) :
  starts_with_digit s = true ->
  exists v k r, read_digits 10 acc s = (v, S k, r).
Proof.
  destruct s as [|c r]; simpl; [discriminate|].
  intros H. rewrite radix_digit_10, H.
  destruct (read_digits 10 (acc * 10 + digit_value c) r) as [[v k] r'].
  now exists v, k, r'.
Qed.

Lemma read_digits_run (d rest : string) :
  all_digits d = true -> starts_with_digit rest = false ->
  forall acc,
    read_digits 10 acc (d ++ rest)
    = ((acc * 10 ^ N.of_nat (String.length d) + decimal_value d)%N,
       String.length d, rest).
Proof.
  intros Hd Hrest. induction d as [|c d IH]; intros acc.
  - simpl. rewrite read_digits_none by assumption.
    f_equal. f_equal. lia.
  - simpl in Hd. apply andb_true_iff in Hd as [Hc Hd].
    cbn [append read_digits]. rewrite radix_digit_10, Hc, (IH Hd).
    f_equal. f_equal. cbn [String.length decimal_value].
    rewrite Nat2N.inj_succ, N.pow_succ_r'. lia.
Qed.

Lemma append_empty_r (s : string) : s ++ EmptyString = s.
Proof. induction s as [|c s IH]; simpl; congruence. Qed.

Lemma all_digits_app (a b : string) :
  all_digits (a ++ b) = all_digits a && all_digits b.
Proof.
  induction a as [|c a IH]; simpl; [reflexivity|].
  now rewrite IH, andb_assoc.
Qed.

Lemma string_length_app (a b : string) :
  String.length (a ++ b) = String.length a + String.length b.
Proof.
  induction a as [|c a IH]; simpl; [reflexivity|]. now rewrite IH.
Qed.

Lemma decimal_value_app (a b : string) :
  decimal_value (a ++ b)
  = (decimal_value a * 10 ^ N.of_nat (String.length b) + decimal_value b)%N.
Proof.
  induction a as [|c a IH]; simpl; [lia|].
  rewrite IH, string_length_app, Nat2N.inj_add, N.pow_add_r. lia.
Qed.

(** ** Leading white space *)

Lemma trimStart_ascii (c : ascii) (r : string) :
  is_space1 c = false -> (code c < 128)%N ->
  trimStart (String c r) = String c r.
Proof.
  intros H1 Hc. cbn [trimStart]. rewrite H1.
  destruct r as [|c2 r2]; [reflexivity|].
  replace (is_space2 c c2) with false
    by (unfold is_space2; cases_N).
  destruct r2 as [|c3 r3]; [reflexivity|].
  replace (is_space3 c c2 c3) with false
    by (unfold is_space3; cases_N).
  reflexivity.
Qed.

Lemma trimStart_space1 (c : ascii) (r : string) :
  is_space1 c = true -> trimStart (String c r) = trimStart r.
Proof. intros H. cbn [trimStart]. now rewrite H. Qed.

Lemma space2_not_space1 (c1 c2 : ascii) :
  is_space2 c1 c2 = true -> is_space1 c1 = false.
Proof. unfold is_space2, is_space1. cases_N. Qed.

Lemma space3_not_space1 (c1 c2 c3 : ascii) :
  is_space3 c1 c2 c3 = true -> is_space1 c1 = false.
Proof. unfold is_space3, is_space1. cases_N. Qed.

Lemma space3_not_space2 (c1 c2 c3 : ascii) :
  is_space3 c1 c2 c3 = true -> is_space2 c1 c2 = false.
Proof. unfold is_space3, is_space2. cases_N. Qed.

Lemma trimStart_space2 (c1 c2 : ascii) (r : string) :
  is_space2 c1 c2 = true -> trimStart (String c1 (String c2 r)) = trimStart r.
Proof.
  intros H. cbn [trimStart].
  now rewrite (space2_not_space1 _ _ H), H.
Qed.

Lemma trimStart_space3 (c1 c2 c3 : ascii) (r : string) :
  is_space3 c1 c2 c3 = true ->
  trimStart (String c1 (String c2 (String c3 r))) = trimStart r.
Proof.
  intros H. cbn [trimStart].
  now rewrite (space3_not_space1 _ _ _ H), (space3_not_space2 _ _ _ H), H.
Qed.

(** Induction along [trimStart]: a property of the strings [trimStart]
    leaves alone that is kept when a white-space character is put in
    front holds of every string. *)
Lemma trimStart_ind (Q : string -> Prop) :
  (forall s, trimStart s = s -> Q s) ->
  (forall c s, is_space1 c = true -> Q s -> Q (String c s)) ->
  (forall c1 c2 s, is_space2 c1 c2 = true -> Q s -> Q (String c1 (String c2 s))) ->
  (forall c1 c2 c3 s, is_space3 c1 c2 c3 = true -> Q s ->
                      Q (String c1 (String c2 (String c3 s)))) ->
  forall s, Q s.
Proof.
  intros Hfix H1 H2 H3 s.
  remember (String.length s) as n eqn:Hn.
  revert s Hn. induction n as [n IH] using lt_wf_ind. intros s Hn.
  destruct s as [|c1 r1]; [now apply Hfix|].
  destruct (is_space1 c1) eqn:E1.
  { apply H1; [assumption|]. eapply IH; [|reflexivity]. subst n. simpl. lia. }
  destruct r1 as [|c2 r2]; [apply Hfix; cbn [trimStart]; now rewrite E1|].
  destruct (is_space2 c1 c2) eqn:E2.
  { apply H2; [assumption|]. eapply IH; [|reflexivity]. subst n. simpl. lia. }
  destruct r2 as [|c3 r3];
    [apply Hfix; cbn [trimStart]; now rewrite E1, E2|].
  destruct (is_space3 c1 c2 c3) eqn:E3.
  { apply H3; [assumption|]. eapply IH; [|reflexivity]. subst n. simpl. lia. }
  apply Hfix. cbn [trimStart]. now rewrite E1, E2, E3.
Qed.

(** ** The white space of the language *)

Lemma ascii_of_its_code (c : ascii) (n : N) : code c = n -> c = ascii_of_N n.
Proof. intros <-. unfold code. now rewrite ascii_N_embedding. Qed.

(** [trimStart] skips each white-space character of the language. *)
Lemma white_space_trim (w s : string) :
  In w white_space -> trimStart (w ++ s) = trimStart s.
Proof.
  unfold white_space. cbn [map In]. intros H.
  repeat (destruct H as [<-|H]; [reflexivity|]). contradiction.
Qed.

Ltac in_white_space :=
  solve [unfold white_space; cbn [map In];
         repeat first [left; reflexivity | right]].

Ltac code_known :=
  repeat match goal with
         | H : code ?c = _ |- _ => apply ascii_of_its_code in H; subst c
         end.

Lemma space1_white (c : ascii) :
  is_space1 c = true -> In (String c EmptyString) white_space.
Proof.
  unfold is_space1.
  rewrite orb_true_iff, andb_true_iff, N.eqb_eq, !N.leb_le. intros [[H1 H2]|H].
  - assert (Hc : (code c = 9 \/ code c = 10 \/ code c = 11 \/ code c = 12
                  \/ code c = 13)%N) by lia.
    destruct Hc as [Hc|[Hc|[Hc|[Hc|Hc]]]]; code_known; in_white_space.
  - code_known. in_white_space.
Qed.

Lemma space2_white (c1 c2 : ascii) :
  is_space2 c1 c2 = true ->
  In (String c1 (String c2 EmptyString)) white_space.
Proof.
  unfold is_space2. rewrite andb_true_iff, !N.eqb_eq. intros [H1 H2].
  code_known. in_white_space.
Qed.

Lemma space3_white (c1 c2 c3 : ascii) :
  is_space3 c1 c2 c3 = true ->
  In (String c1 (String c2 (String c3 EmptyString))) white_space.
Proof.
  unfold is_space3.
  rewrite !orb_true_iff, !andb_true_iff, !orb_true_iff, !andb_true_iff,
    !N.eqb_eq, !N.leb_le.
  intros [[[[[[H1 H2] H3]|[[H1 H2] H3]]|[[H1 H2] H3]]|[[H1 H2] H3]]
         |[[H1 H2] H3]];
    try (code_known; in_white_space).
  destruct H3 as [[[[H3 H4]|H3]|H3]|H3]; try (code_known; in_white_space).
  assert (Hc : (code c3 = 128 \/ code c3 = 129 \/ code c3 = 130
                \/ code c3 = 131 \/ code c3 = 132 \/ code c3 = 133
                \/ code c3 = 134 \/ code c3 = 135 \/ code c3 = 136
                \/ code c3 = 137 \/ code c3 = 138)%N) by lia.
  clear H3 H4.
  destruct Hc as [Hc|[Hc|[Hc|[Hc|[Hc|[Hc|[Hc|[Hc|[Hc|[Hc|Hc]]]]]]]]]];
    code_known; in_white_space.
Qed.

(** What [trimStart] skips is white space of the language, and nothing
    else. *)
Lemma after_white_space_trimStart (s : string) :
  after_white_space s (trimStart s).
Proof.
  pattern s. apply trimStart_ind; clear s.
  - intros s ->. constructor.
  - intros c s Hc IH. rewrite trimStart_space1 by assumption.
    apply (aws_skip (String c EmptyString) s); [now apply space1_white|exact IH].
  - intros c1 c2 s Hc IH. rewrite trimStart_space2 by assumption.
    apply (aws_skip (String c1 (String c2 EmptyString)) s);
      [now apply space2_white|exact IH].
  - intros c1 c2 c3 s Hc IH. rewrite trimStart_space3 by assumption.
    apply (aws_skip (String c1 (String c2 (String c3 EmptyString))) s);
      [now apply space3_white|exact IH].
Qed.

Lemma trimStart_after_white_space (raw body : string) :
  after_white_space raw body -> trimStart raw = trimStart body.
Proof.
  induction 1 as [s|w s body Hw _ IH]; [reflexivity|].
  now rewrite white_space_trim.
Qed.

(** ** Signs *)

Lemma starts_decimal_first (s : string) :
  starts_decimal s = true ->
  exists c r, s = String c r
              /\ (code c = 73 \/ (48 <= code c <= 57) \/ code c = 46)%N.
Proof.
  destruct s as [|c r]; [discriminate|]. intros H.
  exists c, r. split; [reflexivity|].
  unfold starts_decimal in H. apply orb_true_iff in H as [H|H].
  - apply orb_true_iff in H as [H|H].
    + left. cbn [starts_with] in H. apply andb_true_iff in H as [H _].
      apply Ascii.eqb_eq in H. now subst c.
    + right; left. now apply is_digit_range.
  - right; right. apply andb_true_iff in H as [H _]. now apply N.eqb_eq.
Qed.

Lemma trimStart_decimal (s : string) :
  starts_decimal s = true -> trimStart s = s.
Proof.
  intros H. destruct (starts_decimal_first s H) as (c & r & -> & Hc).
  apply trimStart_ascii; unfold is_space1; cases_N.
Qed.

Lemma strip_sign_decimal (s : string) :
  starts_decimal s = true -> strip_sign s = (false, s).
Proof.
  intros H. destruct (starts_decimal_first s H) as (c & r & -> & Hc).
  unfold strip_sign. cases_N.
Qed.

Lemma digit_starts_decimal (s : string) :
  starts_with_digit s = true -> starts_decimal s = true.
Proof. intros H. unfold starts_decimal. rewrite H. now rewrite orb_true_r. Qed.

Lemma run_starts_with_digit (d rest : string) :
  d <> EmptyString -> all_digits d = true ->
  starts_with_digit (d ++ rest) = true.
Proof.
  destruct d as [|c d']; [congruence|]. simpl. intros _ H.
  now apply andb_true_iff in H as [Hc _].
Qed.

(** A sign, if there is one, is what [strip_sign] reads, and white space
    does not start with it. *)
Lemma signed_strip (s body : string) (neg : bool) :
  signed s body neg -> starts_decimal s = true ->
  trimStart body = body /\ strip_sign body = (neg, s).
Proof.
  intros [| |] H.
  - split; [now apply trimStart_decimal|now apply strip_sign_decimal].
  - split; [|reflexivity].
    apply trimStart_ascii; vm_compute; reflexivity.
  - split; [|reflexivity].
    apply trimStart_ascii; vm_compute; reflexivity.
Qed.

(** What [strip_sign] reads in front of the start of a numeral is an
    optional sign. *)
Lemma strip_sign_signed (body : string) :
  starts_decimal (snd (strip_sign body)) = true ->
  signed (snd (strip_sign body)) body (fst (strip_sign body)).
Proof.
  destruct body as [|c r]; [discriminate|]. cbn [strip_sign].
  destruct (N.eqb_spec (code c) 45) as [E|_].
  { apply ascii_of_its_code in E. subst c. intros _. apply signed_minus. }
  destruct (N.eqb_spec (code c) 43) as [E|_].
  { apply ascii_of_its_code in E. subst c. intros _. apply signed_plus. }
  intros _. apply signed_none.
Qed.

Lemma leading_trim (start : string -> bool) (raw : string) :
  (forall s, start s = true -> starts_decimal s = true) ->
  (exists body s neg,
      after_white_space raw body /\ signed s body neg /\ start s = true)
  <-> start (snd (strip_sign (trimStart raw))) = true.
Proof.
  intros Hstart. split.
  - intros (body & s & neg & Hw & Hs & H).
    rewrite (trimStart_after_white_space raw body Hw).
    destruct (signed_strip s body neg Hs (Hstart s H)) as [-> ->]. exact H.
  - intros H.
    exists (trimStart raw), (snd (strip_sign (trimStart raw))),
      (fst (strip_sign (trimStart raw))).
    split; [apply after_white_space_trimStart|].
    split; [apply strip_sign_signed, Hstart, H|exact H].
Qed.

Lemma leading_integer_trim (s : string) :
  leading_integer s <-> integer_start (trimStart s) = true.
Proof. apply (leading_trim starts_with_digit), digit_starts_decimal. Qed.

Lemma leading_float_trim (s : string) :
  leading_float s <-> float_start (trimStart s) = true.
Proof. now apply (leading_trim starts_decimal). Qed.

(** ** Binary64 *)

Lemma magnitude_eqb_eq (x y : magnitude) : magnitude_eqb x y = true -> x = y.
Proof.
  destruct x as [|q e|], y as [|q' e'|]; simpl; try discriminate; try reflexivity.
  intros H. apply andb_true_iff in H as [H1 H2].
  apply N.eqb_eq in H1. apply Z.eqb_eq in H2. now subst.
Qed.

Lemma magnitude_eqb_refl (x : magnitude) : magnitude_eqb x x = true.
Proof.
  destruct x as [|q e|]; simpl; try reflexivity.
  now rewrite N.eqb_refl, Z.eqb_refl.
Qed.

Lemma round_half_even_1 (a : N) : round_half_even a 1 = a.
Proof.
  unfold round_half_even. rewrite N.mod_1_r, N.div_1_r. reflexivity.
Qed.

Lemma ratio_log2_1 (a : N) : (0 < a)%N -> ratio_log2 a 1 = Z.of_N (N.log2 a).
Proof.
  intros Ha. unfold ratio_log2, scale_by.
  change (N.log2 1) with 0%N. rewrite Z.sub_0_r.
  destruct (Z.leb_spec 0 (Z.of_N (N.log2 a))) as [_|H]; [|lia].
  rewrite N2Z.id, N.mul_1_l.
  destruct (N.leb_spec (2 ^ N.log2 a) a) as [_|H]; [reflexivity|].
  pose proof (N.log2_spec a Ha). lia.
Qed.

Lemma log2_small (v : N) : (0 < v < 2 ^ 53)%N -> (N.log2 v <= 52)%N.
Proof.
  intros [H0 H1]. pose proof (N.log2_spec v H0) as [L1 _].
  destruct (N.le_gt_cases (N.log2 v) 52) as [H|H]; [exact H|].
  assert (2 ^ 53 <= 2 ^ N.log2 v)%N by (apply N.pow_le_mono_r; lia). lia.
Qed.

(** An integer below [2 ^ 53] is a binary64 value. *)
Lemma nearest_small (v : N) :
  (0 < v < 2 ^ 53)%N ->
  nearest v 1
  = Finite (v * 2 ^ (52 - N.log2 v)) (Z.of_N (N.log2 v) - 52).
Proof.
  intros [H0 H1]. unfold nearest.
  destruct (N.eqb_spec v 0) as [->|_]; [lia|].
  rewrite (ratio_log2_1 v H0).
  pose proof (N.log2_spec v H0) as [L1 L2].
  pose proof (log2_small v (conj H0 H1)) as HL.
  rewrite Z.max_l by lia.
  assert (Hq : (2 ^ 52 <= v * 2 ^ (52 - N.log2 v) < 2 ^ 53)%N).
  { replace (2 ^ 52)%N with (2 ^ N.log2 v * 2 ^ (52 - N.log2 v))%N
      by (rewrite <- N.pow_add_r; f_equal; lia).
    replace (2 ^ 53)%N with (2 ^ N.succ (N.log2 v) * 2 ^ (52 - N.log2 v))%N
      by (rewrite <- N.pow_add_r; f_equal; lia).
    assert (0 < 2 ^ (52 - N.log2 v))%N by (apply N.neq_0_lt_0, N.pow_nonzero; lia).
    split; [apply N.mul_le_mono_r; lia|apply N.mul_lt_mono_pos_r; lia]. }
  assert (Hs : scale_by 2 v 1 (Z.of_N (N.log2 v) - 52)
               = ((v * 2 ^ (52 - N.log2 v))%N, 1%N)).
  { unfold scale_by. destruct (Z.leb_spec 0 (Z.of_N (N.log2 v) - 52)) as [H|H].
    - assert (E : N.log2 v = 52%N) by lia. rewrite E. cbn. f_equal. lia.
    - f_equal. f_equal. f_equal. lia. }
  rewrite Hs, round_half_even_1.
  destruct (N.eqb_spec (v * 2 ^ (52 - N.log2 v)) 0) as [E|_]; [lia|].
  destruct (N.eqb_spec (v * 2 ^ (52 - N.log2 v)) (2 ^ 53)) as [E|_]; [lia|].
  destruct (Z.ltb_spec 971 (Z.of_N (N.log2 v) - 52)) as [H|_]; [lia|].
  reflexivity.
Qed.

(** The binary64 value of an integer from [2 ^ 53] on has a positive
    exponent. *)
Lemma nearest_large (c : N) (q : N) (e2 : Z) :
  (2 ^ 53 <= c)%N -> nearest c 1 = Finite q e2 -> (0 < e2)%Z.
Proof.
  intros Hc. unfold nearest.
  assert (H0 : (0 < c)%N).
  { assert (0 < 2 ^ 53)%N by (apply N.neq_0_lt_0, N.pow_nonzero; lia). lia. }
  destruct (N.eqb_spec c 0) as [->|_]; [lia|].
  rewrite (ratio_log2_1 c H0).
  assert (HL : (53 <= N.log2 c)%N)
    by (change 53%N with (N.log2 (2 ^ 53)); now apply N.log2_le_mono).
  rewrite Z.max_l by lia.
  destruct (scale_by 2 c 1 (Z.of_N (N.log2 c) - 52)) as [x y].
  destruct (round_half_even x y =? 0)%N; [discriminate|].
  destruct (round_half_even x y =? 2 ^ 53)%N.
  - destruct (971 <? Z.of_N (N.log2 c) - 52 + 1)%Z; [discriminate|].
    intros H. injection H as _ <-. lia.
  - destruct (971 <? Z.of_N (N.log2 c) - 52)%Z; [discriminate|].
    intros H. injection H as _ <-. lia.
Qed.

(** Only the integer itself reads back as an integer below [2 ^ 53]. *)
Lemma nearest_integer_eq (c v : N) :
  (0 < v < 2 ^ 53)%N -> nearest c 1 = nearest v 1 -> c = v.
Proof.
  intros Hv. rewrite (nearest_small v Hv). intros H.
  destruct (N.lt_ge_cases c (2 ^ 53)) as [Hc|Hc].
  - destruct (N.eq_dec c 0) as [->|Hc0]; [discriminate H|].
    rewrite nearest_small in H by lia.
    injection H as H1 H2.
    assert (E : N.log2 c = N.log2 v) by lia.
    rewrite E in H1. apply N.mul_cancel_r in H1; [exact H1|].
    apply N.pow_nonzero. lia.
  - apply (nearest_large c _ _ Hc) in H. pose proof (log2_small v Hv). lia.
Qed.

Lemma nearest_decimal_integer (s : N) (z : Z) :
  (0 <= z)%Z -> nearest_decimal s z = nearest (s * 10 ^ Z.to_N z) 1.
Proof.
  intros Hz. unfold nearest_decimal, scale_by.
  destruct (Z.leb_spec 0 (- z)) as [H|H].
  - assert (z = 0%Z) by lia. subst z. cbn. now rewrite N.mul_1_r.
  - f_equal. f_equal. f_equal. lia.
Qed.

(** What [candidate] gives reads back as [x]. *)
Lemma candidate_reads_back (x : magnitude) (a b : N) (z : Z) (s : N) :
  candidate x a b z = Some s -> nearest_decimal s z = x.
Proof.
  unfold candidate. destruct (scale_by 10 a b z) as [p r].
  destruct (magnitude_eqb (nearest_decimal (p / r) z) x) eqn:E1;
    destruct (magnitude_eqb (nearest_decimal (p / r + 1) z) x) eqn:E2;
    try discriminate.
  - destruct (2 * (p mod r) ?= r)%N; [destruct (N.even (p / r))|..];
      intros H; injection H as <-; now apply magnitude_eqb_eq.
  - intros H; injection H as <-; now apply magnitude_eqb_eq.
  - intros H; injection H as <-; now apply magnitude_eqb_eq.
Qed.

(** The search stops at the first exponent that has a candidate. *)
Lemma shortest_found (x : magnitude) (a b : N) (last : N * Z) (fuel : nat) :
  forall z,
    (0 <= z < Z.of_nat fuel)%Z ->
    candidate x a b 0 <> None ->
    exists s z',
      shortest fuel x a b z last = (s, z')
      /\ (0 <= z')%Z /\ candidate x a b z' = Some s.
Proof.
  induction fuel as [|fuel IH]; intros z Hz H0; [lia|].
  cbn [shortest]. destruct (candidate x a b z) as [s|] eqn:E.
  - exists s, z. repeat split; [lia|exact E].
  - destruct (Z.eq_dec z 0) as [->|Hne]; [congruence|].
    apply IH; [lia|exact H0].
Qed.

Lemma decimal_bound_small (v k : N) :
  (0 < v < 2 ^ 53)%N ->
  (0 <= decimal_bound (v * 2 ^ k) (2 ^ k) < 24)%Z.
Proof.
  intros [H0 H1]. unfold decimal_bound.
  assert (HL : ratio_log2 (v * 2 ^ k) (2 ^ k) = Z.of_N (N.log2 v)).
  { unfold ratio_log2.
    rewrite N.log2_mul_pow2, N.log2_pow2 by lia.
    replace (Z.of_N (k + N.log2 v) - Z.of_N k)%Z with (Z.of_N (N.log2 v)) by lia.
    unfold scale_by. destruct (Z.leb_spec 0 (Z.of_N (N.log2 v))) as [_|H]; [|lia].
    rewrite N2Z.id.
    pose proof (N.log2_spec v H0) as [L1 _].
    destruct (N.leb_spec (2 ^ k * 2 ^ N.log2 v) (v * 2 ^ k)) as [_|H];
      [reflexivity|].
    assert (2 ^ k * 2 ^ N.log2 v <= v * 2 ^ k)%N
      by (rewrite N.mul_comm; apply N.mul_le_mono_r; exact L1).
    lia. }
  rewrite HL.
  pose proof (log2_small v (conj H0 H1)).
  split.
  - assert (0 <= (Z.of_N (N.log2 v) + 1) * 30103 / 100000)%Z
      by (apply Z.div_pos; lia). lia.
  - assert ((Z.of_N (N.log2 v) + 1) * 30103 / 100000 < 22)%Z
      by (apply Z.div_lt_upper_bound; lia). lia.
Qed.

(** An integer below [2 ^ 53] is a Number value, written with its own
    digits. *)
Lemma binary64_integer (neg : bool) (v : N) :
  (v < 2 ^ 53)%N -> binary64 neg v 0 = Dec neg v 0.
Proof.
  intros Hv. unfold binary64.
  rewrite nearest_decimal_integer by lia. cbn [Z.to_N].
  rewrite N.pow_0_r, N.mul_1_r.
  destruct (N.eq_dec v 0) as [->|Hne]; [reflexivity|].
  assert (Hv' : (0 < v < 2 ^ 53)%N) by lia.
  rewrite (nearest_small v Hv').
  set (k := (52 - N.log2 v)%N).
  set (x := Finite (v * 2 ^ k) (Z.of_N (N.log2 v) - 52)).
  pose proof (log2_small v Hv') as HL.
  assert (Hs : scale_by 2 (v * 2 ^ k) 1 (- (Z.of_N (N.log2 v) - 52))
               = ((v * 2 ^ k)%N, (2 ^ k)%N)).
  { unfold scale_by.
    destruct (Z.leb_spec 0 (- (Z.of_N (N.log2 v) - 52))) as [_|H]; [|lia].
    f_equal. rewrite N.mul_1_l. f_equal. unfold k. lia. }
  rewrite Hs.
  assert (Hpos : (0 < 2 ^ k)%N) by (apply N.neq_0_lt_0, N.pow_nonzero; lia).
  assert (H0 : candidate x (v * 2 ^ k) (2 ^ k) 0 <> None).
  { unfold candidate, scale_by. change (0 <=? 0)%Z with true. cbv iota.
    change (Z.to_N 0) with 0%N. rewrite N.pow_0_r, N.mul_1_r.
    rewrite N.div_mul by lia.
    replace (nearest_decimal v 0) with x.
    - rewrite magnitude_eqb_refl.
      rewrite N.Div0.mod_mul. cbn [N.mul].
      destruct (magnitude_eqb (nearest_decimal (v + 1) 0) x).
      + destruct (N.compare_spec 0 (2 ^ k)); try lia; discriminate.
      + discriminate.
    - rewrite nearest_decimal_integer by lia. cbn [Z.to_N].
      rewrite N.pow_0_r, N.mul_1_r. symmetry. apply (nearest_small v Hv'). }
  destruct (shortest_found x (v * 2 ^ k) (2 ^ k)
              ((v * 2 ^ k * 5 ^ N.log2 (2 ^ k))%N, (- Z.of_N (N.log2 (2 ^ k)))%Z)
              24 (decimal_bound (v * 2 ^ k) (2 ^ k)))
    as (s & z & -> & Hz & Hc); [apply (decimal_bound_small v k Hv')|exact H0|].
  apply candidate_reads_back in Hc.
  rewrite nearest_decimal_integer in Hc by exact Hz.
  unfold x, k in Hc. rewrite <- (nearest_small v Hv') in Hc.
  apply nearest_integer_eq in Hc; [|exact Hv'].
  destruct (Z.leb_spec 0 z) as [_|H]; [|lia]. now rewrite Hc.
Qed.

Lemma binary64_not_NaN (neg : bool) (m : N) (e : Z) : binary64 neg m e <> NaN.
Proof.
  unfold binary64. destruct (nearest_decimal m e) as [|q e2|]; try discriminate.
  destruct (scale_by 2 q 1 (- e2)) as [a b].
  destruct (shortest _ _ _ _ _ _) as [s z].
  destruct (0 <=? z)%Z; discriminate.
Qed.

Lemma isNaN_binary64 (neg : bool) (m : N) (e : Z) : isNaN (binary64 neg m e) = false.
Proof.
  pose proof (binary64_not_NaN neg m e) as H.
  destruct (binary64 neg m e); [congruence|reflexivity..].
Qed.

(** ** [parseInt] in radix ten *)

(** In radix ten no prefix is dropped: the sign is read, then the digits. *)
Lemma parseInt_10 (s : string) :
  parseInt s 10 =
  let '(neg, s1) := strip_sign (trimStart s) in
  let '(v, k, _) := read_digits 10 0 s1 in
  match k with
  | O => NaN
  | S _ => binary64 neg v 0
  end.
Proof.
  unfold parseInt. destruct (strip_sign (trimStart s)) as [neg s1].
  reflexivity.
Qed.

(** After white space and an optional sign, a run of digits is read as its
    value, whatever follows it. *)
Lemma parseInt_run (raw body d rest : string) (neg : bool) :
  after_white_space raw body -> signed (d ++ rest) body neg ->
  d <> EmptyString -> all_digits d = true -> starts_with_digit rest = false ->
  parseInt raw 10 = binary64 neg (decimal_value d) 0.
Proof.
  intros Hw Hs Hne Hd Hrest.
  pose proof (run_starts_with_digit d rest Hne Hd) as Hstart.
  destruct (signed_strip _ _ _ Hs (digit_starts_decimal _ Hstart)) as [E1 E2].
  rewrite parseInt_10, (trimStart_after_white_space raw body Hw), E1, E2.
  rewrite (read_digits_run d rest Hd Hrest).
  destruct d as [|c d']; [congruence|]. reflexivity.
Qed.

Lemma parseInt_isNaN (s : string) :
  isNaN (parseInt s 10) = negb (integer_start (trimStart s)).
Proof.
  rewrite parseInt_10. unfold integer_start.
  destruct (strip_sign (trimStart s)) as [neg s1]. cbn [snd].
  destruct (starts_with_digit s1) eqn:E.
  - destruct (read_digits_some 0 s1 E) as (v & k & r & ->).
    apply isNaN_binary64.
  - now rewrite (read_digits_none 0 s1 E).
Qed.

(** [parseInt] gives [NaN] exactly on the strings without a leading
    integer. *)
Lemma parseInt_NaN_iff (s : string) :
  isNaN (parseInt s 10) = true <-> ~ leading_integer s.
Proof.
  rewrite parseInt_isNaN, leading_integer_trim, negb_true_iff.
  destruct (integer_start (trimStart s)); split; congruence.
Qed.

(** ** [parseFloat] *)

Lemma digit_not_Infinity (s : string) :
  starts_with_digit s = true -> starts_with "Infinity" s = false.
Proof.
  destruct s as [|c r]; [discriminate|]. simpl starts_with_digit.
  rewrite is_digit_range. intros H. cbn [starts_with].
  destruct (Ascii.eqb_spec "I"%char c) as [<-|]; [|reflexivity].
  change (code "I") with 73%N in H. lia.
Qed.

Lemma read_exponent_none (s : string) :
  starts_with_exponent s = false -> read_exponent s = None.
Proof.
  destruct s as [|c r]; [reflexivity|]. simpl. now intros ->.
Qed.

(** An exponent indicator, an optional sign and digits are read as an
    exponent. *)
Lemma read_exponent_some (c : ascii) (etext xd rest : string) (eneg : bool) :
  (code c = 101 \/ code c = 69)%N ->
  signed (xd ++ rest) etext eneg ->
  xd <> EmptyString -> all_digits xd = true -> starts_with_digit rest = false ->
  read_exponent (String c etext) = Some (exponent_value eneg xd, rest).
Proof.
  intros Hc Hs Hne Hd Hrest.
  pose proof (run_starts_with_digit xd rest Hne Hd) as Hstart.
  destruct (signed_strip _ _ _ Hs (digit_starts_decimal _ Hstart)) as [_ E].
  unfold read_exponent.
  replace ((code c =? 101) || (code c =? 69))%N with true
    by (destruct Hc as [-> | ->]; reflexivity).
  rewrite E, (read_digits_run xd rest Hd Hrest).
  destruct xd as [|x xd']; [congruence|]. cbn [String.length].
  unfold exponent_value. rewrite N.mul_0_l, N.add_0_l. reflexivity.
Qed.

Lemma read_decimal_isNaN (neg : bool) (s1 : string) :
  isNaN (read_decimal neg s1) = negb (starts_decimal s1).
Proof.
  unfold read_decimal, starts_decimal.
  destruct (starts_with "Infinity" s1); [reflexivity|]. cbn [orb].
  destruct (starts_with_digit s1) eqn:E1.
  - destruct (read_digits_some 0 s1 E1) as (v & k & r & ->). cbn [orb negb].
    destruct r as [|c r'].
    + destruct (read_exponent EmptyString) as [[x r3]|]; apply isNaN_binary64.
    + destruct (code c =? 46)%N.
      * destruct (read_digits 10 v r') as [[v' k'] r2].
        destruct k'; destruct (read_exponent _) as [[x r3]|];
          apply isNaN_binary64.
      * destruct (read_exponent _) as [[x r3]|]; apply isNaN_binary64.
  - rewrite (read_digits_none 0 s1 E1). cbn [orb].
    destruct s1 as [|c r]; [reflexivity|].
    destruct (code c =? 46)%N; [|reflexivity]. cbn [andb].
    destruct (starts_with_digit r) eqn:E2.
    + destruct (read_digits_some 0 r E2) as (v & k & r' & ->). cbn [negb].
      destruct (read_exponent r') as [[x r3]|]; apply isNaN_binary64.
    + now rewrite (read_digits_none 0 r E2).
Qed.

Lemma parseFloat_isNaN (s : string) :
  isNaN (parseFloat s) = negb (float_start (trimStart s)).
Proof.
  unfold parseFloat, float_start.
  destruct (strip_sign (trimStart s)) as [neg s1]. cbn [snd].
  apply read_decimal_isNaN.
Qed.

(** [parseFloat] gives [NaN] exactly on the strings without a leading
    decimal literal. *)
Lemma parseFloat_NaN_iff (s : string) :
  isNaN (parseFloat s) = true <-> ~ leading_float s.
Proof.
  rewrite parseFloat_isNaN, leading_float_trim, negb_true_iff.
  destruct (float_start (trimStart s)); split; congruence.
Qed.

(** After white space and an optional sign the literal is read. *)
Lemma parseFloat_body (raw body s : string) (neg : bool) :
  after_white_space raw body -> signed s body neg ->
  starts_decimal s = true ->
  parseFloat raw = read_decimal neg s.
Proof.
  intros Hw Hs Hstart.
  destruct (signed_strip _ _ _ Hs Hstart) as [E1 E2].
  unfold parseFloat.
  now rewrite (trimStart_after_white_space raw body Hw), E1, E2.
Qed.

(** What is not the start of an exponent part is not read as one. *)
Lemma read_exponent_not_part (s : string) :
  starts_exponent_part s = false -> read_exponent s = None.
Proof.
  destruct s as [|c r]; [reflexivity|]. cbn [starts_exponent_part read_exponent].
  destruct ((code c =? 101) || (code c =? 69))%N; [|reflexivity].
  cbn [andb]. intros H. apply orb_false_iff in H as [H1 H2].
  destruct r as [|c2 r2]; [reflexivity|]. cbn [strip_sign].
  destruct (code c2 =? 45)%N.
  { rewrite orb_true_r in H2. cbn [andb] in H2.
    now rewrite (read_digits_none 0 r2 H2). }
  destruct (code c2 =? 43)%N.
  { cbn [orb andb] in H2. now rewrite (read_digits_none 0 r2 H2). }
  now rewrite (read_digits_none 0 _ H1).
Qed.

Lemma exponent_not_part (s : string) :
  starts_with_exponent s = false -> starts_exponent_part s = false.
Proof.
  destruct s as [|c r]; [reflexivity|]. cbn. now intros ->.
Qed.

Lemma mantissa_starts_decimal (ip frac fp tail : string) :
  mantissa ip frac fp -> starts_decimal (ip ++ frac ++ tail) = true.
Proof.
  intros (Hi & Hf & [(Hne & _ & _)|[-> [Hne|Hne]]]).
  - now apply digit_starts_decimal, run_starts_with_digit.
  - now apply digit_starts_decimal, run_starts_with_digit.
  - destruct ip as [|c ip'];
      [|apply digit_starts_decimal; now apply run_starts_with_digit].
    cbn [append]. unfold starts_decimal.
    replace (code "." =? 46)%N with true by reflexivity.
    rewrite (run_starts_with_digit fp tail Hne Hf). cbn [andb].
    apply orb_true_r.
Qed.

(** A mantissa is read as the decimal it writes, with the exponent that
    follows it if one does. *)
Lemma read_decimal_mantissa (neg : bool) (ip frac fp tail : string) :
  mantissa ip frac fp ->
  starts_with_digit tail = false ->
  (frac = EmptyString -> starts_with_point tail = false) ->
  read_decimal neg (ip ++ frac ++ tail)
  = match read_exponent tail with
    | Some (x, _) =>
        binary64 neg (decimal_value (ip ++ fp))
          (x - Z.of_nat (String.length fp))
    | None =>
        binary64 neg (decimal_value (ip ++ fp))
          (- Z.of_nat (String.length fp))
    end.
Proof.
  intros (Hi & Hf & Hshape) Htail Hpt.
  destruct Hshape as [(Hne & -> & ->)|[-> Hne]].
  - specialize (Hpt eq_refl). cbn [append String.length].
    rewrite append_empty_r. unfold read_decimal.
    rewrite (digit_not_Infinity _ (run_starts_with_digit ip tail Hne Hi)).
    rewrite (read_digits_run ip tail Hi Htail).
    replace (match tail with
             | EmptyString => _
             | String c r => _
             end)
      with ((0 * 10 ^ N.of_nat (String.length ip) + decimal_value ip)%N, O, tail)
      by (destruct tail as [|c r]; [reflexivity|];
          simpl in Hpt; now rewrite Hpt).
    destruct ip as [|c d']; [congruence|]. cbn [String.length].
    rewrite N.mul_0_l, N.add_0_l.
    destruct (read_exponent tail) as [[x r3]|]; reflexivity.
  - destruct ip as [|c0 ip'].
    + destruct Hne as [Hne|Hne]; [congruence|].
      cbn [append]. unfold read_decimal.
      change (starts_with "Infinity" (String "." (fp ++ tail))) with false.
      cbv iota.
      rewrite (read_digits_none 0 (String "." (fp ++ tail)) eq_refl).
      replace (code "." =? 46)%N with true by reflexivity.
      rewrite (read_digits_run fp tail Hf Htail).
      destruct fp as [|c d']; [congruence|]. cbn [String.length].
      rewrite N.mul_0_l, N.add_0_l.
      destruct (read_exponent tail) as [[x r3]|]; reflexivity.
    + unfold read_decimal.
      rewrite (digit_not_Infinity _
                 (run_starts_with_digit (String c0 ip') _ ltac:(discriminate) Hi)).
      rewrite (read_digits_run (String c0 ip') ("." ++ fp ++ tail) Hi eq_refl).
      cbn [append]. replace (code "." =? 46)%N with true by reflexivity.
      rewrite (read_digits_run fp tail Hf Htail). cbn [String.length].
      replace ((0 * 10 ^ N.of_nat (S (String.length ip'))
                + decimal_value (String c0 ip'))
               * 10 ^ N.of_nat (String.length fp) + decimal_value fp)%N
        with (decimal_value (String c0 (ip' ++ fp)))
        by (change (String c0 (ip' ++ fp)) with (String c0 ip' ++ fp);
            rewrite decimal_value_app; lia).
      destruct (read_exponent tail) as [[x r3]|]; reflexivity.
Qed.

Lemma read_decimal_Infinity (neg : bool) (rest : string) :
  read_decimal neg ("Infinity" ++ rest) = Infinity neg.
Proof. reflexivity. Qed.

(** ** Base64 *)

Lemma all_below_spec (n : nat) (P : N -> bool) :
  all_below n P = true -> forall x, (x < N.of_nat n)%N -> P x = true.
Proof.
  induction n as [|k IH]; intros H x Hx; [lia|].
  simpl in H. apply andb_true_iff in H as [Hk H].
  destruct (N.eq_dec x (N.of_nat k)) as [->|Hne]; [assumption|].
  apply IH; [assumption|lia].
Qed.

Lemma code_byte (c : ascii) : (code c < 256)%N.
Proof. apply N_ascii_bounded. Qed.

Lemma ascii_of_code (c : ascii) : ascii_of_N (code c) = c.
Proof. apply ascii_N_embedding. Qed.

Lemma sextet_char (x : N) :
  (x < 64)%N -> base64_sextet (base64_char x) = Some x.
Proof.
  intros Hx.
  pose proof (all_below_spec 64
    (fun x => match base64_sextet (base64_char x) with
              | Some y => (y =? x)%N
              | None => false
              end) ltac:(vm_compute; reflexivity) x Hx) as H.
  cbv beta in H. destruct (base64_sextet (base64_char x)); [|discriminate].
  apply N.eqb_eq in H. now subst.
Qed.

Lemma sextet_pad : base64_sextet base64_pad = None.
Proof. reflexivity. Qed.

Lemma land3_lt (a : N) : (a < 256)%N -> (N.land a 3 < 4)%N.
Proof.
  intros Ha. apply N.ltb_lt.
  exact (all_below_spec 256 (fun a => N.land a 3 <? 4)%N ltac:(vm_compute; reflexivity) a Ha).
Qed.

Lemma shiftr6_lt (c : N) : (c < 256)%N -> (N.shiftr c 6 < 4)%N.
Proof.
  intros Hc. apply N.ltb_lt.
  exact (all_below_spec 256 (fun c => N.shiftr c 6 <? 4)%N ltac:(vm_compute; reflexivity) c Hc).
Qed.

Lemma enc1_lt (a : N) : (a < 256)%N -> (enc1 a < 64)%N.
Proof.
  intros Ha. apply N.ltb_lt.
  exact (all_below_spec 256 (fun a => enc1 a <? 64)%N ltac:(vm_compute; reflexivity) a Ha).
Qed.

Lemma enc4_lt (c : N) : (c < 256)%N -> (enc4 c < 64)%N.
Proof.
  intros Hc. apply N.ltb_lt.
  exact (all_below_spec 256 (fun c => enc4 c <? 64)%N ltac:(vm_compute; reflexivity) c Hc).
Qed.

Lemma enc2_lt (a b : N) : (a < 256)%N -> (b < 256)%N -> (enc2 a b < 64)%N.
Proof.
  intros Ha Hb. apply N.ltb_lt.
  pose proof (all_below_spec 4
    (fun p => all_below 256
       (fun b => N.lor (N.shiftl p 4) (N.shiftr b 4) <? 64)%N)
    ltac:(vm_compute; reflexivity) (N.land a 3) (land3_lt a Ha)) as H.
  exact (all_below_spec 256 _ H b Hb).
Qed.

Lemma enc3_lt (b c : N) : (b < 256)%N -> (c < 256)%N -> (enc3 b c < 64)%N.
Proof.
  intros Hb Hc. apply N.ltb_lt.
  pose proof (all_below_spec 256
    (fun b => all_below 4
       (fun t => N.lor (N.shiftl (N.land b 15) 2) t <? 64)%N)
    ltac:(vm_compute; reflexivity) b Hb) as H.
  exact (all_below_spec 4 _ H (N.shiftr c 6) (shiftr6_lt c Hc)).
Qed.

Lemma dec1_enc (a b : N) :
  (a < 256)%N -> (b < 256)%N -> dec1 (enc1 a) (enc2 a b) = a.
Proof.
  intros Ha Hb. apply N.eqb_eq.
  pose proof (all_below_spec 256
    (fun a => all_below 256 (fun b => dec1 (enc1 a) (enc2 a b) =? a)%N)
    ltac:(vm_compute; reflexivity) a Ha) as H.
  exact (all_below_spec 256 _ H b Hb).
Qed.

Lemma dec2_enc (a b c : N) :
  (a < 256)%N -> (b < 256)%N -> (c < 256)%N ->
  dec2 (enc2 a b) (enc3 b c) = b.
Proof.
  intros Ha Hb Hc. apply N.eqb_eq.
  pose proof (all_below_spec 4
    (fun p => all_below 256 (fun b => all_below 4 (fun t =>
       dec2 (N.lor (N.shiftl p 4) (N.shiftr b 4))
            (N.lor (N.shiftl (N.land b 15) 2) t) =? b)))%N
    ltac:(vm_compute; reflexivity) (N.land a 3) (land3_lt a Ha)) as H.
  pose proof (all_below_spec 256 _ H b Hb) as H'.
  exact (all_below_spec 4 _ H' (N.shiftr c 6) (shiftr6_lt c Hc)).
Qed.

Lemma dec3_enc (b c : N) :
  (b < 256)%N -> (c < 256)%N -> dec3 (enc3 b c) (enc4 c) = c.
Proof.
  intros Hb Hc. apply N.eqb_eq.
  pose proof (all_below_spec 256
    (fun b => all_below 256 (fun c => dec3 (enc3 b c) (enc4 c) =? c)%N)
    ltac:(vm_compute; reflexivity) b Hb) as H.
  exact (all_below_spec 256 _ H c Hc).
Qed.

(** Induction on a string three bytes at a time. *)
Lemma string_ind3 (P : string -> Prop) :
  P EmptyString ->
  (forall a, P (String a EmptyString)) ->
  (forall a b, P (String a (String b EmptyString))) ->
  (forall a b c r, P r -> P (String a (String b (String c r)))) ->
  forall s, P s.
Proof.
  intros H0 H1 H2 H3 s.
  enough (H : P s /\ (forall a, P (String a s))
                  /\ (forall a b, P (String a (String b s)))) by apply H.
  induction s as [|c r (IH0 & IH1 & IH2)].
  - auto.
  - split; [apply IH1|]. split; [intros a; apply IH2|].
    intros a b. now apply H3.
Qed.

Lemma base64_decode_encode (s : string) :
  base64_decode (base64_encode s) = s.
Proof.
  induction s as [|a|a b|a b c r IH] using string_ind3.
  - reflexivity.
  - cbn [base64_encode base64_decode].
    rewrite !sextet_char, sextet_pad
      by (apply enc1_lt || apply enc2_lt; (apply code_byte || reflexivity)).
    now rewrite dec1_enc, ascii_of_code by (apply code_byte || reflexivity).
  - cbn [base64_encode base64_decode].
    rewrite !sextet_char, sextet_pad
      by (first [apply enc1_lt | apply enc2_lt | apply enc3_lt];
          (apply code_byte || reflexivity)).
    rewrite dec1_enc by apply code_byte.
    rewrite (dec2_enc (code a) (code b) 0)
      by (apply code_byte || reflexivity).
    now rewrite !ascii_of_code.
  - cbn [base64_encode base64_decode].
    rewrite !sextet_char
      by (first [apply enc1_lt | apply enc2_lt | apply enc3_lt | apply enc4_lt];
          apply code_byte).
    rewrite dec1_enc, dec2_enc, dec3_enc by apply code_byte.
    now rewrite !ascii_of_code, IH.
Qed.

Lemma strip_prefix_app (p s : string) : strip_prefix p (p ++ s) = Some s.
Proof.
  induction p as [|c p IH]; simpl; [now destruct s|].
  now rewrite Ascii.eqb_refl.
Qed.

(** ** Characters of a string *)

Lemma forall_chars_app (P : ascii -> bool) (a b : string) :
  forall_chars P (a ++ b) = forall_chars P a && forall_chars P b.
Proof.
  induction a as [|c a IH]; simpl; [reflexivity|].
  now rewrite IH, andb_assoc.
Qed.

Lemma forall_chars_impl (P Q : ascii -> bool) (s : string) :
  (forall c, P c = true -> Q c = true) ->
  forall_chars P s = true -> forall_chars Q s = true.
Proof.
  intros H. induction s as [|c s IH]; simpl; [reflexivity|].
  rewrite !andb_true_iff. intros [Hc Hs]. auto.
Qed.

Lemma forall_chars_substring (P : ascii -> bool) (s : string) :
  forall_chars P s = true ->
  forall n m, forall_chars P (substring n m s) = true.
Proof.
  induction s as [|c s IH]; intros H n m.
  - now destruct n, m.
  - simpl in H. apply andb_true_iff in H as [Hc Hs].
    destruct n as [|n]; [destruct m as [|m]|]; simpl; auto.
    now rewrite Hc, IH.
Qed.

Lemma forall_chars_zeros (P : ascii -> bool) (k : nat) :
  P "0"%char = true -> forall_chars P (zeros k) = true.
Proof. intros H. induction k as [|k IH]; simpl; [reflexivity|]. now rewrite H. Qed.

(** ** The text of a number *)

Lemma string_of_uint_digits (d : Decimal.uint) :
  forall_chars is_digit (NilEmpty.string_of_uint d) = true.
Proof. induction d; simpl; auto. Qed.

Lemma digits_of_digits (m : N) : forall_chars is_digit (digits_of m) = true.
Proof.
  unfold digits_of, NilZero.string_of_uint.
  destruct (N.to_uint m); try apply (string_of_uint_digits (_ _)); reflexivity.
Qed.

Lemma strip_trailing_zeros_chars (P : ascii -> bool) (s : string) :
  forall_chars P s = true ->
  forall_chars P (fst (strip_trailing_zeros s)) = true.
Proof.
  induction s as [|c s IH]; [reflexivity|].
  simpl. intros H. apply andb_true_iff in H as [Hc Hs].
  specialize (IH Hs). destruct (strip_trailing_zeros s) as [r z].
  destruct (is_empty r && (code c =? 48)%N); [reflexivity|].
  simpl in *. now rewrite Hc, IH.
Qed.

Lemma digit_number_text (s : string) :
  forall_chars is_digit s = true -> forall_chars number_text s = true.
Proof.
  apply forall_chars_impl. intros c H. unfold number_text. now rewrite H.
Qed.

Lemma numberToString_text (x : number) :
  forall_chars number_text (numberToString x) = true.
Proof.
  destruct x as [|[]|neg m e]; try reflexivity.
  unfold numberToString. destruct (m =? 0)%N; [reflexivity|].
  pose proof (strip_trailing_zeros_chars _ _ (digits_of_digits m)) as Hs.
  destruct (strip_trailing_zeros (digits_of m)) as [s z]. cbn [fst] in Hs.
  apply digit_number_text in Hs.
  assert (Hsub : forall n k, forall_chars number_text (substring n k s) = true)
    by now apply forall_chars_substring.
  assert (Hz : forall k, forall_chars number_text (zeros k) = true)
    by (intros k; now apply forall_chars_zeros).
  assert (Hd : forall k, forall_chars number_text (digits_of k) = true)
    by (intros k; apply digit_number_text, digits_of_digits).
  rewrite forall_chars_app. apply andb_true_iff. split; [now destruct neg|].
  repeat match goal with
         | |- context [if ?b then _ else _] => destruct b
         end;
    rewrite ?forall_chars_app, ?Hs, ?Hsub, ?Hz, ?Hd; reflexivity.
Qed.

(** ** Occurrences *)

Lemma count_occurrences_unfold (p s : string) :
  count_occurrences p s
  = (if starts_with p s then 1 else 0)
    + match s with
      | EmptyString => 0
      | String _ s' => count_occurrences p s'
      end.
Proof. now destruct s. Qed.

Lemma starts_with_app (p s : string) : starts_with p (p ++ s) = true.
Proof.
  induction p as [|c p IH]; simpl; [reflexivity|].
  now rewrite Ascii.eqb_refl.
Qed.

Lemma occurs_here (p post : string) : 1 <= count_occurrences p (p ++ post).
Proof.
  rewrite count_occurrences_unfold, starts_with_app. lia.
Qed.

Lemma occurs_later (p pre s : string) :
  1 <= count_occurrences p s -> 1 <= count_occurrences p (pre ++ s).
Proof.
  intros H. induction pre as [|c pre IH]; [exact H|].
  cbn [append]. rewrite count_occurrences_unfold. lia.
Qed.

Ltac occurs := repeat first [apply occurs_here | apply occurs_later].

Lemma count_occurrences_empty (p : string) :
  p <> EmptyString -> count_occurrences p EmptyString = 0.
Proof. destruct p; [congruence|reflexivity]. Qed.

Lemma starts_with_app_r (p s r : string) :
  starts_with p s = true -> starts_with p (s ++ r) = true.
Proof.
  revert s. induction p as [|x p IH]; intros [|y s]; simpl; try congruence.
  rewrite !andb_true_iff. intros [H1 H2]. auto.
Qed.

(** Occurrences in two texts are occurrences in the two put together. *)
Lemma count_occurrences_app_ge (p a b : string) :
  p <> EmptyString ->
  count_occurrences p a + count_occurrences p b <= count_occurrences p (a ++ b).
Proof.
  intros Hp. induction a as [|y a IH].
  - rewrite count_occurrences_empty by assumption. simpl. lia.
  - cbn [append]. rewrite (count_occurrences_unfold p (String y a)),
      (count_occurrences_unfold p (String y (a ++ b))).
    destruct (starts_with p (String y a)) eqn:E.
    + pose proof (starts_with_app_r p (String y a) b E) as E'.
      cbn [append] in E'. rewrite E'. lia.
    + destruct (starts_with p (String y (a ++ b))); lia.
Qed.

Lemma lacks_cons (c x : ascii) (p : string) :
  lacks c (String x p) = true -> Ascii.eqb x c = false /\ lacks c p = true.
Proof.
  unfold lacks. simpl. rewrite andb_true_iff, negb_true_iff. tauto.
Qed.

(** An occurrence does not reach over a character the text does not
    hold. *)
Lemma starts_with_before (c : ascii) (a r : string) :
  forall p,
    lacks c p = true ->
    starts_with p ((a ++ String c EmptyString) ++ r)
    = starts_with p (a ++ String c EmptyString).
Proof.
  induction a as [|y a IH]; intros [|x p] H; try reflexivity.
  - apply lacks_cons in H as [H _]. simpl. now rewrite H.
  - apply lacks_cons in H as [_ H]. cbn [append starts_with]. now rewrite IH.
Qed.

Lemma count_occurrences_before (p a r : string) (c : ascii) :
  p <> EmptyString -> lacks c p = true ->
  count_occurrences p ((a ++ String c EmptyString) ++ r)
  = count_occurrences p (a ++ String c EmptyString) + count_occurrences p r.
Proof.
  intros Hp Hc. induction a as [|y a IH].
  - cbn [append]. rewrite !(count_occurrences_unfold p (String c _)).
    rewrite count_occurrences_empty by assumption.
    destruct p as [|x p]; [congruence|]. apply lacks_cons in Hc as [Hc _].
    cbn [starts_with]. rewrite Hc. reflexivity.
  - cbn [append].
    rewrite (count_occurrences_unfold p (String y ((a ++ String c EmptyString) ++ r))),
      (count_occurrences_unfold p (String y (a ++ String c EmptyString))).
    rewrite IH.
    change (String y ((a ++ String c EmptyString) ++ r))
      with ((String y a ++ String c EmptyString) ++ r).
    rewrite (starts_with_before c (String y a) r p Hc). cbn [append]. lia.
Qed.

Lemma starts_with_inside (c : ascii) (r : string) :
  forall p2 p,
    String.length p2 < String.length p -> lacks c p = true ->
    starts_with p (p2 ++ String c r) = false.
Proof.
  induction p2 as [|y p2 IH]; intros [|x p] Hlen H; simpl in Hlen; try lia.
  - apply lacks_cons in H as [H _]. simpl. now rewrite H.
  - apply lacks_cons in H as [_ H]. cbn [append starts_with].
    rewrite IH by (assumption || lia). apply andb_false_r.
Qed.

Lemma count_occurrences_inside (p r : string) (c : ascii) :
  lacks c p = true ->
  forall p2,
    String.length p2 < String.length p ->
    count_occurrences p (p2 ++ String c r) = count_occurrences p (String c r).
Proof.
  intros Hc. induction p2 as [|y p2 IH]; intros Hlen; [reflexivity|].
  cbn [append]. rewrite (count_occurrences_unfold p (String y _)).
  change (String y (p2 ++ String c r)) with (String y p2 ++ String c r).
  rewrite (starts_with_inside c r _ p Hlen Hc).
  simpl in Hlen. rewrite IH by lia. reflexivity.
Qed.

Lemma count_occurrences_here (p r : string) (c : ascii) :
  p <> EmptyString -> lacks c p = true ->
  count_occurrences p (p ++ String c r) = 1 + count_occurrences p (String c r).
Proof.
  intros Hp Hc. rewrite count_occurrences_unfold, starts_with_app.
  destruct p as [|x p]; [congruence|]. cbn [append].
  rewrite (count_occurrences_inside (String x p) r c Hc p) by (simpl; lia).
  reflexivity.
Qed.

(** A text spliced between two characters it does not hold occurs where it
    is spliced, and otherwise only within what is before and within what is
    after. *)
Lemma count_occurrences_between (p a b A B : string) (c1 c2 : ascii) :
  A = a ++ String c1 EmptyString -> B = String c2 b ->
  p <> EmptyString -> lacks c1 p = true -> lacks c2 p = true ->
  count_occurrences p (A ++ p ++ B)
  = count_occurrences p A + 1 + count_occurrences p B.
Proof.
  intros -> -> Hp H1 H2.
  rewrite count_occurrences_before, count_occurrences_here by assumption. lia.
Qed.

(** Without such characters around it, it occurs at least as often. *)
Lemma count_occurrences_spliced (p A B : string) :
  p <> EmptyString ->
  count_occurrences p A + 1 + count_occurrences p B
  <= count_occurrences p (A ++ p ++ B).
Proof.
  intros Hp.
  pose proof (count_occurrences_app_ge p A (p ++ B) Hp) as H1.
  rewrite (count_occurrences_unfold p (p ++ B)), starts_with_app in H1.
  destruct p as [|x p]; [congruence|]. cbn [append] in H1.
  pose proof (count_occurrences_app_ge (String x p) p B Hp) as H2.
  cbn [append]. lia.
Qed.

Lemma ends_in_split (c : ascii) (s : string) :
  ends_in c s = true -> exists a, s = a ++ String c EmptyString.
Proof.
  induction s as [|x s IH]; [discriminate|].
  destruct s as [|y s].
  - simpl. intros H. apply Ascii.eqb_eq in H. subst x. now exists EmptyString.
  - intros H. destruct (IH H) as [a ->]. now exists (String x a).
Qed.

Lemma starts_in_split (c : ascii) (s : string) :
  starts_in c s = true -> exists b, s = String c b.
Proof.
  destruct s as [|x s]; [discriminate|]. simpl. intros H.
  apply Ascii.eqb_eq in H. subst x. now exists s.
Qed.

Lemma ends_in_app (c : ascii) (a b : string) :
  ends_in c b = true -> ends_in c (a ++ b) = true.
Proof.
  intros H. induction a as [|x a IH]; [exact H|].
  cbn [append ends_in]. rewrite IH.
  destruct (a ++ b) eqn:E; [|reflexivity].
  destruct a; [|discriminate]. simpl in E. subst b. discriminate.
Qed.

(** A text spliced after a character and before a character it does not
    hold. *)
Lemma count_occurrences_delimited (p A B : string) (c1 c2 : ascii) :
  ends_in c1 A = true -> starts_in c2 B = true ->
  p <> EmptyString -> lacks c1 p = true -> lacks c2 p = true ->
  count_occurrences p (A ++ p ++ B)
  = count_occurrences p A + 1 + count_occurrences p B.
Proof.
  intros HA HB. destruct (ends_in_split _ _ HA) as [a Ea].
  destruct (starts_in_split _ _ HB) as [b Eb].
  now apply (count_occurrences_between p a b A B c1 c2).
Qed.

Lemma theme_name_lacks_quote (t : Theme) :
  theme_name t <> EmptyString /\ lacks "'" (theme_name t) = true.
Proof. destruct t; split; (discriminate || reflexivity). Qed.

Lemma stripped_digits_zero (d : Decimal.uint) :
  fst (strip_trailing_zeros (NilEmpty.string_of_uint d)) = EmptyString ->
  Pos.of_uint d = 0%N.
Proof.
  induction d as [|d IH|d IH|d IH|d IH|d IH|d IH|d IH|d IH|d IH|d IH];
    [reflexivity|..];
    cbn [NilEmpty.string_of_uint strip_trailing_zeros Pos.of_uint];
    destruct (strip_trailing_zeros (NilEmpty.string_of_uint d)) as [r z];
    destruct r; cbn; intros H; (discriminate || now apply IH).
Qed.

Lemma digits_of_stripped (m : N) :
  m <> 0%N -> fst (strip_trailing_zeros (digits_of m)) <> EmptyString.
Proof.
  intros Hm H. apply Hm. rewrite <- (DecimalN.Unsigned.of_to m).
  unfold digits_of, NilZero.string_of_uint in H. unfold N.of_uint.
  destruct (N.to_uint m) eqn:E; now apply stripped_digits_zero.
Qed.

Lemma append_nonempty_r (a b : string) : b <> EmptyString -> a ++ b <> EmptyString.
Proof. destruct a; [trivial|discriminate]. Qed.

Lemma append_nonempty_l (a b : string) : a <> EmptyString -> a ++ b <> EmptyString.
Proof. destruct a; [congruence|discriminate]. Qed.

Lemma numberToString_nonempty (x : number) : numberToString x <> EmptyString.
Proof.
  destruct x as [|[]|neg m e]; try discriminate.
  unfold numberToString. destruct (N.eqb_spec m 0) as [|Hm]; [discriminate|].
  pose proof (digits_of_stripped m Hm) as Hs.
  destruct (strip_trailing_zeros (digits_of m)) as [s z]. cbn [fst] in Hs.
  apply append_nonempty_r.
  repeat match goal with
         | |- context [if ?b then _ else _] => destruct b
         end;
    repeat first [ apply append_nonempty_l; assumption
                 | apply append_nonempty_l; discriminate
                 | apply append_nonempty_r ];
    discriminate.
Qed.

(** The text of a number holds neither a space nor a comma. *)
Lemma numberToString_lacks (x : number) :
  lacks " " (numberToString x) = true /\ lacks "," (numberToString x) = true.
Proof.
  split; apply (forall_chars_impl number_text); try apply numberToString_text;
    intros c H; unfold number_text in H.
  - destruct (Ascii.eqb_spec c " ") as [->|_]; [discriminate|reflexivity].
  - destruct (Ascii.eqb_spec c ",") as [->|_]; [discriminate|reflexivity].
Qed.

(** ** The claims *)

(** C1.  [validateInputFile] returns the resolved path of an input that
    exists, and for an input that does not exist it throws an error whose
    message is [Input file not found: ] followed by the resolved path. *)
Theorem C1_validateInputFile (env : Env) (inputPath : string) :
  (fs_existsSync env (path_resolve env inputPath) = true ->
   validateInputFile env inputPath = Ok (path_resolve env inputPath))
  /\ (fs_existsSync env (path_resolve env inputPath) = false ->
      validateInputFile env inputPath
      = Err ("Input file not found: " ++ path_resolve env inputPath)
      /\ ends_with (path_resolve env inputPath)
           ("Input file not found: " ++ path_resolve env inputPath) = true).
Proof.
  unfold validateInputFile. split; intros ->; [reflexivity|].
  split; [reflexivity|].
  unfold ends_with. rewrite string_length_app.
  apply andb_true_iff. split; [|apply Nat.leb_le; lia].
  replace (String.length "Input file not found: "
           + String.length (path_resolve env inputPath)
           - String.length (path_resolve env inputPath))
    with (String.length "Input file not found: ") by lia.
  generalize (path_resolve env inputPath) as p. intros p.
  cbn. induction p as [|c p IH]; cbn; [reflexivity|].
  now rewrite Ascii.eqb_refl.
Qed.

Lemma C1_validateInputFile_witness :
  validateInputFile (mock_env happy) "input.cast" = Ok "/absolute/input.cast"
  /\ validateInputFile
       (mock_env (mkScenario false (Resolved tt) (Resolved tt)
                    (Resolved Undefined) (Resolved tt) None))
       "nonexistent.cast"
     = Err "Input file not found: /absolute/nonexistent.cast".
Proof.
  split.
  - exact (proj1 (C1_validateInputFile (mock_env happy) "input.cast") eq_refl).
  - exact (proj1 (proj2 (C1_validateInputFile
                           (mock_env (mkScenario false (Resolved tt) (Resolved tt)
                                        (Resolved Undefined) (Resolved tt) None))
                           "nonexistent.cast") eq_refl)).
Defined.

Lemma isNaN_true (x : number) : isNaN x = true <-> x = NaN.
Proof. destruct x; simpl; split; congruence. Qed.

Lemma parseInt_reads (raw : string) : reads_integer raw (parseInt raw 10).
Proof.
  split.
  - intros body neg d rest Hw Hs Hne Hd Hrest.
    rewrite (parseInt_run raw body d rest neg) by assumption.
    split; [reflexivity|]. intros Hv. now apply binary64_integer.
  - split; intros H.
    + apply parseInt_NaN_iff, isNaN_true, H.
    + apply isNaN_true, parseInt_NaN_iff, H.
Qed.

Lemma parseFloat_reads (raw : string) : reads_float raw (parseFloat raw).
Proof.
  split; [|split; [|split]].
  - intros body neg ip frac fp rest Hw Hs Hm Hrest Hpt Hex.
    rewrite (parseFloat_body raw body _ neg Hw Hs)
      by now apply (mantissa_starts_decimal ip frac fp).
    rewrite (read_decimal_mantissa neg ip frac fp rest Hm Hrest Hpt).
    rewrite (read_exponent_not_part _ Hex).
    split; [reflexivity|]. intros -> Hv.
    rewrite append_empty_r. now apply binary64_integer.
  - intros body neg ip frac fp c etext eneg xd rest
      Hw Hs Hm Hc Hx Hxne Hxd Hrest.
    rewrite (parseFloat_body raw body _ neg Hw Hs)
      by now apply (mantissa_starts_decimal ip frac fp).
    rewrite (read_decimal_mantissa neg ip frac fp (String c etext) Hm).
    + now rewrite (read_exponent_some c etext xd rest eneg Hc Hx Hxne Hxd Hrest).
    + cbn [starts_with_digit]. unfold is_digit.
      destruct Hc as [-> | ->]; reflexivity.
    + intros _. cbn [starts_with_point]. destruct Hc as [-> | ->]; reflexivity.
  - intros body neg rest Hw Hs.
    now rewrite (parseFloat_body raw body _ neg Hw Hs).
  - split; intros H.
    + apply parseFloat_NaN_iff, isNaN_true, H.
    + apply isNaN_true, parseFloat_NaN_iff, H.
Qed.

(** C2, as the code has it.  [parseOptions] keeps [output] and [theme],
    reads [width] and [height] as base-ten integers and [speed] and [scale]
    as decimals, each to the nearest binary64 value, after white space and
    an optional sign; it gives [NaN] in a field exactly when its string has
    no numeric prefix to read, and computes each field from its own string
    alone.  It is a total function: no string makes it fail. *)
Theorem C2_parseOptions (o : ConvertOptions) :
  output (parseOptions o) = co_output o
  /\ theme (parseOptions o) = co_theme o
  /\ reads_integer (co_width o) (width (parseOptions o))
  /\ reads_integer (co_height o) (height (parseOptions o))
  /\ reads_float (co_speed o) (speed (parseOptions o))
  /\ reads_float (co_scale o) (scale (parseOptions o))
  /\ (forall o',
        (co_width o' = co_width o -> width (parseOptions o') = width (parseOptions o))
        /\ (co_height o' = co_height o ->
            height (parseOptions o') = height (parseOptions o))
        /\ (co_speed o' = co_speed o -> speed (parseOptions o') = speed (parseOptions o))
        /\ (co_scale o' = co_scale o -> scale (parseOptions o') = scale (parseOptions o))).
Proof.
  unfold parseOptions; cbn [output theme width height speed scale].
  split; [reflexivity|]. split; [reflexivity|].
  split; [apply parseInt_reads|]. split; [apply parseInt_reads|].
  split; [apply parseFloat_reads|]. split; [apply parseFloat_reads|].
  intros o'. repeat split; now intros ->.
Qed.

(** The test of the suite on invalid numbers: [width] and [speed] are
    [NaN], [height] and [scale] are read. *)
Lemma C2_parseOptions_witness :
  let o := mkConvertOptions "test.mp4" "invalid" "800" asciinema "fast" "1" in
  width (parseOptions o) = NaN
  /\ height (parseOptions o) = Dec false 800 0
  /\ speed (parseOptions o) = NaN
  /\ scale (parseOptions o) = Dec false 1 0.
Proof.
  intros o.
  destruct (C2_parseOptions o) as (_ & _ & Hw & Hh & Hs & Hc & _).
  split; [reflexivity|].
  split.
  { exact (proj2 (proj1 Hh "800" false "800" EmptyString
                    (aws_here "800") (signed_none "800")
                    ltac:(discriminate) eq_refl eq_refl) eq_refl). }
  split; [reflexivity|].
  refine (proj2 (proj1 Hc "1" false "1" EmptyString EmptyString EmptyString
                   (aws_here "1") (signed_none "1") _
                   eq_refl (fun _ => eq_refl) eq_refl) eq_refl eq_refl).
  split; [reflexivity|]. split; [reflexivity|].
  left. split; [discriminate|]. split; reflexivity.
Defined.

(** C2 as stated fails: [800px] is not a numeral, yet the width read from
    it is 800 and not [NaN]; so is the speed read from [1.5x]. *)
Lemma C2_counterexample :
  let o := mkConvertOptions "output.mp4" "800px" "600" asciinema "1.5x" "2" in
  integer_numeral (co_width o) = false
  /\ width (parseOptions o) = Dec false 800 0
  /\ isNaN (width (parseOptions o)) = false
  /\ speed (parseOptions o) = Dec false 15 (-1)
  /\ isNaN (speed (parseOptions o)) = false.
Proof. repeat split; vm_compute; reflexivity. Qed.

(** C9, as the code has it.  A dimension that starts with digits is read as
    the Number value of the run of digits, whatever follows it: the integer
    itself below [2 ^ 53], the nearest binary64 value from there on.  It is
    [NaN] only when the string has no leading integer, and a factor is [NaN]
    only when the string has no leading decimal literal. *)
Theorem C9_leading_prefix (o : ConvertOptions) :
  (forall d rest,
     d <> EmptyString -> all_digits d = true ->
     starts_with_digit rest = false ->
     (co_width o = d ++ rest ->
      width (parseOptions o) = binary64 false (decimal_value d) 0
      /\ ((decimal_value d < 2 ^ 53)%N ->
          width (parseOptions o) = Dec false (decimal_value d) 0))
     /\ (co_height o = d ++ rest ->
         height (parseOptions o) = binary64 false (decimal_value d) 0
         /\ ((decimal_value d < 2 ^ 53)%N ->
             height (parseOptions o) = Dec false (decimal_value d) 0)))
  /\ (width (parseOptions o) = NaN <-> ~ leading_integer (co_width o))
  /\ (height (parseOptions o) = NaN <-> ~ leading_integer (co_height o))
  /\ (speed (parseOptions o) <> NaN <-> leading_float (co_speed o))
  /\ (scale (parseOptions o) <> NaN <-> leading_float (co_scale o))
  /\ (forall ip fp rest,
        ip <> EmptyString -> all_digits ip = true -> all_digits fp = true ->
        starts_with_digit rest = false -> starts_with_exponent rest = false ->
        (co_speed o = ip ++ "." ++ fp ++ rest ->
         speed (parseOptions o)
         = binary64 false (decimal_value (ip ++ fp))
             (- Z.of_nat (String.length fp)))
        /\ (co_scale o = ip ++ "." ++ fp ++ rest ->
            scale (parseOptions o)
            = binary64 false (decimal_value (ip ++ fp))
                (- Z.of_nat (String.length fp)))).
Proof.
  unfold parseOptions; cbn [width height speed scale].
  assert (Hf : forall s, parseFloat s <> NaN <-> leading_float s).
  { intros s. rewrite <- isNaN_true, parseFloat_isNaN, leading_float_trim.
    destruct (float_start (trimStart s)); simpl; split; congruence. }
  split; [|split; [|split; [|split; [|split]]]].
  - intros d rest Hne Hd Hrest.
    split; intros E; rewrite E;
      apply (proj1 (parseInt_reads _) (d ++ rest) false d rest);
      assumption || constructor.
  - apply parseInt_reads.
  - apply parseInt_reads.
  - apply Hf.
  - apply Hf.
  - intros ip fp rest Hne Hi Hfp H1 H2.
    assert (Hm : mantissa ip ("." ++ fp) fp).
    { split; [exact Hi|]. split; [exact Hfp|]. right. split; [reflexivity|].
      now left. }
    split; intros E; rewrite E;
      apply (proj1 (proj1 (parseFloat_reads _) (ip ++ "." ++ fp ++ rest) false
                      ip ("." ++ fp) fp rest (aws_here _) (signed_none _) Hm H1
                      ltac:(discriminate) (exponent_not_part _ H2))).
Qed.

Lemma C9_leading_prefix_witness :
  let o := mkConvertOptions "output.mp4" "800px" "600 " asciinema "1.5x" "2" in
  width (parseOptions o) = Dec false 800 0
  /\ speed (parseOptions o) = binary64 false 15 (-1).
Proof.
  intros o. destruct (C9_leading_prefix o) as (Hd & _ & _ & _ & _ & Hf).
  split.
  - exact (proj2 (proj1 (Hd "800" "px" ltac:(discriminate) eq_refl eq_refl)
                    eq_refl) eq_refl).
  - exact (proj1 (Hf "1" "5" "x" ltac:(discriminate)
                    eq_refl eq_refl eq_refl eq_refl) eq_refl).
Defined.

(** C9 as stated fails: the run of digits of [9007199254740993px] has the
    integer value [2 ^ 53 + 1], and the width read from it is [2 ^ 53], the
    nearest binary64 value. *)
Lemma C9_counterexample :
  let o :=
    mkConvertOptions "output.mp4" "9007199254740993px" "600" asciinema "1" "2" in
  decimal_value "9007199254740993" = (2 ^ 53 + 1)%N
  /\ width (parseOptions o) = Dec false (2 ^ 53) 0
  /\ width (parseOptions o) <> Dec false (decimal_value "9007199254740993") 0.
Proof.
  cbv zeta. split; [vm_compute; reflexivity|].
  split; [vm_compute; reflexivity|]. vm_compute. discriminate.
Qed.

(** C3.  Stripping the prefix of the data URI and decoding the rest from
    base64 gives back the bytes of the content. *)
Theorem C3_data_uri_round_trip (castContent : string) :
  option_map base64_decode
    (strip_prefix data_uri_prefix (createCastDataUri castContent))
  = Some castContent.
Proof.
  unfold createCastDataUri. rewrite strip_prefix_app. simpl.
  now rewrite base64_decode_encode.
Qed.

Lemma append_assoc (a b c : string) : (a ++ b) ++ c = a ++ b ++ c.
Proof. induction a as [|x a IH]; simpl; congruence. Qed.

(** What holds of five texts spliced into a template of six pieces, the
    third after and before a quote, the fourth after and before a quote,
    the fifth after a space and before a comma. *)
Lemma template_counts (t0 t1 t2 t3 t4 t5 css js uri th sp : string) :
  let html :=
    t0 ++ css ++ t1 ++ js ++ t2 ++ uri ++ t3 ++ th ++ t4 ++ sp ++ t5 in
  ends_in "'" t2 = true -> starts_in "'" t3 = true ->
  ends_in "'" t3 = true -> starts_in "'" t4 = true ->
  ends_in " " t4 = true -> starts_in "," t5 = true ->
  th <> EmptyString -> lacks "'" th = true ->
  sp <> EmptyString -> lacks " " sp = true -> lacks "," sp = true ->
  1 <= count_occurrences css html
  /\ 1 <= count_occurrences js html
  /\ 1 <= count_occurrences uri html
  /\ count_occurrences th html
     = count_occurrences th (t0 ++ css ++ t1 ++ js ++ t2 ++ uri ++ t3)
       + 1 + count_occurrences th (t4 ++ sp ++ t5)
  /\ count_occurrences sp html
     = count_occurrences sp
         (t0 ++ css ++ t1 ++ js ++ t2 ++ uri ++ t3 ++ th ++ t4)
       + 1 + count_occurrences sp t5
  /\ (uri <> EmptyString -> lacks "'" uri = true ->
      count_occurrences uri html
      = count_occurrences uri (t0 ++ css ++ t1 ++ js ++ t2)
        + 1 + count_occurrences uri (t3 ++ th ++ t4 ++ sp ++ t5))
  /\ (css <> EmptyString ->
      count_occurrences css t0 + 1
      + count_occurrences css
          (t1 ++ js ++ t2 ++ uri ++ t3 ++ th ++ t4 ++ sp ++ t5)
      <= count_occurrences css html)
  /\ (js <> EmptyString ->
      count_occurrences js (t0 ++ css ++ t1) + 1
      + count_occurrences js (t2 ++ uri ++ t3 ++ th ++ t4 ++ sp ++ t5)
      <= count_occurrences js html).
Proof.
  intros html E2 S3 E3 S4 E4 S5 Hth Lth Hsp Lsp1 Lsp2. unfold html.
  split; [occurs|]. split; [occurs|]. split; [occurs|].
  split; [|split; [|split; [|split]]].
  - replace (t0 ++ css ++ t1 ++ js ++ t2 ++ uri ++ t3 ++ th ++ t4 ++ sp ++ t5)
      with ((t0 ++ css ++ t1 ++ js ++ t2 ++ uri ++ t3) ++ th ++ t4 ++ sp ++ t5)
      by now rewrite !append_assoc.
    apply (count_occurrences_delimited th _ _ "'" "'"); try assumption.
    + now repeat apply ends_in_app.
    + destruct t4; [discriminate|exact S4].
  - replace (t0 ++ css ++ t1 ++ js ++ t2 ++ uri ++ t3 ++ th ++ t4 ++ sp ++ t5)
      with ((t0 ++ css ++ t1 ++ js ++ t2 ++ uri ++ t3 ++ th ++ t4) ++ sp ++ t5)
      by now rewrite !append_assoc.
    apply (count_occurrences_delimited sp _ _ " " ","); try assumption.
    now repeat apply ends_in_app.
  - intros Huri Luri.
    replace (t0 ++ css ++ t1 ++ js ++ t2 ++ uri ++ t3 ++ th ++ t4 ++ sp ++ t5)
      with ((t0 ++ css ++ t1 ++ js ++ t2) ++ uri ++ t3 ++ th ++ t4 ++ sp ++ t5)
      by now rewrite !append_assoc.
    apply (count_occurrences_delimited uri _ _ "'" "'"); try assumption.
    + now repeat apply ends_in_app.
    + destruct t3; [discriminate|exact S3].
  - intros Hcss. now apply count_occurrences_spliced.
  - intros Hjs.
    replace (t0 ++ css ++ t1 ++ js ++ t2 ++ uri ++ t3 ++ th ++ t4 ++ sp ++ t5)
      with ((t0 ++ css ++ t1) ++ js ++ t2 ++ uri ++ t3 ++ th ++ t4 ++ sp ++ t5)
      by now rewrite !append_assoc.
    now apply count_occurrences_spliced.
Qed.

(** C4, as the code has it.  The page is a fixed template into which the
    style, the script, the data URI, the name of the theme and the text of
    the speed are spliced once each, in this order, the theme between
    [theme: '] and a quote, the speed between [speed: ] and a comma.  So each
    occurs at least once.  The name of the theme, the text of the speed and
    a data URI without a quote occur once more than they occur in the text
    before and in the text after their place, and the style and the script
    at least that often: a value occurs exactly once unless its text occurs
    elsewhere in the page too. *)
Theorem C4_generateHtml_splices :
  exists t0 t1 t2 t3 t4 t5 : string,
    forall (playerAssets : PlayerAssets) (castDataUri : string)
           (options : ParsedOptions),
      let css := cssContent playerAssets in
      let js := jsContent playerAssets in
      let th := theme_name (theme options) in
      let sp := numberToString (speed options) in
      let html := generateHtml playerAssets castDataUri options in
      html = t0 ++ css ++ t1 ++ js ++ t2 ++ castDataUri ++ t3 ++ th ++ t4
             ++ sp ++ t5
      /\ ends_with "theme: '" t3 = true /\ starts_with "'," t4 = true
      /\ ends_with "speed: " t4 = true /\ starts_with "," t5 = true
      /\ 1 <= count_occurrences css html
      /\ 1 <= count_occurrences js html
      /\ 1 <= count_occurrences castDataUri html
      /\ count_occurrences th html
         = count_occurrences th
             (t0 ++ css ++ t1 ++ js ++ t2 ++ castDataUri ++ t3)
           + 1 + count_occurrences th (t4 ++ sp ++ t5)
      /\ count_occurrences sp html
         = count_occurrences sp
             (t0 ++ css ++ t1 ++ js ++ t2 ++ castDataUri ++ t3 ++ th ++ t4)
           + 1 + count_occurrences sp t5
      /\ (castDataUri <> EmptyString -> lacks "'" castDataUri = true ->
          count_occurrences castDataUri html
          = count_occurrences castDataUri (t0 ++ css ++ t1 ++ js ++ t2)
            + 1 + count_occurrences castDataUri (t3 ++ th ++ t4 ++ sp ++ t5))
      /\ (css <> EmptyString ->
          count_occurrences css t0 + 1
          + count_occurrences css
              (t1 ++ js ++ t2 ++ castDataUri ++ t3 ++ th ++ t4 ++ sp ++ t5)
          <= count_occurrences css html)
      /\ (js <> EmptyString ->
          count_occurrences js (t0 ++ css ++ t1) + 1
          + count_occurrences js
              (t2 ++ castDataUri ++ t3 ++ th ++ t4 ++ sp ++ t5)
          <= count_occurrences js html).
Proof.
  exists
    ("<!DOCTYPE html>
<html>
<head>
  <style>
    "),
    ("
    body {
      margin: 0;
      padding: 0;
      display: flex;
      justify-content: center;
      align-items: center;
      height: 100vh;
      background: #000;
    }
    #player-container {
      width: 100%;
      height: 100%;
    }
  </style>
</head>
<body>
  <div id=" ++ dquote ++ "player-container" ++ dquote ++ "></div>
  <script>
    "),
    ("
  </script>
  <script>
    try {
      const container = document.getElementById('player-container');
      window.player = AsciinemaPlayer.create('"),
    ("', container, {
        theme: '"),
    ("',
        speed: "),
    (",
        fontSize: 'medium',
        autoPlay: false,
        preload: true,
        fit: 'both',
      });

      window.playerEl = window.player.el;
      window.playerReady = true;
      window.playerEnded = false;

      "
  ++ ended_listener
  ++ "
    } catch (error) {
      window.playerError = error.toString();
    }
  </script>
</body>
</html>").
  intros playerAssets castDataUri options. cbv zeta.
  match goal with
  | |- ?h = ?rhs /\ _ =>
      assert (E : h = rhs)
        by (unfold generateHtml; rewrite ?append_assoc; reflexivity);
      rewrite E
  end.
  split; [reflexivity|].
  split; [vm_compute; reflexivity|]. split; [reflexivity|].
  split; [vm_compute; reflexivity|]. split; [reflexivity|].
  apply template_counts; try reflexivity;
    try apply theme_name_lacks_quote; try apply numberToString_nonempty;
    apply numberToString_lacks.
Qed.

Lemma C4_generateHtml_splices_witness :
  let playerAssets := mkPlayerAssets "/* JS content */" "/* CSS content */" in
  let uri := createCastDataUri sample_cast in
  let html := generateHtml playerAssets uri (parseOptions default_options) in
  (exists before after,
      html = before ++ uri ++ after
      /\ count_occurrences uri html
         = count_occurrences uri before + 1 + count_occurrences uri after)
  /\ (exists before after,
         html = before ++ cssContent playerAssets ++ after
         /\ count_occurrences (cssContent playerAssets) before + 1
            + count_occurrences (cssContent playerAssets) after
            <= count_occurrences (cssContent playerAssets) html)
  /\ (exists before after,
         html = before ++ jsContent playerAssets ++ after
         /\ count_occurrences (jsContent playerAssets) before + 1
            + count_occurrences (jsContent playerAssets) after
            <= count_occurrences (jsContent playerAssets) html).
Proof.
  cbv zeta.
  destruct C4_generateHtml_splices as (t0 & t1 & t2 & t3 & t4 & t5 & H).
  destruct (H (mkPlayerAssets "/* JS content */" "/* CSS content */")
              (createCastDataUri sample_cast) (parseOptions default_options))
    as (E & _ & _ & _ & _ & _ & _ & _ & _ & _ & Huri & Hcss & Hjs).
  cbn [cssContent jsContent] in *.
  split; [|split].
  - eexists _, _. split; [|exact (Huri ltac:(discriminate) eq_refl)].
    rewrite E. now rewrite !append_assoc.
  - eexists _, _. split; [|exact (Hcss ltac:(discriminate))]. exact E.
  - eexists _, _. split; [|exact (Hjs ltac:(discriminate))].
    rewrite E. now rewrite !append_assoc.
Defined.

(** C4 as stated fails: with the options of the command line when no flag
    is given, the text of the speed is [1], and [1] occurs five times in the
    page (in [100vh], twice in [100%], after [speed:] and in [1000]). *)
Lemma C4_counterexample :
  let playerAssets := mkPlayerAssets "/* JS content */" "/* CSS content */" in
  let options := parseOptions default_options in
  let html := generateHtml playerAssets (createCastDataUri sample_cast) options in
  numberToString (speed options) = "1"
  /\ count_occurrences (numberToString (speed options)) html = 5.
Proof. split; vm_compute; reflexivity. Qed.

(** ** The bootstrap script *)

Lemma ended_flag_run_callbacks (l : list (N * callback)) (w : Window) :
  ended_flag (fold_left (fun w' t => run_callback (snd t) w') l w)
  = match l with
    | [] => ended_flag w
    | _ :: _ => true
    end.
Proof.
  revert w. induction l as [|[d []] l IH]; intros w; [reflexivity|].
  cbn [fold_left]. rewrite IH. now destruct l.
Qed.

(** C8.  When the player fires [ended] at time [t], the script does not set
    the flag then: it sets a timer of 1000 ms, and the flag the recorder
    waits for is set at a later time [t'] exactly when [t + 1000 <= t'].
    The listener that does so is part of every generated page, and its text
    is the listener of the model with that delay written in it. *)
Theorem C8_ended_flag_delay (t t' : N) (playerAssets : PlayerAssets)
    (castDataUri : string) (options : ParsedOptions) :
  let loaded := bootstrap (Ok tt) fresh_window in
  ended_flag loaded = false
  /\ ended_flag (fire_ended t loaded) = false
  /\ w_timers (fire_ended t loaded) = [((t + 1000)%N, SetPlayerEnded)]
  /\ ended_flag (run_timers t' (fire_ended t loaded)) = (t + 1000 <=? t')%N
  /\ 1 <= count_occurrences ended_listener
            (generateHtml playerAssets castDataUri options)
  /\ 1 <= count_occurrences ("}, " ++ digits_of ended_delay ++ ");") ended_listener
  /\ ended_listener
     = "window.player.addEventListener('ended', () => {
         setTimeout(() => {
            window.playerEnded = true;
         }, " ++ digits_of ended_delay ++ ");
      });".
Proof.
  cbv zeta. split; [reflexivity|]. split; [reflexivity|].
  split; [reflexivity|]. split; [|split; [|split]].
  - unfold run_timers. rewrite ended_flag_run_callbacks.
    cbn [bootstrap fresh_window fire_ended w_listeners app fold_left run_listener
         setTimeout w_timers filter fst].
    change ended_delay with 1000%N.
    now destruct (t + 1000 <=? t')%N.
  - unfold generateHtml. occurs.
  - vm_compute. lia.
  - vm_compute. reflexivity.
Qed.

(** ** Rules for the calls logged *)

Lemma closes_app (l : list event) (e : event) :
  closes (l ++ [e]) = closes l + (if is_close e then 1 else 0).
Proof.
  unfold closes. rewrite filter_app, List.length_app. cbn [filter].
  fold (is_close e). now destruct (is_close e).
Qed.

Lemma session_opened_app (l : list event) (e : event) :
  session_opened (l ++ [e]) = session_opened l || is_process_on e.
Proof.
  unfold session_opened. rewrite existsb_app. cbn. now rewrite orb_false_r.
Qed.

Lemma Forall_snoc {A : Type} (P : A -> Prop) (l : list A) (a : A) :
  Forall P l -> P a -> Forall P (l ++ [a]).
Proof. intros Hl Ha. apply Forall_app. split; [assumption|now constructor]. Qed.

Lemma emits_ret {A : Type} (ok : event -> Prop) (a : A) : emits ok (ret a).
Proof. now intros st H. Qed.

Lemma emits_throw {A : Type} (ok : event -> Prop) (msg : string) :
  emits ok (@throw A msg).
Proof. now intros st H. Qed.

Lemma emits_lift {A : Type} (ok : event -> Prop) (r : result A) :
  emits ok (lift r).
Proof. destruct r; [apply emits_ret|apply emits_throw]. Qed.

Lemma emits_emit (ok : event -> Prop) (e : event) : ok e -> emits ok (emit e).
Proof. intros He st H. now apply Forall_snoc. Qed.

Lemma emits_process_on (ok : event -> Prop) (s : signal) :
  ok (EProcessOn s) -> emits ok (process_on s).
Proof. intros He st H. now apply Forall_snoc. Qed.

Lemma emits_process_off (ok : event -> Prop) (s : signal) :
  ok (EProcessOff s) -> emits ok (process_off s).
Proof. intros He st H. now apply Forall_snoc. Qed.

Lemma emits_cleanup {A : Type} (ok : event -> Prop) (env : Env) :
  ok EBrowserClose -> ok (EProcessExit 1) -> emits ok (@cleanup A env).
Proof.
  intros Hc Hx st H. unfold cleanup.
  destruct (browser_close env); cbn [snd log];
    repeat apply Forall_snoc; assumption.
Qed.

Lemma emits_await {A : Type} (ok : event -> Prop) (env : Env) (e : event)
    (r : reply A) :
  ok e -> ok EBrowserClose -> ok (EProcessExit 1) -> emits ok (await env e r).
Proof.
  intros He Hc Hx st H. unfold await.
  set (st1 := mkState (log st ++ [e]) (listeners st) (S (awaits st))).
  assert (H1 : Forall ok (log st1)) by now apply Forall_snoc.
  destruct (interrupt env) as [[k s]|].
  - destruct (k =? awaits st)%nat.
    + destruct (existsb (signal_eqb s) (listeners st)).
      * now apply emits_cleanup.
      * exact H1.
    + now destruct r.
  - now destruct r.
Qed.

Lemma emits_bind {A B : Type} (ok : event -> Prop) (m : M A) (k : A -> M B) :
  emits ok m -> (forall a, emits ok (k a)) -> emits ok (bind m k).
Proof.
  intros Hm Hk st H. unfold bind. specialize (Hm st H).
  destruct (m st) as [[a| | | |] st1]; cbn [snd] in *; try assumption.
  now apply Hk.
Qed.

Lemma emits_try_catch {A : Type} (ok : event -> Prop) (m : M A)
    (h : string -> M A) :
  emits ok m -> (forall msg, emits ok (h msg)) -> emits ok (try_catch m h).
Proof.
  intros Hm Hh st H. unfold try_catch. specialize (Hm st H).
  destruct (m st) as [[a| | | |] st1]; cbn [snd] in *; try assumption.
  now apply Hh.
Qed.

Lemma emits_try_finally {A : Type} (ok : event -> Prop) (m : M A) (f : M unit) :
  emits ok m -> emits ok f -> emits ok (try_finally m f).
Proof.
  intros Hm Hf st H. unfold try_finally. specialize (Hm st H).
  destruct (m st) as [[a| | | |] st1]; cbn [snd] in *; try assumption.
  - apply emits_bind; [assumption|intros; apply emits_ret|assumption].
  - apply emits_bind; [assumption|intros; apply emits_throw|assumption].
Qed.

Lemma emits_if {A : Type} (ok : event -> Prop) (b : bool) (m1 m2 : M A) :
  emits ok m1 -> emits ok m2 -> emits ok (if b then m1 else m2).
Proof. now destruct b. Qed.

(** Every wait of a run is one of the two waits of the source. *)
Lemma convertCastToVideo_waits (env : Env) (inputPath : string)
    (options : ConvertOptions) :
  emits wait_shape (convertCastToVideo env inputPath options).
Proof.
  unfold convertCastToVideo, setupBrowser, setupPlayer, recordVideo.
  cbv zeta.
  repeat first
    [ apply emits_bind; [|intros ?]
    | apply emits_try_finally
    | apply emits_try_catch; [|intros ?]
    | apply emits_if
    | apply emits_lift
    | apply emits_ret
    | apply emits_throw
    | apply emits_process_on
    | apply emits_process_off
    | apply emits_emit
    | apply emits_await ];
    cbn [wait_shape]; auto.
Qed.

(** ** Runs without a signal *)

Lemma await_plain {A : Type} (env : Env) (e : event) (r : reply A) (st : state) :
  interrupt env = None ->
  await env e r st
  = (settle r, mkState (log st ++ [e]) (listeners st) (S (awaits st))).
Proof. intros H. unfold await. rewrite H. now destruct r. Qed.

Lemma setupPlayer_wait_fails (env : Env) (page : Page) (html : string)
    (st : state) (reason : string) (playerError : jsval) :
  interrupt env = None ->
  page_setContent env = Resolved tt ->
  wait_playerReady env = Rejected reason ->
  eval_playerError env = Resolved playerError ->
  setupPlayer env page html st
  = (Thrown (initialization_failure playerError),
     mkState
       (log st
        ++ [ESetContent html "domcontentloaded"; EPageOnConsole;
            EWaitForFunction ready_condition 15000; EEvaluate ReadPlayerError]
        ++ (if truthy playerError then
              [EConsola error ["Player initialization error:"; toString playerError]]
            else []))
       (listeners st) (3 + awaits st)).
Proof.
  intros Hi Hc Hw He.
  unfold setupPlayer, bind, try_catch, emit, initialization_failure.
  rewrite !await_plain, Hc, Hw by assumption. cbn.
  rewrite !await_plain, He by assumption. cbn.
  destruct (truthy playerError); cbn; rewrite <- !app_assoc; reflexivity.
Qed.

Lemma setupPlayer_waits_ready (env : Env) (page : Page) (html : string)
    (st : state) :
  interrupt env = None ->
  page_setContent env = Resolved tt ->
  exists l : list event,
    log (snd (setupPlayer env page html st))
    = (log st
       ++ [ESetContent html "domcontentloaded"; EPageOnConsole;
           EWaitForFunction ready_condition 15000] ++ l)%list.
Proof.
  intros Hi Hc.
  unfold setupPlayer, bind, try_catch, emit.
  rewrite !await_plain, Hc by assumption. cbn.
  rewrite ?await_plain by assumption.
  destruct (wait_playerReady env) as [[]|reason|]; cbn.
  - eexists. rewrite <- !app_assoc. reflexivity.
  - rewrite ?await_plain by assumption.
    destruct (eval_playerError env) as [v|msg|]; cbn;
      [destruct (truthy v); cbn|..];
      eexists; rewrite <- !app_assoc; reflexivity.
  - eexists. rewrite <- !app_assoc. reflexivity.
Qed.

(** C5, as the code has it.  [setupPlayer] loads the page and waits for
    readiness with a timeout of 15000 ms.  When that wait fails it reads the
    error flag of the page and throws: [Player failed to initialize: ]
    followed by the text of the flag when the flag is truthy (a string that
    is not empty), and [Player failed to initialize] alone otherwise.  No
    other wait of the pipeline has a timeout. *)
Theorem C5_setupPlayer (env : Env) (page : Page) (html : string) (st : state) :
  interrupt env = None ->
  page_setContent env = Resolved tt ->
  (exists l : list event,
     log (snd (setupPlayer env page html st))
     = (log st
        ++ [ESetContent html "domcontentloaded"; EPageOnConsole;
            EWaitForFunction ready_condition 15000] ++ l)%list)
  /\ (forall reason playerError,
        wait_playerReady env = Rejected reason ->
        eval_playerError env = Resolved playerError ->
        (truthy playerError = true ->
         fst (setupPlayer env page html st)
         = Thrown ("Player failed to initialize: " ++ toString playerError))
        /\ (truthy playerError = false ->
            fst (setupPlayer env page html st)
            = Thrown "Player failed to initialize"))
  /\ (forall env' inputPath options expr timeout,
        In (EWaitForFunction expr timeout)
           (log (snd (convertCastToVideo env' inputPath options initial))) ->
        timeout <> 0%N ->
        expr = ready_condition /\ timeout = 15000%N).
Proof.
  intros Hi Hc. split; [now apply setupPlayer_waits_ready|]. split.
  - intros reason playerError Hw He.
    rewrite (setupPlayer_wait_fails env page html st reason playerError)
      by assumption.
    unfold initialization_failure. split; intros ->; reflexivity.
  - intros env' inputPath options expr timeout Hin Hne.
    pose proof (convertCastToVideo_waits env' inputPath options initial
                  (Forall_nil _)) as H.
    rewrite Forall_forall in H. specialize (H _ Hin). cbn in H.
    destruct H as [H|[_ H]]; [exact H|contradiction].
Qed.

Lemma C5_setupPlayer_witness :
  fst (setupPlayer (mock_env boom) ThePage "<html></html>" initial)
  = Thrown "Player failed to initialize: boom".
Proof.
  exact (proj1 (proj1 (proj2 (C5_setupPlayer (mock_env boom) ThePage
                                "<html></html>" initial eq_refl eq_refl))
                  "Timeout" (Str "boom") eq_refl eq_refl) eq_refl).
Defined.

(** C5 as stated fails: the error flag is set, to the empty string, and the
    message is the generic one, which does not end with a colon, a space and
    the text of the flag. *)
Lemma C5_counterexample :
  eval_playerError (mock_env empty_error) = Resolved (Str EmptyString)
  /\ fst (setupPlayer (mock_env empty_error) ThePage "<html></html>" initial)
     = Thrown "Player failed to initialize"
  /\ ends_with (": " ++ EmptyString) "Player failed to initialize" = false.
Proof. repeat split. Qed.

(** C10.  When the wait for readiness fails and the error flag is falsy
    (undefined, null, false, zero, not-a-number or the empty string), the
    message is [Player failed to initialize] with nothing after it; the
    colon and the text are appended when, and only when, the flag is
    truthy: for a string, when it is not empty. *)
Theorem C10_falsy_error_flag (env : Env) (page : Page) (html : string)
    (st : state) (reason : string) (playerError : jsval) :
  interrupt env = None ->
  page_setContent env = Resolved tt ->
  wait_playerReady env = Rejected reason ->
  eval_playerError env = Resolved playerError ->
  (truthy playerError = false ->
   fst (setupPlayer env page html st) = Thrown "Player failed to initialize")
  /\ (forall text,
        playerError = Str text ->
        (fst (setupPlayer env page html st)
         = Thrown ("Player failed to initialize: " ++ text)
         <-> text <> EmptyString)
        /\ (fst (setupPlayer env page html st)
            = Thrown "Player failed to initialize"
            <-> text = EmptyString))
  /\ truthy (Str EmptyString) = false
  /\ truthy Undefined = false
  /\ truthy Null = false.
Proof.
  intros Hi Hc Hw He.
  rewrite (setupPlayer_wait_fails env page html st reason playerError)
    by assumption.
  unfold initialization_failure. cbn [fst].
  split; [now intros ->|]. split; [|now repeat split].
  intros text ->. destruct text as [|c r]; cbn.
  - split; split; congruence.
  - split; split; congruence.
Qed.

Lemma C10_falsy_error_flag_witness :
  fst (setupPlayer (mock_env empty_error) ThePage "<html></html>" initial)
  = Thrown "Player failed to initialize".
Proof.
  exact (proj1 (C10_falsy_error_flag (mock_env empty_error) ThePage
                  "<html></html>" initial "Timeout" (Str EmptyString)
                  eq_refl eq_refl eq_refl eq_refl) eq_refl).
Defined.

(** ** [recordVideo] *)

Lemma bind_emit {B : Type} (e : event) (k : unit -> M B) (st : state) :
  bind (emit e) k st = k tt (mkState (log st ++ [e]) (listeners st) (awaits st)).
Proof. reflexivity. Qed.

Lemma not_in_snoc {A : Type} (x e : A) (l : list A) :
  ~ In x l -> x <> e -> ~ In x (l ++ [e]).
Proof.
  intros Hl He H. apply in_app_or in H as [H|[H|[]]]; [now apply Hl|].
  now apply He.
Qed.

(** A call other than those of the signal listener is in the log of
    [await ... ;; k] only if it was there before, is the awaited call, or
    the await resolved and the continuation made it. *)
Lemma bind_await_reaches {A B : Type} (env : Env) (x e : event) (r : reply A)
    (k : A -> M B) (st : state) :
  x <> e -> x <> EBrowserClose -> x <> EProcessExit 1 -> ~ In x (log st) ->
  In x (log (snd (bind (await env e r) k st))) ->
  exists a,
    r = Resolved a
    /\ In x (log (snd (k a (mkState (log st ++ [e]) (listeners st)
                             (S (awaits st)))))).
Proof.
  intros He Hc Hx Hst Hin.
  assert (H1 : ~ In x (log st ++ [e])) by now apply not_in_snoc.
  assert (H2 : ~ In x ((log st ++ [e]) ++ [EBrowserClose]))
    by now apply not_in_snoc.
  assert (H3 : ~ In x (((log st ++ [e]) ++ [EBrowserClose]) ++ [EProcessExit 1]))
    by now apply not_in_snoc.
  unfold bind, await, cleanup in Hin.
  destruct (interrupt env) as [[n s]|].
  - destruct (n =? awaits st)%nat.
    + destruct (existsb (signal_eqb s) (listeners st)).
      * destruct (browser_close env); cbn in Hin; contradiction.
      * cbn in Hin. contradiction.
    + destruct r as [a|msg|]; cbn in Hin; try contradiction. now exists a.
  - destruct r as [a|msg|]; cbn in Hin; try contradiction. now exists a.
Qed.

(** The recorder is stopped only after the unbounded wait resolved, which
    comes after playback was triggered and capture had started. *)
Lemma recordVideo_stop_after_wait (env : Env) (page : Page)
    (outputPath : string) (options : ParsedOptions) (st : state) :
  ~ In ERecorderStop (log st) ->
  In ERecorderStop (log (snd (recordVideo env page outputPath options st))) ->
  recorder_start env = Resolved tt
  /\ eval_play env = Resolved tt
  /\ wait_playerEnded env = Resolved tt.
Proof.
  intros Hnot Hin. unfold recordVideo in Hin.
  apply bind_await_reaches in Hin as (ffmpegPath & _ & Hin);
    [|discriminate..|assumption].
  rewrite !bind_emit in Hin. cbn [log listeners awaits] in Hin.
  apply bind_await_reaches in Hin as ([] & Hstart & Hin);
    [|discriminate..|repeat apply not_in_snoc; (assumption || discriminate)].
  rewrite !bind_emit in Hin. cbn [log listeners awaits] in Hin.
  apply bind_await_reaches in Hin as ([] & Hplay & Hin);
    [|discriminate..|repeat apply not_in_snoc; (assumption || discriminate)].
  apply bind_await_reaches in Hin as ([] & Hwait & Hin);
    [|discriminate..|repeat apply not_in_snoc; (assumption || discriminate)].
  now repeat split.
Qed.

(** C6.  [recordVideo] makes the recorder for 60 frames per second and a
    frame of the parsed width and height, starts it on the output path,
    triggers playback, waits for the ended flag with timeout 0 (no timeout),
    and then stops the recorder; in no run is the recorder stopped unless
    that wait resolved. *)
Theorem C6_recordVideo (env : Env) (page : Page) (outputPath : string)
    (options : ParsedOptions) (st : state) (ffmpegPath : string) :
  interrupt env = None ->
  import_ffmpeg env = Resolved ffmpegPath ->
  recorder_start env = Resolved tt ->
  eval_play env = Resolved tt ->
  wait_playerEnded env = Resolved tt ->
  recorder_stop env = Resolved tt ->
  recordVideo env page outputPath options st
  = (Returned tt,
     mkState
       (log st
        ++ [EImportFfmpeg;
            ERecorderNew
              {| followNewTab := false;
                 fps := 60;
                 ffmpeg_Path := ffmpegPath;
                 videoFrame := (width options, height options) |};
            EConsola start ["Starting recording..."];
            ERecorderStart outputPath;
            EConsola info ["Starting playback..."];
            EEvaluate PlayerPlay;
            EWaitForFunction ended_condition 0;
            EConsola info ["Stopping recording..."];
            ERecorderStop])
       (listeners st) (5 + awaits st))
  /\ (forall env' st',
        ~ In ERecorderStop (log st') ->
        In ERecorderStop
           (log (snd (recordVideo env' page outputPath options st'))) ->
        recorder_start env' = Resolved tt
        /\ eval_play env' = Resolved tt
        /\ wait_playerEnded env' = Resolved tt).
Proof.
  intros Hi Hf Hs Hp Hw Hx. split.
  - unfold recordVideo, bind, emit.
    rewrite Hf, Hs, Hp, Hw, Hx.
    repeat (rewrite await_plain by assumption; cbn).
    rewrite <- !app_assoc. reflexivity.
  - intros env' st'. apply recordVideo_stop_after_wait.
Qed.

Lemma C6_recordVideo_witness :
  let options := parseOptions default_options in
  fst (recordVideo (mock_env happy) ThePage "/absolute/output.mp4" options initial)
  = Returned tt
  /\ In (ERecorderNew
           (mkRecorderOptions false 60 "/path/to/ffmpeg"
              (Dec false 800 0, Dec false 600 0)))
        (log (snd (recordVideo (mock_env happy) ThePage "/absolute/output.mp4"
                     options initial))).
Proof.
  intros options.
  rewrite (proj1 (C6_recordVideo (mock_env happy) ThePage "/absolute/output.mp4"
                    options initial "/path/to/ffmpeg"
                    eq_refl eq_refl eq_refl eq_refl eq_refl eq_refl)).
  split; [reflexivity|]. vm_compute. auto.
Defined.

(** ** Rules for code that runs without listeners *)

Lemma quiet_ret {A : Type} (a : A) : quiet (ret a).
Proof. now intros st H. Qed.

Lemma quiet_throw {A : Type} (msg : string) : quiet (@throw A msg).
Proof. now intros st H. Qed.

Lemma quiet_lift {A : Type} (r : result A) : quiet (lift r).
Proof. destruct r; [apply quiet_ret|apply quiet_throw]. Qed.

Lemma quiet_emit (e : event) :
  is_close e = false -> is_process_on e = false -> quiet (emit e).
Proof.
  intros Hc Hp st H. unfold emit. cbn [snd log listeners].
  now rewrite closes_app, session_opened_app, Hc, Hp, Nat.add_0_r, orb_false_r.
Qed.

Lemma quiet_await {A : Type} (env : Env) (e : event) (r : reply A) :
  is_close e = false -> is_process_on e = false -> quiet (await env e r).
Proof.
  intros Hc Hp st H. unfold await. rewrite H. cbn [existsb].
  assert (G : closes (log st ++ [e]) = closes (log st)
              /\ session_opened (log st ++ [e]) = session_opened (log st)).
  { now rewrite closes_app, session_opened_app, Hc, Hp, Nat.add_0_r, orb_false_r. }
  destruct (interrupt env) as [[k s]|];
    [destruct (k =? awaits st)%nat|]; try destruct r;
    cbn [snd log listeners]; (split; [reflexivity|exact G]).
Qed.

Lemma quiet_bind {A B : Type} (m : M A) (k : A -> M B) :
  quiet m -> (forall a, quiet (k a)) -> quiet (bind m k).
Proof.
  intros Hm Hk st H. unfold bind. specialize (Hm st H).
  destruct (m st) as [[a| | | |] st1]; cbn [snd] in *; try assumption.
  destruct Hm as (H1 & H2 & H3).
  destruct (Hk a st1 H1) as (G1 & G2 & G3). now rewrite G1, G2, G3.
Qed.

Lemma setupBrowser_quiet (env : Env) (options : ParsedOptions) :
  quiet (setupBrowser env options).
Proof.
  unfold setupBrowser.
  repeat first [apply quiet_bind; [|intros ?] | apply quiet_await
               | apply quiet_ret]; reflexivity.
Qed.

(** ** Rules for code that runs under the listeners *)

Lemma guarded_ret {A : Type} (a : A) : guarded (ret a).
Proof. now intros st H. Qed.

Lemma guarded_throw {A : Type} (msg : string) : guarded (@throw A msg).
Proof. now intros st H. Qed.

Lemma guarded_emit (e : event) : is_close e = false -> guarded (emit e).
Proof.
  intros Hc st H. unfold emit. cbn [fst snd log listeners].
  now rewrite closes_app, Hc, Nat.add_0_r.
Qed.

Lemma guarded_await {A : Type} (env : Env) (e : event) (r : reply A) :
  is_close e = false -> guarded (await env e r).
Proof.
  intros Hc st H. unfold await, cleanup.
  assert (G : closes (log st ++ [e]) = closes (log st))
    by now rewrite closes_app, Hc, Nat.add_0_r.
  destruct (interrupt env) as [[k s]|].
  - destruct (k =? awaits st)%nat.
    + rewrite (H s).
      destruct (browser_close env); cbn [fst snd log listeners];
        rewrite ?closes_app, ?Hc; cbn [is_close]; auto; split; lia.
    + destruct r; cbn [fst snd log listeners]; auto.
  - destruct r; cbn [fst snd log listeners]; auto.
Qed.

Lemma guarded_bind {A B : Type} (m : M A) (k : A -> M B) :
  guarded m -> (forall a, guarded (k a)) -> guarded (bind m k).
Proof.
  intros Hm Hk st H. unfold bind. specialize (Hm st H).
  destruct (m st) as [[a| | | |] st1]; cbn [fst snd] in *; try assumption.
  destruct Hm as [H1 H2].
  assert (H' : all_listened st1) by (intros s; rewrite H2; apply H).
  specialize (Hk a st1 H').
  destruct (fst (k a st1)); rewrite <- ?H1, <- ?H2; assumption.
Qed.

Lemma guarded_try_catch {A : Type} (m : M A) (h : string -> M A) :
  guarded m -> (forall msg, guarded (h msg)) -> guarded (try_catch m h).
Proof.
  intros Hm Hh st H. unfold try_catch. specialize (Hm st H).
  destruct (m st) as [[a| | | |] st1]; cbn [fst snd] in *; try assumption.
  destruct Hm as [H1 H2].
  assert (H' : all_listened st1) by (intros s; rewrite H2; apply H).
  specialize (Hh msg st1 H').
  destruct (fst (h msg st1)); rewrite <- ?H1, <- ?H2; assumption.
Qed.

Lemma guarded_if {A : Type} (b : bool) (m1 m2 : M A) :
  guarded m1 -> guarded m2 -> guarded (if b then m1 else m2).
Proof. now destruct b. Qed.

Ltac guarded_rules :=
  repeat first
    [ apply guarded_bind; [|intros ?]
    | apply guarded_try_catch; [|intros ?]
    | apply guarded_if
    | apply guarded_ret
    | apply guarded_throw
    | apply guarded_emit
    | apply guarded_await ];
  try reflexivity.

Lemma setupPlayer_guarded (env : Env) (page : Page) (html : string) :
  guarded (setupPlayer env page html).
Proof. unfold setupPlayer. guarded_rules. Qed.

Lemma recordVideo_guarded (env : Env) (page : Page) (outputPath : string)
    (options : ParsedOptions) :
  guarded (recordVideo env page outputPath options).
Proof. unfold recordVideo. guarded_rules. Qed.

(** ** The cleanup of [convertCastToVideo] *)

Lemma no_listener_left (s : signal) (l : list signal) :
  existsb (signal_eqb s)
    (filter (fun x => negb (signal_eqb x SIGTERM))
       (filter (fun x => negb (signal_eqb x SIGINT)) l)) = false.
Proof.
  induction l as [|[] l IH]; [reflexivity|exact IH|exact IH].
Qed.

(** The [finally] block closes the browser once, whatever state it starts
    in and however its own call ends, and does not end by [process.exit]. *)
Lemma finally_closes_once (env : Env) (st : state) :
  let r := (process_off SIGINT ;; process_off SIGTERM ;;
            await env EBrowserClose (browser_close env)) st in
  closes (log (snd r)) = S (closes (log st))
  /\ (forall c, fst r <> Exited c)
  /\ session_opened (log (snd r)) = session_opened (log st).
Proof.
  cbv zeta. unfold bind, process_off, await. cbn [log listeners awaits].
  assert (G : closes (((log st ++ [EProcessOff SIGINT]) ++ [EProcessOff SIGTERM])
                      ++ [EBrowserClose]) = S (closes (log st))).
  { rewrite !closes_app. cbn. lia. }
  assert (G' : session_opened
                 (((log st ++ [EProcessOff SIGINT]) ++ [EProcessOff SIGTERM])
                  ++ [EBrowserClose]) = session_opened (log st)).
  { rewrite !session_opened_app. cbn. now rewrite !orb_false_r. }
  destruct (interrupt env) as [[k s]|];
    [destruct (k =? awaits st)%nat; [rewrite no_listener_left|]|];
    try destruct (browser_close env); cbn [fst snd log]; repeat split;
    try assumption; discriminate.
Qed.

(** ** [convertCastToVideo] *)

Lemma bind_ret_run {A B : Type} (m : M A) (b : B) (st : state) :
  snd (bind m (fun _ => ret b) st) = snd (m st)
  /\ (forall c, fst (bind m (fun _ => ret b) st) = Exited c ->
                fst (m st) = Exited c).
Proof.
  unfold bind, ret. destruct (m st) as [[a| | | |] st1]; cbn;
    split; try reflexivity; intros c H; congruence.
Qed.

Lemma bind_throw_run {A B : Type} (m : M A) (msg : string) (st : state) :
  snd (bind m (fun _ => @throw B msg) st) = snd (m st)
  /\ (forall c, fst (bind m (fun _ => @throw B msg) st) = Exited c ->
                fst (m st) = Exited c).
Proof.
  unfold bind, throw. destruct (m st) as [[a| | | |] st1]; cbn;
    split; try reflexivity; intros c H; congruence.
Qed.

(** Before the session is opened nothing is asked of a run that stops. *)
Lemma quiet_then {A B : Type} (m : M A) (k : A -> M B) :
  quiet m ->
  (forall a st1,
     listeners st1 = [] -> closes (log st1) = 0 ->
     session_opened (log st1) = false -> closed_once (k a st1)) ->
  forall st,
    listeners st = [] -> closes (log st) = 0 ->
    session_opened (log st) = false -> closed_once (bind m k st).
Proof.
  intros Hm Hk st L C S. destruct (Hm st L) as (L1 & C1 & S1).
  unfold bind. destruct (m st) as [[a| | | |] st1]; cbn [snd] in *;
    try (intros Hopen; cbn [snd] in Hopen; congruence).
  apply Hk; congruence.
Qed.

(** Once the listeners are registered, a body that does not close the
    browser itself leaves it closed exactly once: by the [finally] block
    when the body returns or throws, by the listener when a signal
    arrives. *)
Lemma guarded_session (env : Env) (body : M unit) (st : state) :
  guarded body ->
  listeners st = [] -> closes (log st) = 0 ->
  closed_once
    ((process_on SIGINT ;;
      process_on SIGTERM ;;
      try_finally body
        (process_off SIGINT ;;
         process_off SIGTERM ;;
         await env EBrowserClose (browser_close env))) st).
Proof.
  intros Hbody L C.
  set (final := (process_off SIGINT ;; process_off SIGTERM ;;
                 await env EBrowserClose (browser_close env))).
  set (st2 := mkState ((log st ++ [EProcessOn SIGINT]) ++ [EProcessOn SIGTERM])
                [SIGTERM; SIGINT] (awaits st)).
  assert (E : (process_on SIGINT ;; process_on SIGTERM ;; try_finally body final) st
              = try_finally body final st2).
  { unfold bind, process_on. cbn [log listeners awaits]. now rewrite L. }
  rewrite E. clear E.
  assert (Hall : all_listened st2) by (intros []; reflexivity).
  assert (C2 : closes (log st2) = 0).
  { unfold st2. cbn [log]. rewrite !closes_app, C. reflexivity. }
  specialize (Hbody st2 Hall). unfold try_finally.
  destruct (body st2) as [[a|msg| |c|s] st3]; cbn [fst snd] in Hbody.
  - destruct Hbody as [H1 _].
    destruct (finally_closes_once env st3) as (F1 & F2 & _). fold final in F1, F2.
    destruct (bind_ret_run final a st3) as [R1 R2].
    intros _ _. rewrite R1, F1, H1, C2. split; [reflexivity|].
    intros c Hc. now apply R2, F2 in Hc.
  - destruct Hbody as [H1 _].
    destruct (finally_closes_once env st3) as (F1 & F2 & _). fold final in F1, F2.
    destruct (bind_throw_run (B := unit) final msg st3) as [R1 R2].
    intros _ _. rewrite R1, F1, H1, C2. split; [reflexivity|].
    intros c Hc. now apply R2, F2 in Hc.
  - intros _ Hp. now contradiction Hp.
  - destruct Hbody as [-> H1]. intros _ _. cbn [fst snd].
    rewrite H1, C2. split; [reflexivity|]. intros c Hc. congruence.
  - contradiction.
Qed.

Lemma convertCastToVideo_closed_once (env : Env) (inputPath : string)
    (options : ConvertOptions) :
  closed_once (convertCastToVideo env inputPath options initial).
Proof.
  unfold convertCastToVideo. cbv zeta.
  apply quiet_then; [apply quiet_lift| |reflexivity..].
  intros inputAbsPath st1 L1 C1 S1.
  apply quiet_then; [now apply quiet_emit| |assumption..].
  intros _ st2 L2 C2 S2.
  apply quiet_then; [apply quiet_lift| |assumption..].
  intros paths st3 L3 C3 S3.
  apply quiet_then; [apply quiet_lift| |assumption..].
  intros playerAssets st4 L4 C4 S4.
  apply quiet_then; [apply quiet_lift| |assumption..].
  intros castContent st5 L5 C5 S5.
  apply quiet_then; [apply setupBrowser_quiet| |assumption..].
  intros session st6 L6 C6 S6.
  apply guarded_session; [|assumption..].
  apply guarded_bind; [apply setupPlayer_guarded|intros _].
  apply guarded_bind; [apply recordVideo_guarded|intros _].
  now apply guarded_emit.
Qed.

(** ** The embedding on the inputs of the test suite *)

Example parseOptions_test :
  parseOptions (mkConvertOptions "test.mp4" "1200" "800" dracula "1.5" "2")
  = mkParsedOptions "test.mp4" (Dec false 1200 0) (Dec false 800 0) dracula
      (Dec false 15 (-1)) (Dec false 2 0).
Proof. vm_compute. reflexivity. Qed.

(** Rounding to binary64, on literals whose nearest value is not their own:
    beyond [2 ^ 53], beyond the largest and below the least value, and with
    more digits than a value holds. *)
Example binary64_test :
  map (fun s => numberToString (parseFloat s))
    ["9007199254740993"; "99999999999999999999999"; "1e400"; "-1e400";
     "1e-400"; "1.0000000000000000001"; "0.1"; "0.30000000000000004";
     "0.3000000000000000444089209850062616169452667236328125";
     "5e-324"; "2e-324"; "3e-324"; "1.7976931348623157e308";
     "1.7976931348623159e308"; "123456789012345678"; "1e21"; "1e-7"; "-0"]
  = ["9007199254740992"; "1e+23"; "Infinity"; "-Infinity";
     "0"; "1"; "0.1"; "0.30000000000000004";
     "0.30000000000000004";
     "5e-324"; "0"; "5e-324"; "1.7976931348623157e+308";
     "Infinity"; "123456789012345680"; "1e+21"; "1e-7"; "0"]
  /\ map (fun s => numberToString (parseInt s 10))
       ["9007199254740993px"; " -42"; "0012"; "18014398509481985"]
     = ["9007199254740992"; "-42"; "12"; "18014398509481984"].
Proof. split; vm_compute; reflexivity. Qed.

Example numberToString_test :
  map numberToString
    [Dec false 1 0; Dec false 15 (-1); Dec false 2 0; Dec true 5 (-4);
     Dec false 123456 (-3); Dec false 1 21; Dec false 1 20; Dec false 1 (-7);
     Dec true 0 0; NaN; Infinity true]
  = ["1"; "1.5"; "2"; "-0.0005"; "123.456"; "1e+21"; "100000000000000000000";
     "1e-7"; "0"; "NaN"; "-Infinity"].
Proof. vm_compute. reflexivity. Qed.

Example createCastDataUri_test :
  createCastDataUri sample_cast
  = "data:application/json;base64,eyJ2ZXJzaW9uIjogMiwgIndpZHRoIjogODAsICJoZWlnaHQiOiAyNH0="
  /\ base64_encode "Many hands make light work."
     = "TWFueSBoYW5kcyBtYWtlIGxpZ2h0IHdvcmsu".
Proof. split; vm_compute; reflexivity. Qed.

(** The ways a run ends when no signal arrives: it returns, the player
    fails to initialize, the recording fails, or the browser gives no
    page. *)
Example exit_paths :
  let run sc := convertCastToVideo (mock_env sc) "input.cast" default_options initial in
  map (fun sc => (fst (run sc), closes (log (snd (run sc)))))
    [happy; boom; recording_fails; no_page]
  = [(Returned tt, 1);
     (Thrown "Player failed to initialize: boom", 1);
     (Thrown "Target closed", 1);
     (Thrown "Protocol error", 0)].
Proof. vm_compute. reflexivity. Qed.

(** * Further properties *)

(** ** The body of the data URI *)

Lemma base64_char_text (x : N) : (x < 64)%N -> base64_text (base64_char x) = true.
Proof.
  intros Hx.
  exact (all_below_spec 64 (fun x => base64_text (base64_char x))
           ltac:(vm_compute; reflexivity) x Hx).
Qed.

Lemma base64_encode_text (s : string) :
  forall_chars base64_text (base64_encode s) = true.
Proof.
  induction s as [|a|a b|a b c r IH] using string_ind3;
    cbn [base64_encode forall_chars];
    rewrite ?base64_char_text, ?IH
      by (first [apply enc1_lt | apply enc2_lt | apply enc3_lt | apply enc4_lt];
          (apply code_byte || reflexivity));
    reflexivity.
Qed.

Lemma base64_encode_length (s : string) :
  String.length (base64_encode s) = 4 * ((String.length s + 2) / 3).
Proof.
  induction s as [|a|a b|a b c r IH] using string_ind3; try reflexivity.
  cbn [base64_encode String.length]. rewrite IH.
  replace (S (S (S (String.length r))) + 2)
    with ((String.length r + 2) + 1 * 3) by lia.
  rewrite Nat.div_add by discriminate. lia.
Qed.

(** X1.  The data URI is the prefix followed by a body of four characters
    for every three bytes of the content, the last group padded; every
    character of the body is of the base64 alphabet or the padding. *)
Theorem X1_data_uri_body (castContent : string) :
  exists body,
    createCastDataUri castContent = data_uri_prefix ++ body
    /\ String.length body = 4 * ((String.length castContent + 2) / 3)
    /\ forall_chars base64_text body = true
    /\ String.length (createCastDataUri castContent)
       = 29 + 4 * ((String.length castContent + 2) / 3).
Proof.
  exists (base64_encode castContent). unfold createCastDataUri.
  split; [reflexivity|]. split; [apply base64_encode_length|].
  split; [apply base64_encode_text|].
  rewrite string_length_app, base64_encode_length. reflexivity.
Qed.

(** ** Strings that get the same data URI *)

(** The data URI determines the bytes of the content. *)
Lemma createCastDataUri_injective (a b : string) :
  createCastDataUri a = createCastDataUri b -> a = b.
Proof.
  unfold createCastDataUri. intros H.
  apply (f_equal (strip_prefix data_uri_prefix)) in H.
  rewrite !strip_prefix_app in H. injection H as H.
  apply (f_equal base64_decode) in H.
  now rewrite !base64_decode_encode in H.
Qed.

Lemma code_of_byte (n : N) : (n < 256)%N -> code (ascii_of_N n) = n.
Proof. apply N_ascii_embedding. Qed.

Ltac divmod a k :=
  pose proof (N.div_mod' a k);
  pose proof (N.mod_lt a k ltac:(discriminate)).

Lemma utf8_first_utf8 (cp : N) (r : string) :
  (cp < 1114112)%N -> utf8_first (utf8 cp ++ r) = Some (cp, r).
Proof.
  intros H. unfold utf8, byte.
  divmod cp 64%N. divmod (cp / 64)%N 64%N. divmod (cp / 64 / 64)%N 64%N.
  assert (E1 : (cp / 4096 = cp / 64 / 64)%N)
    by (rewrite N.Div0.div_div; reflexivity).
  assert (E2 : (cp / 262144 = cp / 64 / 64 / 64)%N)
    by (rewrite !N.Div0.div_div; reflexivity).
  rewrite E1, E2.
  set (a := (cp / 64)%N) in *. set (b := (a / 64)%N) in *.
  set (c := (b / 64)%N) in *.
  set (x := (cp mod 64)%N) in *. set (y := (a mod 64)%N) in *.
  set (z := (b mod 64)%N) in *.
  destruct (N.ltb_spec cp 128); [|destruct (N.ltb_spec cp 2048);
    [|destruct (N.ltb_spec cp 65536)]];
    cbn [append utf8_first]; rewrite !code_of_byte by lia.
  - destruct (N.ltb_spec cp 128); [reflexivity|lia].
  - destruct (N.ltb_spec (192 + a) 128); [lia|].
    destruct (N.ltb_spec (192 + a) 224); [|lia].
    f_equal. f_equal. lia.
  - destruct (N.ltb_spec (224 + b) 128); [lia|].
    destruct (N.ltb_spec (224 + b) 224); [lia|].
    destruct (N.ltb_spec (224 + b) 240); [|lia].
    f_equal. f_equal. lia.
  - destruct (N.ltb_spec (240 + c) 128); [lia|].
    destruct (N.ltb_spec (240 + c) 224); [lia|].
    destruct (N.ltb_spec (240 + c) 240); [lia|].
    f_equal. f_equal. lia.
Qed.

Lemma utf8_injective (l1 : list N) :
  forall l2,
    Forall (fun cp => (cp < 1114112)%N) l1 ->
    Forall (fun cp => (cp < 1114112)%N) l2 ->
    fold_right (fun cp bytes => utf8 cp ++ bytes) EmptyString l1
    = fold_right (fun cp bytes => utf8 cp ++ bytes) EmptyString l2 ->
    l1 = l2.
Proof.
  induction l1 as [|c1 l1 IH]; intros [|c2 l2] H1 H2 E; cbn [fold_right] in E.
  - reflexivity.
  - apply (f_equal utf8_first) in E.
    rewrite utf8_first_utf8 in E by now inversion H2. discriminate.
  - apply (f_equal utf8_first) in E.
    rewrite utf8_first_utf8 in E by now inversion H1. discriminate.
  - apply (f_equal utf8_first) in E.
    rewrite (utf8_first_utf8 c1), (utf8_first_utf8 c2) in E
      by (inversion H1; inversion H2; assumption).
    injection E as -> E. f_equal.
    apply IH; [now inversion H1|now inversion H2|exact E].
Qed.

(** On a string without a surrogate on its own the code points give back
    the code units. *)
Lemma code_points_units (n : nat) :
  forall l,
    List.length l <= n -> well_formed l = true ->
    flat_map units_of (code_points l) = l
    /\ Forall (fun cp => (cp < 1114112)%N) (code_points l).
Proof.
  induction n as [|n IH]; intros [|h r] Hn Hw; simpl in Hn; try lia;
    try (split; [reflexivity|constructor]).
  cbn [code_points well_formed] in *. unfold is_high_surrogate, is_low_surrogate in *.
  destruct ((55296 <=? h) && (h <=? 56319))%N eqn:Eh.
  - destruct r as [|lo r']; [discriminate|].
    apply andb_true_iff in Hw as [Hlo Hw]. rewrite Hlo.
    apply andb_true_iff in Eh as [Eh1 Eh2]. apply andb_true_iff in Hlo as [El1 El2].
    apply N.leb_le in Eh1, Eh2, El1, El2.
    destruct (IH r' ltac:(simpl in Hn; lia) Hw) as [E F].
    cbn [flat_map]. rewrite E. split; [|constructor; [lia|exact F]].
    unfold units_of.
    destruct (N.ltb_spec (65536 + (h - 55296) * 1024 + (lo - 56320)) 65536);
      [lia|].
    replace (65536 + (h - 55296) * 1024 + (lo - 56320) - 65536)%N
      with ((lo - 56320) + (h - 55296) * 1024)%N by lia.
    rewrite N.div_add, N.Div0.mod_add by discriminate.
    rewrite N.div_small, N.mod_small by lia.
    cbn [app]. f_equal; [lia|]. f_equal. lia.
  - apply andb_true_iff in Hw as [Hw Hr]. apply andb_true_iff in Hw as [Hl Hh].
    apply negb_true_iff in Hl. rewrite Hl. apply N.ltb_lt in Hh.
    destruct (IH r ltac:(lia) Hr) as [E F].
    cbn [flat_map]. rewrite E. split; [|constructor; [lia|exact F]].
    unfold units_of. destruct (N.ltb_spec h 65536); [reflexivity|lia].
Qed.

(** [Buffer.from] tells strings without a surrogate on its own apart. *)
Lemma Buffer_from_injective (u v : list N) :
  well_formed u = true -> well_formed v = true ->
  Buffer_from u = Buffer_from v -> u = v.
Proof.
  intros Hu Hv E.
  destruct (code_points_units (List.length u) u (le_n _) Hu) as [Eu Fu].
  destruct (code_points_units (List.length v) v (le_n _) Hv) as [Ev Fv].
  apply utf8_injective in E; [|assumption..].
  rewrite <- Eu, <- Ev. now rewrite E.
Qed.

Example Buffer_from_test :
  map Buffer_from [[123; 125]; [233]; [8364]; [55357; 56832]; [55296]; [65533]]%N
  = map bytes
      [[123; 125]; [195; 169]; [226; 130; 172]; [240; 159; 152; 128];
       [239; 191; 189]; [239; 191; 189]].
Proof. vm_compute. reflexivity. Qed.

(** X2.  Strings in which no surrogate stands on its own (every string
    decoded from UTF-8 is one) get different data URIs when they differ.
    Other strings need not: a surrogate on its own is written as U+FFFD, so
    the string of U+D800 alone and the string of U+FFFD get the same data
    URI. *)
Theorem X2_data_uri_injective (u v : list N) :
  (well_formed u = true -> well_formed v = true -> u <> v ->
   createCastDataUri (Buffer_from u) <> createCastDataUri (Buffer_from v))
  /\ createCastDataUri (Buffer_from [55296%N])
     = createCastDataUri (Buffer_from [65533%N]).
Proof.
  split; [|reflexivity].
  intros Hu Hv Hne E. apply Hne.
  now apply Buffer_from_injective, createCastDataUri_injective.
Qed.

Lemma X2_data_uri_injective_witness :
  createCastDataUri (Buffer_from [123; 125]%N)
  <> createCastDataUri (Buffer_from [91; 93]%N).
Proof.
  exact (proj1 (X2_data_uri_injective [123; 125]%N [91; 93]%N)
           eq_refl eq_refl ltac:(discriminate)).
Defined.

(** ** What is spliced into the bootstrap script *)

Lemma base64_text_safe (c : ascii) : base64_text c = true -> literal_safe c = true.
Proof.
  unfold base64_text, literal_safe. intros H.
  apply orb_true_iff in H as [H|H].
  - cbn in H.
    repeat (apply orb_true_iff in H as [H|H];
            [apply Ascii.eqb_eq in H; subst c; reflexivity|]).
    discriminate.
  - apply Ascii.eqb_eq in H. now subst c.
Qed.

Lemma number_text_safe (c : ascii) : number_text c = true -> literal_safe c = true.
Proof.
  unfold number_text, literal_safe. intros H.
  apply orb_true_iff in H as [H|H].
  - apply is_digit_range in H. cases_N.
  - cbn in H.
    repeat (apply orb_true_iff in H as [H|H];
            [apply Ascii.eqb_eq in H; subst c; reflexivity|]).
    discriminate.
Qed.

(** X3.  What the pipeline splices into the string and number literals of
    the bootstrap script cannot end a literal early: the data URI of any
    content, the name of any theme and the text of any number hold no
    single quote, no backslash and no line break. *)
Theorem X3_splices_literal_safe (castContent : string) (t : Theme) (x : number) :
  forall_chars literal_safe (createCastDataUri castContent) = true
  /\ forall_chars literal_safe (theme_name t) = true
  /\ forall_chars literal_safe (numberToString x) = true.
Proof.
  split; [|split].
  - unfold createCastDataUri. rewrite forall_chars_app.
    apply andb_true_iff. split; [reflexivity|].
    apply (forall_chars_impl base64_text); [apply base64_text_safe|].
    apply base64_encode_text.
  - now destruct t.
  - apply (forall_chars_impl number_text); [apply number_text_safe|].
    apply numberToString_text.
Qed.

(** ** Signed numerals *)

(** X4.  [parseOptions] checks no bound: digits after a minus sign are read
    as the negative number, in the dimensions and in the factors alike: the
    negative integer itself below [2 ^ 53] in magnitude, the nearest
    binary64 value from there on. *)
Theorem X4_parseOptions_negative (o : ConvertOptions) (d : string) :
  d <> EmptyString -> all_digits d = true ->
  (co_width o = "-" ++ d ->
   width (parseOptions o) = binary64 true (decimal_value d) 0
   /\ ((decimal_value d < 2 ^ 53)%N ->
       width (parseOptions o) = Dec true (decimal_value d) 0))
  /\ (co_height o = "-" ++ d ->
      height (parseOptions o) = binary64 true (decimal_value d) 0
      /\ ((decimal_value d < 2 ^ 53)%N ->
          height (parseOptions o) = Dec true (decimal_value d) 0))
  /\ (co_speed o = "-" ++ d ->
      speed (parseOptions o) = binary64 true (decimal_value d) 0
      /\ ((decimal_value d < 2 ^ 53)%N ->
          speed (parseOptions o) = Dec true (decimal_value d) 0))
  /\ (co_scale o = "-" ++ d ->
      scale (parseOptions o) = binary64 true (decimal_value d) 0
      /\ ((decimal_value d < 2 ^ 53)%N ->
          scale (parseOptions o) = Dec true (decimal_value d) 0)).
Proof.
  intros Hne Hd. unfold parseOptions; cbn [width height speed scale].
  assert (Hs : signed (d ++ EmptyString) ("-" ++ d) true).
  { rewrite <- (append_empty_r d) at 2. constructor. }
  assert (Hi : forall raw,
             raw = "-" ++ d ->
             parseInt raw 10 = binary64 true (decimal_value d) 0
             /\ ((decimal_value d < 2 ^ 53)%N ->
                 parseInt raw 10 = Dec true (decimal_value d) 0)).
  { intros raw ->.
    now apply (proj1 (parseInt_reads _) _ true d EmptyString (aws_here _) Hs). }
  assert (Hf : forall raw,
             raw = "-" ++ d ->
             parseFloat raw = binary64 true (decimal_value d) 0
             /\ ((decimal_value d < 2 ^ 53)%N ->
                 parseFloat raw = Dec true (decimal_value d) 0)).
  { intros raw ->.
    assert (Hm : mantissa d EmptyString EmptyString).
    { split; [exact Hd|]. split; [reflexivity|]. left. now repeat split. }
    destruct (proj1 (parseFloat_reads ("-" ++ d)) _ true d EmptyString
                EmptyString EmptyString (aws_here _) Hs Hm eq_refl
                (fun _ => eq_refl) eq_refl) as [E1 E2].
    rewrite append_empty_r in E1. split; [exact E1|]. now apply E2. }
  split; [apply Hi|]. split; [apply Hi|]. split; apply Hf.
Qed.

Lemma X4_parseOptions_negative_witness :
  width (parseOptions (mkConvertOptions "output.mp4" "-800" "600" asciinema "-1" "2"))
  = Dec true 800 0
  /\ speed (parseOptions (mkConvertOptions "output.mp4" "-800" "600" asciinema "-1" "2"))
     = Dec true 1 0.
Proof.
  split.
  - exact (proj2 (proj1 (X4_parseOptions_negative
                    (mkConvertOptions "output.mp4" "-800" "600" asciinema "-1" "2")
                    "800" ltac:(discriminate) eq_refl) eq_refl) eq_refl).
  - exact (proj2 (proj1 (proj2 (proj2 (X4_parseOptions_negative
                    (mkConvertOptions "output.mp4" "-800" "600" asciinema "-1" "2")
                    "1" ltac:(discriminate) eq_refl))) eq_refl) eq_refl).
Defined.

(** ** The page over time *)

Lemma run_callbacks_fields (l : list (N * callback)) (w : Window) :
  let w' := fold_left (fun w' t => run_callback (snd t) w') l w in
  w_timers w' = w_timers w /\ w_listeners w' = w_listeners w
  /\ w_playerReady w' = w_playerReady w /\ w_playerEl w' = w_playerEl w
  /\ w_playerError w' = w_playerError w.
Proof.
  cbv zeta. revert w. induction l as [|[d []] l IH]; intros w; [now repeat split|].
  cbn [fold_left snd]. destruct (IH (run_callback SetPlayerEnded w))
    as (H1 & H2 & H3 & H4 & H5).
  now rewrite H1, H2, H3, H4, H5.
Qed.

Lemma existsb_filter {A : Type} (f : A -> bool) (l : list A) :
  existsb f l = match filter f l with [] => false | _ :: _ => true end.
Proof.
  induction l as [|a l IH]; [reflexivity|]. simpl.
  destruct (f a); [reflexivity|exact IH].
Qed.

Lemma run_timers_spec (t : N) (w : Window) :
  ended_flag (run_timers t w)
  = ended_flag w || existsb (fun tm => (fst tm <=? t)%N) (w_timers w)
  /\ w_timers (run_timers t w)
     = filter (fun tm => negb (fst tm <=? t)%N) (w_timers w)
  /\ w_listeners (run_timers t w) = w_listeners w
  /\ w_playerReady (run_timers t w) = w_playerReady w
  /\ w_playerEl (run_timers t w) = w_playerEl w
  /\ w_playerError (run_timers t w) = w_playerError w.
Proof.
  unfold run_timers.
  match goal with
  | |- context [fold_left ?f ?l ?w0] =>
      destruct (run_callbacks_fields l w0) as (H1 & H2 & H3 & H4 & H5)
  end.
  cbv zeta in *. rewrite H1, H2, H3, H4, H5. cbn [w_timers w_listeners
    w_playerReady w_playerEl w_playerError].
  split; [|now repeat split].
  rewrite ended_flag_run_callbacks, existsb_filter.
  destruct (filter _ (w_timers w)); [|now rewrite orb_true_r].
  now rewrite orb_false_r.
Qed.

Lemma fire_ended_spec (t : N) (w : Window) :
  w_listeners w = [OnEnded] ->
  ended_flag (fire_ended t w) = ended_flag w
  /\ w_timers (fire_ended t w)
     = (w_timers w ++ [((t + 1000)%N, SetPlayerEnded)])%list
  /\ w_listeners (fire_ended t w) = [OnEnded].
Proof.
  intros H. unfold fire_ended. rewrite H. cbn. now rewrite H.
Qed.

(** From a page whose only listener is that of the script: the flag is set
    after [l] exactly when it was set before, or a timer already pending
    comes due at a run of the event loop, or an [ended] event of [l] is
    followed by a late enough run of the event loop. *)
Lemma run_page_ended (l : list page_event) :
  forall w,
    w_listeners w = [OnEnded] ->
    ended_flag (run_page l w) = true
    <-> (ended_flag w = true
         \/ (exists d cb t',
               In (d, cb) (w_timers w) /\ In (Tick t') l /\ (d <= t')%N)
         \/ ended_then_tick l).
Proof.
  induction l as [|e l IH]; intros w Hw.
  - cbn. split; [auto|]. intros [H|[(d & cb & t' & _ & [] & _)|H]]; [exact H|].
    destruct H as (l1 & t & l2 & t' & H & _). now destruct l1.
  - change (run_page (e :: l) w) with (run_page l (page_step w e)).
    destruct e as [t|t0]; cbn [page_step].
    + destruct (fire_ended_spec t w Hw) as (F1 & F2 & F3).
      rewrite (IH _ F3), F1, F2. split.
      * intros [H|[(d & cb & t' & Hin & Ht & Hle)|H]]; [auto| |].
        -- apply in_app_or in Hin as [Hin|[Hin|[]]].
           ++ right; left. exists d, cb, t'. cbn. auto.
           ++ injection Hin as <- <-. right; right.
              now exists [], t, l, t'.
        -- destruct H as (l1 & t1 & l2 & t' & -> & H2 & H3).
           right; right. now exists (PlayerEnded t :: l1), t1, l2, t'.
      * intros [H|[(d & cb & t' & Hin & Ht & Hle)|H]]; [auto| |].
        -- destruct Ht as [Ht|Ht]; [discriminate|].
           right; left. exists d, cb, t'. split; [|auto].
           apply in_or_app. auto.
        -- destruct H as (l1 & t1 & l2 & t' & H1 & H2 & H3).
           destruct l1 as [|e1 l1]; injection H1 as H0 H1.
           ++ subst. right; left. exists (t1 + 1000)%N, SetPlayerEnded, t'.
              split; [apply in_or_app; cbn; auto|auto].
           ++ subst. right; right. now exists l1, t1, l2, t'.
    + destruct (run_timers_spec t0 w) as (R1 & R2 & R3 & _).
      rewrite (IH _ (eq_trans R3 Hw)), R1, R2, orb_true_iff, existsb_exists.
      split.
      * intros [[H|((d & cb) & Hin & Hle)]|[(d & cb & t' & Hin & Ht & Hle)|H]].
        -- auto.
        -- right; left. exists d, cb, t0. cbn in *.
           apply N.leb_le in Hle. auto.
        -- apply filter_In in Hin as [Hin _].
           right; left. exists d, cb, t'. cbn. auto.
        -- destruct H as (l1 & t1 & l2 & t' & -> & H2 & H3).
           right; right. now exists (Tick t0 :: l1), t1, l2, t'.
      * intros [H|[(d & cb & t' & Hin & Ht & Hle)|H]]; [auto| |].
        -- destruct (N.leb_spec d t0) as [Hd|Hd].
           ++ left; right. exists (d, cb). split; [assumption|].
              now apply N.leb_le.
           ++ destruct Ht as [Ht|Ht]; [injection Ht as ->; lia|].
              right; left. exists d, cb, t'. split; [|auto].
              apply filter_In. split; [assumption|]. cbn.
              apply negb_true_iff, N.leb_gt. assumption.
        -- destruct H as (l1 & t1 & l2 & t' & H1 & H2 & H3).
           destruct l1 as [|e1 l1]; [discriminate|]. injection H1 as H0 H1.
           subst. right; right. now exists l1, t1, l2, t'.
Qed.

(** X5.  After the script has created the player, whatever the player and
    the event loop do afterwards, the flag the recorder waits for is set
    exactly when some [ended] event has been followed by a run of the event
    loop at least 1000 ms later: never without an [ended] event, and never
    before the delay has passed. *)
Theorem X5_ended_flag_over_time (l : list page_event) :
  ended_flag (run_page l (bootstrap (Ok tt) fresh_window)) = true
  <-> ended_then_tick l.
Proof.
  rewrite run_page_ended by reflexivity. cbn. split; [|auto].
  intros [H|[(d & cb & t' & [] & _)|H]]; [discriminate|exact H].
Qed.

Lemma failed_page_fields (msg : string) (l : list page_event) :
  forall w,
    w_listeners w = [] -> w_timers w = [] ->
    w_listeners (run_page l w) = [] /\ w_timers (run_page l w) = []
    /\ ended_flag (run_page l w) = ended_flag w
    /\ w_playerReady (run_page l w) = w_playerReady w
    /\ w_playerError (run_page l w) = w_playerError w.
Proof.
  induction l as [|e l IH]; intros w Hl Ht; [now repeat split|].
  change (run_page (e :: l) w) with (run_page l (page_step w e)).
  destruct e as [t|t]; cbn [page_step].
  - unfold fire_ended. rewrite Hl. cbn [fold_left]. now apply IH.
  - destruct (run_timers_spec t w) as (R1 & R2 & R3 & R4 & _ & R6).
    rewrite Ht in R1, R2. cbn in R1, R2. rewrite orb_false_r in R1.
    destruct (IH (run_timers t w)) as (I1 & I2 & I3 & I4 & I5);
      [congruence|assumption|].
    now rewrite I1, I2, I3, I4, I5, R1, R4, R6.
Qed.

(** X6.  When [AsciinemaPlayer.create] throws, the script records the text
    of the error and nothing else: whatever happens afterwards, the page is
    never ready and never ended, and the error flag keeps the text. *)
Theorem X6_failed_creation (msg : string) (l : list page_event) :
  let w := run_page l (bootstrap (Err msg) fresh_window) in
  ready_flag w = false
  /\ ended_flag w = false
  /\ w_playerError w = Str msg.
Proof.
  cbv zeta.
  destruct (failed_page_fields msg l (bootstrap (Err msg) fresh_window)
              eq_refl eq_refl) as (_ & _ & H3 & H4 & H5).
  unfold ready_flag. rewrite H3, H4, H5. now repeat split.
Qed.

(** X7.  [setupPlayer] against the page: when the script created the
    player, [setupPlayer] returns; when [AsciinemaPlayer.create] threw, it
    throws [Player failed to initialize: ] followed by the text the script
    recorded, or the message alone when that text is empty. *)
Theorem X7_setupPlayer_on_page (base : Env) (page : Page) (html : string)
    (st : state) (msg : string) :
  interrupt base = None ->
  page_setContent base = Resolved tt ->
  fst (setupPlayer (page_env (bootstrap (Ok tt) fresh_window) base) page html st)
  = Returned tt
  /\ fst (setupPlayer (page_env (bootstrap (Err msg) fresh_window) base) page html st)
     = Thrown (if is_empty msg then "Player failed to initialize"
               else "Player failed to initialize: " ++ msg).
Proof.
  intros Hi Hc. split.
  - unfold setupPlayer, bind, try_catch, emit.
    rewrite !await_plain by assumption. cbn [page_setContent page_env].
    rewrite Hc. reflexivity.
  - rewrite (setupPlayer_wait_fails _ page html st
               "Waiting failed: 15000ms exceeded" (Str msg));
      try assumption; try reflexivity.
    unfold initialization_failure. cbn. now destruct msg.
Qed.

Lemma X7_setupPlayer_on_page_witness :
  fst (setupPlayer (page_env (bootstrap (Err "Error: bad cast") fresh_window)
                      (mock_env happy))
         ThePage "<html></html>" initial)
  = Thrown "Player failed to initialize: Error: bad cast".
Proof.
  exact (proj2 (X7_setupPlayer_on_page (mock_env happy) ThePage "<html></html>"
                  initial "Error: bad cast" eq_refl eq_refl)).
Defined.

(** ** [setupPlayer] and [recordVideo], whatever the environment does *)

(** When an await is followed by more code and the whole returns or throws,
    either the await resolved and the rest ran, or the await rejected and
    that is what is thrown. *)
Lemma bind_await_ends {A B : Type} (env : Env) (e : event) (r : reply A)
    (k : A -> M B) (st : state) :
  let st1 := mkState (log st ++ [e]) (listeners st) (S (awaits st)) in
  (forall b, fst (bind (await env e r) k st) = Returned b ->
             exists a, r = Resolved a /\ bind (await env e r) k st = k a st1)
  /\ (forall msg, fst (bind (await env e r) k st) = Thrown msg ->
                  (exists a, r = Resolved a /\ bind (await env e r) k st = k a st1)
                  \/ (r = Rejected msg /\ bind (await env e r) k st = (Thrown msg, st1))).
Proof.
  cbv zeta. unfold bind, await, cleanup.
  destruct (interrupt env) as [[n s]|];
    [destruct (n =? awaits st)%nat;
     [destruct (existsb (signal_eqb s) (listeners st));
      [destruct (browser_close env)|]|]|];
    cbn [fst]; try (split; intros; discriminate);
    destruct r as [a|m|]; cbn [fst];
    (split; [intros b H|intros msg H]); try discriminate;
    try first [ now exists a
              | left; now exists a
              | right; injection H as ->; now split ].
Qed.

Lemma setupPlayer_returns (env : Env) (page : Page) (html : string) (st : state) :
  fst (setupPlayer env page html st) = Returned tt ->
  page_setContent env = Resolved tt
  /\ wait_playerReady env = Resolved tt
  /\ log (snd (setupPlayer env page html st))
     = (log st
        ++ [ESetContent html "domcontentloaded"; EPageOnConsole;
            EWaitForFunction ready_condition 15000;
            EConsola success ["Player initialized successfully"]])%list.
Proof.
  unfold setupPlayer. intros H.
  apply (proj1 (bind_await_ends _ _ _ _ _)) in H as H1.
  destruct H1 as ([] & Hc & E). rewrite E in *. clear E.
  rewrite bind_emit in *. cbn [log listeners awaits] in *.
  unfold try_catch in *.
  match type of H with
  | context [bind (await ?env ?e ?r) ?k ?st] =>
      pose proof (bind_await_ends env e r k st) as [R T];
      destruct (bind (await env e r) k st) as [o st'] eqn:E
  end.
  destruct o as [[]|msg| | |]; try discriminate.
  - destruct (R tt eq_refl) as ([] & Hw & E'). cbv zeta in E'.
    unfold emit in E'. injection E' as ->.
    cbn [snd log]. rewrite <- !app_assoc. now repeat split.
  - exfalso. clear R T E.
    match type of H with
    | context [bind (await ?env ?e ?r) ?k ?st] =>
        pose proof (proj1 (bind_await_ends env e r k st) tt H) as (v & _ & E)
    end.
    rewrite E in H. cbv zeta in H.
    destruct (truthy v); cbn in H; discriminate.
Qed.

(** X8.  [setupPlayer] returns only when the page was loaded and the wait
    for readiness resolved, whatever else the environment does, and then it
    has made exactly four calls and never read the error flag; without a
    signal, those two conditions are also enough for it to return. *)
Theorem X8_setupPlayer_returns (env : Env) (page : Page) (html : string)
    (st : state) :
  (fst (setupPlayer env page html st) = Returned tt ->
   page_setContent env = Resolved tt
   /\ wait_playerReady env = Resolved tt
   /\ log (snd (setupPlayer env page html st))
      = (log st
         ++ [ESetContent html "domcontentloaded"; EPageOnConsole;
             EWaitForFunction ready_condition 15000;
             EConsola success ["Player initialized successfully"]])%list)
  /\ (interrupt env = None ->
      page_setContent env = Resolved tt ->
      wait_playerReady env = Resolved tt ->
      fst (setupPlayer env page html st) = Returned tt).
Proof.
  split; [apply setupPlayer_returns|].
  intros Hi Hc Hw. unfold setupPlayer, bind, try_catch, emit.
  rewrite !await_plain, Hc, Hw by assumption. reflexivity.
Qed.

Lemma X8_setupPlayer_returns_witness :
  fst (setupPlayer (mock_env happy) ThePage "<html></html>" initial) = Returned tt.
Proof.
  exact (proj2 (X8_setupPlayer_returns (mock_env happy) ThePage "<html></html>"
                  initial) eq_refl eq_refl eq_refl).
Defined.

(** X9.  The errors [setupPlayer] does not word itself: when loading the
    page fails it throws that error and neither registers the console
    listener nor waits; when the wait fails and reading the error flag fails
    too, it throws the error of the read, not an initialization failure. *)
Theorem X9_setupPlayer_passes_errors (env : Env) (page : Page) (html : string)
    (st : state) (msg : string) :
  interrupt env = None ->
  (page_setContent env = Rejected msg ->
   setupPlayer env page html st
   = (Thrown msg,
      mkState (log st ++ [ESetContent html "domcontentloaded"])
        (listeners st) (1 + awaits st)))
  /\ (forall reason,
        page_setContent env = Resolved tt ->
        wait_playerReady env = Rejected reason ->
        eval_playerError env = Rejected msg ->
        setupPlayer env page html st
        = (Thrown msg,
           mkState
             (log st
              ++ [ESetContent html "domcontentloaded"; EPageOnConsole;
                  EWaitForFunction ready_condition 15000;
                  EEvaluate ReadPlayerError])
             (listeners st) (3 + awaits st))).
Proof.
  intros Hi. split.
  - intros Hc. unfold setupPlayer, bind.
    rewrite await_plain, Hc by assumption. reflexivity.
  - intros reason Hc Hw He. unfold setupPlayer, bind, try_catch, emit.
    rewrite !await_plain, Hc, Hw by assumption. cbn.
    rewrite !await_plain, He by assumption. cbn.
    rewrite <- !app_assoc. reflexivity.
Qed.

Lemma X9_setupPlayer_passes_errors_witness :
  fst (setupPlayer unloadable_env ThePage "<html></html>" initial)
  = Thrown "Navigation failed".
Proof.
  exact (f_equal fst
           (proj1 (X9_setupPlayer_passes_errors unloadable_env ThePage
                     "<html></html>" initial "Navigation failed" eq_refl)
              eq_refl)).
Defined.

Lemma bind_await_reaches_run {A B : Type} (env : Env) (x e : event) (r : reply A)
    (k : A -> M B) (st : state) :
  x <> e -> x <> EBrowserClose -> x <> EProcessExit 1 -> ~ In x (log st) ->
  In x (log (snd (bind (await env e r) k st))) ->
  exists a,
    r = Resolved a
    /\ bind (await env e r) k st
       = k a (mkState (log st ++ [e]) (listeners st) (S (awaits st))).
Proof.
  intros He Hc Hx Hst Hin.
  assert (H1 : ~ In x (log st ++ [e])) by now apply not_in_snoc.
  assert (H2 : ~ In x ((log st ++ [e]) ++ [EBrowserClose]))
    by now apply not_in_snoc.
  assert (H3 : ~ In x (((log st ++ [e]) ++ [EBrowserClose]) ++ [EProcessExit 1]))
    by now apply not_in_snoc.
  unfold bind, await, cleanup in *.
  destruct (interrupt env) as [[n s]|].
  - destruct (n =? awaits st)%nat.
    + destruct (existsb (signal_eqb s) (listeners st)).
      * destruct (browser_close env); cbn in Hin; contradiction.
      * cbn in Hin. contradiction.
    + destruct r as [a|msg|]; cbn in Hin; try contradiction. now exists a.
  - destruct r as [a|msg|]; cbn in Hin; try contradiction. now exists a.
Qed.

Lemma await_throws {A : Type} (env : Env) (e : event) (r : reply A) (st : state)
    (msg : string) :
  fst (await env e r st) = Thrown msg -> r = Rejected msg.
Proof.
  unfold await, cleanup.
  destruct (interrupt env) as [[n s]|];
    [destruct (n =? awaits st)%nat;
     [destruct (existsb (signal_eqb s) (listeners st));
      [destruct (browser_close env)|]|]|];
    cbn [fst]; try discriminate; destruct r; cbn [fst]; congruence.
Qed.

Ltac fresh_call :=
  repeat apply not_in_snoc; (assumption || discriminate).

(** X10.  [recordVideo] has no cleanup of its own.  When it throws after
    the recorder was stopped, the error is that of [recorder.stop] itself;
    in particular, when playback or the wait for the end fails after capture
    has started, the error is thrown with the recorder started and never
    stopped. *)
Theorem X10_recordVideo_leaves_recorder (env : Env) (page : Page)
    (outputPath : string) (options : ParsedOptions) (st : state)
    (msg ffmpegPath : string) :
  ~ In ERecorderStop (log st) ->
  (fst (recordVideo env page outputPath options st) = Thrown msg ->
   In ERecorderStop (log (snd (recordVideo env page outputPath options st))) ->
   recorder_stop env = Rejected msg)
  /\ (interrupt env = None ->
      import_ffmpeg env = Resolved ffmpegPath ->
      recorder_start env = Resolved tt ->
      eval_play env = Rejected msg
      \/ (eval_play env = Resolved tt /\ wait_playerEnded env = Rejected msg) ->
      fst (recordVideo env page outputPath options st) = Thrown msg
      /\ In (ERecorderStart outputPath)
            (log (snd (recordVideo env page outputPath options st)))
      /\ ~ In ERecorderStop
            (log (snd (recordVideo env page outputPath options st)))).
Proof.
  intros Hnot. split.
  - unfold recordVideo. intros Hthrow Hin.
    apply bind_await_reaches_run in Hin as H1; [|discriminate..|assumption].
    destruct H1 as (ff & _ & E). rewrite E in *. clear E.
    rewrite !bind_emit in *. cbn [log listeners awaits] in *.
    apply bind_await_reaches_run in Hin as H1; [|discriminate..|fresh_call].
    destruct H1 as ([] & _ & E). rewrite E in *. clear E.
    rewrite !bind_emit in *. cbn [log listeners awaits] in *.
    apply bind_await_reaches_run in Hin as H1; [|discriminate..|fresh_call].
    destruct H1 as ([] & _ & E). rewrite E in *. clear E.
    apply bind_await_reaches_run in Hin as H1; [|discriminate..|fresh_call].
    destruct H1 as ([] & _ & E). rewrite E in *. clear E.
    rewrite !bind_emit in *. cbn [log listeners awaits] in *.
    now apply await_throws in Hthrow.
  - intros Hi Hf Hs Hfail. unfold recordVideo, bind, emit.
    rewrite Hf, Hs.
    destruct Hfail as [Hp|[Hp Hw]].
    + rewrite Hp. repeat (rewrite await_plain by assumption; cbn).
      split; [reflexivity|]. split.
      * apply in_or_app. left. apply in_or_app. left. apply in_or_app. right.
        now left.
      * fresh_call.
    + rewrite Hp, Hw. repeat (rewrite await_plain by assumption; cbn).
      split; [reflexivity|]. split.
      * apply in_or_app. left. apply in_or_app. left. apply in_or_app. left.
        apply in_or_app. right. now left.
      * fresh_call.
Qed.

Lemma X10_recordVideo_leaves_recorder_witness :
  let r := recordVideo (mock_env recording_fails) ThePage "/absolute/output.mp4"
             (parseOptions default_options) initial in
  fst r = Thrown "Target closed"
  /\ In (ERecorderStart "/absolute/output.mp4") (log (snd r))
  /\ ~ In ERecorderStop (log (snd r)).
Proof.
  exact (proj2 (X10_recordVideo_leaves_recorder (mock_env recording_fails) ThePage
                  "/absolute/output.mp4" (parseOptions default_options) initial
                  "Target closed" "/path/to/ffmpeg" (fun H : In _ [] => H))
           eq_refl eq_refl eq_refl (or_intror (conj eq_refl eq_refl))).
Defined.

(** ** Calls that are made only after others succeeded *)

Lemma number_eq_dec (a b : number) : {a = b} + {a <> b}.
Proof.
  decide equality; try apply Z.eq_dec; try apply N.eq_dec; apply bool_dec.
Qed.

Lemma event_eq_dec (a b : event) : {a = b} + {a <> b}.
Proof.
  decide equality;
    try apply string_dec; try apply N.eq_dec; try apply Z.eq_dec;
    try apply number_eq_dec; try apply bool_dec;
    try (apply list_eq_dec; apply string_dec);
    try (decide equality; fail).
  decide equality;
    try apply string_dec; try apply N.eq_dec; try apply bool_dec.
  decide equality; apply number_eq_dec.
Qed.

Lemma not_in_Forall (x : event) (l : list event) :
  ~ In x l <-> Forall (fun e => e <> x) l.
Proof.
  rewrite Forall_forall. split.
  - intros H e He ->. contradiction.
  - intros H Hin. now apply (H x Hin).
Qed.

Ltac emits_rules :=
  repeat first
    [ apply emits_bind; [|intros ?]
    | apply emits_try_finally
    | apply emits_try_catch; [|intros ?]
    | apply emits_if
    | apply emits_lift
    | apply emits_ret
    | apply emits_throw
    | apply emits_process_on
    | apply emits_process_off
    | apply emits_emit
    | apply emits_await ].

(** A call that [m] never makes is in the log of [m ;; k] only if it was
    there before or [m] returned and [k] made it. *)
Lemma bind_reaches {A B : Type} (x : event) (m : M A) (k : A -> M B) (st : state) :
  emits (fun e => e <> x) m ->
  ~ In x (log st) ->
  In x (log (snd (bind m k st))) ->
  exists a st1,
    m st = (Returned a, st1) /\ ~ In x (log st1) /\ In x (log (snd (k a st1))).
Proof.
  intros Hm Hst Hin. apply not_in_Forall in Hst. specialize (Hm st Hst).
  apply not_in_Forall in Hm. unfold bind in Hin.
  destruct (m st) as [[a| | | |] st1]; cbn [snd] in *; try contradiction.
  now exists a, st1.
Qed.

Lemma try_finally_reaches {A : Type} (x : event) (body : M A) (final : M unit)
    (st : state) :
  emits (fun e => e <> x) final ->
  In x (log (snd (try_finally body final st))) ->
  In x (log (snd (body st))).
Proof.
  intros Hf Hin. unfold try_finally in Hin.
  destruct (body st) as [[a|msg| | |] st1]; cbn [snd] in *; try assumption.
  - destruct (in_dec event_eq_dec x (log st1)) as [H|H]; [assumption|].
    apply bind_reaches in Hin as (u & st2 & _ & H2 & Hin); try assumption.
    contradiction.
  - destruct (in_dec event_eq_dec x (log st1)) as [H|H]; [assumption|].
    apply bind_reaches in Hin as (u & st2 & _ & H2 & Hin); try assumption.
    contradiction.
Qed.

Lemma lift_returns {A : Type} (r : result A) (st st1 : state) (a : A) :
  lift r st = (Returned a, st1) -> r = Ok a /\ st1 = st.
Proof. destruct r; cbn; intros H; inversion H; auto. Qed.

(** X11.  The browser is launched only after the input was found, the paths
    of the player were resolved, and the script, the stylesheet and the cast
    were read: a run that fails at any of these makes no call to
    [puppeteer.launch]. *)
Theorem X11_launch_after_inputs (env : Env) (inputPath : string)
    (options : ConvertOptions) (headless : bool) (args : list string) :
  In (ELaunch headless args)
     (log (snd (convertCastToVideo env inputPath options initial))) ->
  exists inputAbsPath jsPath cssPath playerAssets castContent,
    validateInputFile env inputPath = Ok inputAbsPath
    /\ getPlayerAssetPaths env = Ok (jsPath, cssPath)
    /\ loadPlayerAssets env jsPath cssPath = Ok playerAssets
    /\ fs_readFileSync env inputAbsPath = Ok castContent.
Proof.
  unfold convertCastToVideo. cbv zeta. intros H.
  apply bind_reaches in H as (inputAbsPath & st1 & E1 & N1 & H);
    [|emits_rules|cbn; tauto].
  apply lift_returns in E1 as [E1 ->].
  apply bind_reaches in H as ([] & st2 & _ & N2 & H);
    [|emits_rules; discriminate|assumption].
  apply bind_reaches in H as ([jsPath cssPath] & st3 & E3 & N3 & H);
    [|emits_rules|assumption].
  apply lift_returns in E3 as [E3 ->].
  apply bind_reaches in H as (playerAssets & st4 & E4 & N4 & H);
    [|emits_rules|assumption].
  apply lift_returns in E4 as [E4 ->].
  apply bind_reaches in H as (castContent & st5 & E5 & N5 & H);
    [|emits_rules|assumption].
  apply lift_returns in E5 as [E5 ->].
  now exists inputAbsPath, jsPath, cssPath, playerAssets, castContent.
Qed.

Lemma X11_launch_after_inputs_witness :
  validateInputFile (mock_env happy) "input.cast" = Ok "/absolute/input.cast".
Proof.
  destruct (X11_launch_after_inputs (mock_env happy) "input.cast" default_options
              true ["--no-sandbox"; "--disable-setuid-sandbox"])
    as (p & _ & _ & _ & _ & H & _).
  - vm_compute. auto.
  - rewrite H. vm_compute in H. injection H as <-. reflexivity.
Defined.

Lemma process_on_reaches {B : Type} (x : event) (s : signal) (k : unit -> M B)
    (st : state) :
  x <> EProcessOn s -> ~ In x (log st) ->
  In x (log (snd (bind (process_on s) k st))) ->
  exists st1, ~ In x (log st1) /\ In x (log (snd (k tt st1))).
Proof.
  intros Hx Hst Hin.
  apply bind_reaches in Hin as ([] & st1 & _ & H1 & H2);
    [now exists st1|now apply emits_process_on|assumption].
Qed.

(** ** The browser that is left open *)

(** Without a signal, [setupBrowser] throws what [browser.newPage] or
    [page.setViewport] rejects with, after the launch and without a call of
    [browser.close]. *)
Lemma setupBrowser_fails (env : Env) (options : ParsedOptions) (st : state)
    (msg : string) :
  interrupt env = None ->
  puppeteer_launch env = Resolved tt ->
  browser_newPage env = Rejected msg
  \/ (browser_newPage env = Resolved tt /\ page_setViewport env = Rejected msg) ->
  exists l,
    setupBrowser env options st
    = (Thrown msg,
       mkState
         (log st
          ++ ELaunch true ["--no-sandbox"; "--disable-setuid-sandbox"]
             :: ENewPage :: l)
         (listeners st) (2 + List.length l + awaits st))
    /\ closes l = 0.
Proof.
  intros Hi Hl Hfail. unfold setupBrowser, bind. rewrite Hl.
  destruct Hfail as [Hn|[Hn Hv]].
  - exists []. rewrite Hn. repeat (rewrite await_plain by assumption; cbn).
    rewrite <- !app_assoc. split; reflexivity.
  - eexists [_]. rewrite Hn, Hv.
    repeat (rewrite await_plain by assumption; cbn).
    rewrite <- !app_assoc. split; reflexivity.
Qed.

(** C7.  Where the code misses the claim, and where it meets it.  The
    [try]/[finally] of lines 410-419 starts after [setupBrowser] has
    returned: when no signal arrives and [browser.newPage] (or
    [page.setViewport]) rejects after [puppeteer.launch] resolved, a run
    that launched the browser throws that error and never calls
    [browser.close].  A run without a signal that got past [setupBrowser]
    and ended has closed the browser exactly once. *)
Theorem C7_browser_left_open (env : Env) (inputPath : string)
    (options : ConvertOptions) (msg : string) :
  interrupt env = None ->
  let r := convertCastToVideo env inputPath options initial in
  (puppeteer_launch env = Resolved tt ->
   browser_newPage env = Rejected msg
   \/ (browser_newPage env = Resolved tt /\ page_setViewport env = Rejected msg) ->
   In (ELaunch true ["--no-sandbox"; "--disable-setuid-sandbox"]) (log (snd r)) ->
   fst r = Thrown msg /\ closes (log (snd r)) = 0)
  /\ (session_opened (log (snd r)) = true -> fst r <> Pending ->
      closes (log (snd r)) = 1).
Proof.
  intros Hi r. split.
  - intros Hl Hfail H.
    assert (E : exists inputAbsPath paths playerAssets castContent,
               validateInputFile env inputPath = Ok inputAbsPath
               /\ getPlayerAssetPaths env = Ok paths
               /\ loadPlayerAssets env (fst paths) (snd paths) = Ok playerAssets
               /\ fs_readFileSync env inputAbsPath = Ok castContent).
    { unfold r, convertCastToVideo in H. cbv zeta in H.
      apply bind_reaches in H as (inputAbsPath & st1 & E1 & N1 & H);
        [|emits_rules|cbn; tauto].
      apply lift_returns in E1 as [E1 ->].
      apply bind_reaches in H as ([] & st2 & _ & N2 & H);
        [|emits_rules; discriminate|assumption].
      apply bind_reaches in H as (paths & st3 & E3 & N3 & H);
        [|emits_rules|assumption].
      apply lift_returns in E3 as [E3 ->].
      apply bind_reaches in H as (playerAssets & st4 & E4 & N4 & H);
        [|emits_rules|assumption].
      apply lift_returns in E4 as [E4 ->].
      apply bind_reaches in H as (castContent & st5 & E5 & N5 & H);
        [|emits_rules|assumption].
      apply lift_returns in E5 as [E5 ->].
      now exists inputAbsPath, paths, playerAssets, castContent. }
    destruct E as (inputAbsPath & paths & playerAssets & castContent
                   & E1 & E2 & E3 & E4).
    unfold r, convertCastToVideo. cbv zeta. rewrite E1, E2.
    cbn [bind lift ret emit fst snd log listeners awaits initial app].
    rewrite E3, E4.
    cbn [bind lift ret emit fst snd log listeners awaits initial app].
    unfold bind.
    match goal with
    | |- context [setupBrowser ?e ?o ?s] =>
        destruct (setupBrowser_fails e o s msg Hi Hl Hfail) as (l & -> & Hc)
    end.
    cbn [fst snd log]. split; [reflexivity|].
    unfold closes in *. cbn [app filter]. exact Hc.
  - intros Ho Hp.
    exact (proj1 (convertCastToVideo_closed_once env inputPath options Ho Hp)).
Qed.

Lemma C7_browser_left_open_witness :
  let r := convertCastToVideo (mock_env no_page) "input.cast"
             default_options initial in
  fst r = Thrown "Protocol error" /\ closes (log (snd r)) = 0.
Proof.
  intros r.
  refine (proj1 (C7_browser_left_open (mock_env no_page) "input.cast"
                   default_options "Protocol error" eq_refl)
            eq_refl (or_introl eq_refl) _).
  vm_compute. auto.
Defined.

(** X12.  The recording is started only after the player reported ready:
    in every run in which [recordVideo] made its first call, the page had
    been loaded and the wait for readiness had resolved. *)
Theorem X12_record_after_ready (env : Env) (inputPath : string)
    (options : ConvertOptions) :
  In EImportFfmpeg (log (snd (convertCastToVideo env inputPath options initial))) ->
  puppeteer_launch env = Resolved tt
  /\ page_setContent env = Resolved tt
  /\ wait_playerReady env = Resolved tt.
Proof.
  unfold convertCastToVideo. cbv zeta. intros H.
  apply bind_reaches in H as (inputAbsPath & st1 & _ & N1 & H);
    [|emits_rules|cbn; tauto].
  apply bind_reaches in H as ([] & st2 & _ & N2 & H);
    [|emits_rules; discriminate|assumption].
  apply bind_reaches in H as (paths & st3 & _ & N3 & H);
    [|emits_rules|assumption].
  apply bind_reaches in H as (playerAssets & st4 & _ & N4 & H);
    [|emits_rules|assumption].
  apply bind_reaches in H as (castContent & st5 & _ & N5 & H);
    [|emits_rules|assumption].
  assert (Hl : puppeteer_launch env = Resolved tt).
  { unfold setupBrowser in H.
    apply bind_reaches in H as (session & st6 & E & _);
      [|emits_rules; discriminate|assumption].
    destruct (bind_await_ends env
                (ELaunch true ["--no-sandbox"; "--disable-setuid-sandbox"])
                (puppeteer_launch env)
                (fun _ => await env ENewPage (browser_newPage env) ;;
                          await env (ESetViewport (width (parseOptions options))
                                       (height (parseOptions options))
                                       (scale (parseOptions options)))
                            (page_setViewport env) ;;
                          ret (TheBrowser, ThePage)) st5) as [R _].
    destruct (R session) as ([] & Hl & _); [now rewrite E|exact Hl]. }
  apply bind_reaches in H as (session & st6 & _ & N6 & H);
    [|unfold setupBrowser; emits_rules; discriminate|assumption].
  apply process_on_reaches in H as (st7 & N7 & H); [|discriminate|assumption].
  apply process_on_reaches in H as (st8 & N8 & H); [|discriminate|assumption].
  apply try_finally_reaches in H; [|emits_rules; discriminate].
  apply bind_reaches in H as ([] & st9 & E & _);
    [|unfold setupPlayer; emits_rules; discriminate|assumption].
  destruct (setupPlayer_returns env (snd session)
              (generateHtml playerAssets (createCastDataUri castContent)
                 (parseOptions options)) st8) as (Hc & Hw & _);
    [now rewrite E|].
  now repeat split.
Qed.

Lemma X12_record_after_ready_witness :
  wait_playerReady (mock_env happy) = Resolved tt.
Proof.
  refine (proj2 (proj2 (X12_record_after_ready (mock_env happy) "input.cast"
                          default_options _))).
  vm_compute. auto 20.
Defined.

(** ** The listeners and the [finally] block *)

Lemma await_listeners {A : Type} (env : Env) (e : event) (r : reply A)
    (st : state) :
  listeners (snd (await env e r st)) = listeners st.
Proof.
  unfold await, cleanup.
  destruct (interrupt env) as [[n s]|];
    [destruct (n =? awaits st)%nat;
     [destruct (existsb (signal_eqb s) (listeners st));
      [destruct (browser_close env)|]|]|];
    try reflexivity; now destruct r.
Qed.

Lemma finally_listeners (env : Env) (st : state) :
  listeners (snd ((process_off SIGINT ;; process_off SIGTERM ;;
                   await env EBrowserClose (browser_close env)) st))
  = filter (fun x => negb (signal_eqb x SIGTERM))
      (filter (fun x => negb (signal_eqb x SIGINT)) (listeners st)).
Proof.
  unfold bind, process_off. cbn [fst snd log listeners awaits].
  match goal with
  | |- context [await ?env ?e ?r ?s] =>
      pose proof (await_listeners env e r s) as H;
      destruct (await env e r s) as [[[]| | | |] st']
  end; exact H.
Qed.

(** Before the session is opened no listener is registered. *)
Lemma quiet_then_released {A : Type} (m : M A) (k : A -> M unit) :
  quiet m ->
  (forall a st1, listeners st1 = [] -> released (k a st1)) ->
  forall st, listeners st = [] -> released (bind m k st).
Proof.
  intros Hm Hk st L. destruct (Hm st L) as (L1 & _).
  unfold bind. destruct (m st) as [[a| | | |] st1]; cbn [snd] in *;
    [now apply Hk|intros _; exact L1..].
Qed.

Lemma session_released (env : Env) (body : M unit) (st : state) :
  guarded body ->
  listeners st = [] ->
  released
    ((process_on SIGINT ;;
      process_on SIGTERM ;;
      try_finally body
        (process_off SIGINT ;;
         process_off SIGTERM ;;
         await env EBrowserClose (browser_close env))) st).
Proof.
  intros Hbody L.
  set (final := (process_off SIGINT ;; process_off SIGTERM ;;
                 await env EBrowserClose (browser_close env))).
  set (st2 := mkState ((log st ++ [EProcessOn SIGINT]) ++ [EProcessOn SIGTERM])
                [SIGTERM; SIGINT] (awaits st)).
  assert (E : (process_on SIGINT ;; process_on SIGTERM ;; try_finally body final) st
              = try_finally body final st2).
  { unfold bind, process_on. cbn [log listeners awaits]. now rewrite L. }
  rewrite E. clear E.
  assert (Hall : all_listened st2) by (intros []; reflexivity).
  specialize (Hbody st2 Hall). unfold try_finally.
  destruct (body st2) as [[a|msg| |c|s] st3]; cbn [fst snd] in Hbody.
  - destruct Hbody as [_ L3]. intros _.
    rewrite (proj1 (bind_ret_run final a st3)).
    unfold final. now rewrite finally_listeners, L3.
  - destruct Hbody as [_ L3]. intros _.
    rewrite (proj1 (bind_throw_run (B := unit) final msg st3)).
    unfold final. now rewrite finally_listeners, L3.
  - intros [H|[msg H]]; discriminate.
  - intros [H|[msg H]]; discriminate.
  - contradiction.
Qed.

(** X13.  The signal listeners do not outlive the run: when
    [convertCastToVideo] returns or throws, whatever happened in between,
    no listener of the run is registered any more. *)
Theorem X13_listeners_released (env : Env) (inputPath : string)
    (options : ConvertOptions) :
  let r := convertCastToVideo env inputPath options initial in
  (fst r = Returned tt \/ exists msg, fst r = Thrown msg) ->
  listeners (snd r) = [].
Proof.
  change (released (convertCastToVideo env inputPath options initial)).
  unfold convertCastToVideo. cbv zeta.
  apply quiet_then_released; [apply quiet_lift| |reflexivity].
  intros inputAbsPath st1 L1.
  apply quiet_then_released; [now apply quiet_emit| |assumption].
  intros _ st2 L2.
  apply quiet_then_released; [apply quiet_lift| |assumption].
  intros paths st3 L3.
  apply quiet_then_released; [apply quiet_lift| |assumption].
  intros playerAssets st4 L4.
  apply quiet_then_released; [apply quiet_lift| |assumption].
  intros castContent st5 L5.
  apply quiet_then_released; [apply setupBrowser_quiet| |assumption].
  intros session st6 L6.
  apply session_released; [|assumption].
  apply guarded_bind; [apply setupPlayer_guarded|intros _].
  apply guarded_bind; [apply recordVideo_guarded|intros _].
  now apply guarded_emit.
Qed.

Lemma X13_listeners_released_witness :
  listeners (snd (convertCastToVideo (mock_env boom) "input.cast"
                    default_options initial)) = [].
Proof.
  refine (X13_listeners_released (mock_env boom) "input.cast" default_options _).
  right. exists "Player failed to initialize: boom". vm_compute. reflexivity.
Defined.

(** ** Runs without a signal end by returning or throwing *)

Lemma settles_ret {A : Type} (a : A) : settles (ret a).
Proof. now intros st. Qed.

Lemma settles_throw {A : Type} (msg : string) : settles (@throw A msg).
Proof. now intros st. Qed.

Lemma settles_emit (e : event) : settles (emit e).
Proof. now intros st. Qed.

Lemma settles_await {A : Type} (env : Env) (e : event) (r : reply A) :
  interrupt env = None -> settles (await env e r).
Proof. intros H st. rewrite await_plain by assumption. now destruct r. Qed.

Lemma settles_bind {A B : Type} (m : M A) (k : A -> M B) :
  settles m -> (forall a, settles (k a)) -> settles (bind m k).
Proof.
  intros Hm Hk st. unfold bind. specialize (Hm st).
  destruct (m st) as [[a| | | |] st1]; cbn [fst] in *; try assumption.
  apply Hk.
Qed.

Lemma settles_try_catch {A : Type} (m : M A) (h : string -> M A) :
  settles m -> (forall msg, settles (h msg)) -> settles (try_catch m h).
Proof.
  intros Hm Hh st. unfold try_catch. specialize (Hm st).
  destruct (m st) as [[a| | | |] st1]; cbn [fst] in *; try assumption.
  apply Hh.
Qed.

Lemma settles_if {A : Type} (b : bool) (m1 m2 : M A) :
  settles m1 -> settles m2 -> settles (if b then m1 else m2).
Proof. now destruct b. Qed.

Ltac settles_rules :=
  repeat first
    [ apply settles_bind; [|intros ?]
    | apply settles_try_catch; [|intros ?]
    | apply settles_if
    | apply settles_ret
    | apply settles_throw
    | apply settles_emit
    | apply settles_await ];
  try assumption.

(** Before the session is opened nothing is asked of a run. *)
Lemma quiet_then_opened {A B : Type} (G : outcome B * state -> Prop)
    (m : M A) (k : A -> M B) :
  (forall r, session_opened (log (snd r)) = false -> G r) ->
  quiet m ->
  (forall a st1,
     listeners st1 = [] -> session_opened (log st1) = false -> G (k a st1)) ->
  forall st,
    listeners st = [] -> session_opened (log st) = false -> G (bind m k st).
Proof.
  intros HG Hm Hk st L S. destruct (Hm st L) as (L1 & _ & S1).
  unfold bind. destruct (m st) as [[a| | | |] st1]; cbn [snd] in *;
    try (apply HG; cbn [snd]; congruence).
  apply Hk; congruence.
Qed.

Lemma session_close_error (env : Env) (body : M unit) (st : state)
    (closeError : string) :
  interrupt env = None ->
  browser_close env = Rejected closeError ->
  settles body ->
  let r := (process_on SIGINT ;;
            process_on SIGTERM ;;
            try_finally body
              (process_off SIGINT ;;
               process_off SIGTERM ;;
               await env EBrowserClose (browser_close env))) st in
  fst r <> Pending -> fst r = Thrown closeError.
Proof.
  intros Hi Hclose Hbody. cbv zeta.
  set (final := (process_off SIGINT ;; process_off SIGTERM ;;
                 await env EBrowserClose (browser_close env))).
  set (st2 := mkState ((log st ++ [EProcessOn SIGINT]) ++ [EProcessOn SIGTERM])
                (SIGTERM :: SIGINT :: listeners st) (awaits st)).
  assert (E : (process_on SIGINT ;; process_on SIGTERM ;; try_finally body final) st
              = try_finally body final st2) by reflexivity.
  rewrite E. clear E.
  assert (F : forall s, fst (final s) = Thrown closeError).
  { intros s. unfold final, bind, process_off. cbv beta iota.
    rewrite await_plain, Hclose by assumption. reflexivity. }
  specialize (Hbody st2). unfold try_finally.
  destruct (body st2) as [[a|msg| |c|s] st3]; cbn [fst] in Hbody;
    try contradiction.
  - intros _. unfold bind. specialize (F st3).
    destruct (final st3) as [[]]; cbn [fst] in *; congruence.
  - intros _. unfold bind. specialize (F st3).
    destruct (final st3) as [[]]; cbn [fst] in *; congruence.
Qed.

(** X14.  An error of [browser.close] in the [finally] block replaces
    whatever the run had come to: when no signal arrives and
    [browser.close] rejects, every run that opened its session and ended
    throws the error of the close, whether the conversion had succeeded or
    had failed with another error. *)
Theorem X14_close_error_wins (env : Env) (inputPath : string)
    (options : ConvertOptions) (closeError : string) :
  interrupt env = None ->
  browser_close env = Rejected closeError ->
  let r := convertCastToVideo env inputPath options initial in
  session_opened (log (snd r)) = true ->
  fst r <> Pending ->
  fst r = Thrown closeError.
Proof.
  intros Hi Hclose. cbv zeta.
  set (G := fun r : outcome unit * state =>
              session_opened (log (snd r)) = true ->
              fst r <> Pending -> fst r = Thrown closeError).
  change (G (convertCastToVideo env inputPath options initial)).
  assert (HG : forall r, session_opened (log (snd r)) = false -> G r)
    by (intros r H H'; congruence).
  unfold convertCastToVideo. cbv zeta.
  apply quiet_then_opened; [exact HG|apply quiet_lift| |reflexivity..].
  intros inputAbsPath st1 L1 S1.
  apply quiet_then_opened; [exact HG|now apply quiet_emit| |assumption..].
  intros _ st2 L2 S2.
  apply quiet_then_opened; [exact HG|apply quiet_lift| |assumption..].
  intros paths st3 L3 S3.
  apply quiet_then_opened; [exact HG|apply quiet_lift| |assumption..].
  intros playerAssets st4 L4 S4.
  apply quiet_then_opened; [exact HG|apply quiet_lift| |assumption..].
  intros castContent st5 L5 S5.
  apply quiet_then_opened; [exact HG|apply setupBrowser_quiet| |assumption..].
  intros session st6 L6 S6.
  unfold G. intros _. apply session_close_error; try assumption.
  unfold setupPlayer, recordVideo. settles_rules.
Qed.

Lemma X14_close_error_wins_witness :
  fst (convertCastToVideo unclosable_env "input.cast" default_options initial)
  = Thrown "Protocol error".
Proof.
  refine (X14_close_error_wins unclosable_env "input.cast" default_options
            "Protocol error" eq_refl eq_refl _ _).
  - vm_compute. reflexivity.
  - vm_compute. discriminate.
Defined.

(** ** The arguments of the calls *)

Lemma convertCastToVideo_call_shape (env : Env) (inputPath : string)
    (options : ConvertOptions) :
  emits (call_shape env options) (convertCastToVideo env inputPath options).
Proof.
  unfold convertCastToVideo, setupBrowser, setupPlayer, recordVideo.
  cbv zeta. emits_rules; cbn [call_shape fps followNewTab videoFrame]; auto.
  split; [reflexivity|]. eexists. eexists. reflexivity.
Qed.

(** X15.  In every run the calls carry what the options say: the viewport
    is the parsed width, height and scale; the recorder is made for 60
    frames per second and a frame of the same width and height as the
    viewport; it writes to the resolved output path; the page loaded is the
    page composed from the parsed options and a data URI; the browser is
    launched headless without sandbox; and the only exit status is 1. *)
Theorem X15_call_arguments (env : Env) (inputPath : string)
    (options : ConvertOptions) (e : event) :
  In e (log (snd (convertCastToVideo env inputPath options initial))) ->
  call_shape env options e.
Proof.
  intros H.
  pose proof (convertCastToVideo_call_shape env inputPath options initial
                (Forall_nil _)) as F.
  rewrite Forall_forall in F. now apply F.
Qed.

Lemma X15_call_arguments_witness :
  call_shape (mock_env happy) default_options
    (ERecorderNew (mkRecorderOptions false 60 "/path/to/ffmpeg"
                     (Dec false 800 0, Dec false 600 0))).
Proof.
  apply (X15_call_arguments (mock_env happy) "input.cast" default_options).
  vm_compute. auto 20.
Defined.

(** ** The action of the command *)

Lemma exits_one_ret {A : Type} (a : A) : exits_one (ret a).
Proof. intros st c H. discriminate. Qed.

Lemma exits_one_throw {A : Type} (msg : string) : exits_one (@throw A msg).
Proof. intros st c H. discriminate. Qed.

Lemma exits_one_lift {A : Type} (r : result A) : exits_one (lift r).
Proof. destruct r; [apply exits_one_ret|apply exits_one_throw]. Qed.

Lemma exits_one_emit (e : event) : exits_one (emit e).
Proof. intros st c H. discriminate. Qed.

Lemma exits_one_process_on (s : signal) : exits_one (process_on s).
Proof. intros st c H. discriminate. Qed.

Lemma exits_one_process_off (s : signal) : exits_one (process_off s).
Proof. intros st c H. discriminate. Qed.

Lemma exits_one_await {A : Type} (env : Env) (e : event) (r : reply A) :
  exits_one (await env e r).
Proof.
  intros st c. unfold await, cleanup.
  destruct (interrupt env) as [[n s]|];
    [destruct (n =? awaits st)%nat;
     [destruct (existsb (signal_eqb s) (listeners st));
      [destruct (browser_close env)|]|]|];
    cbn [fst]; try discriminate; try (intros H; congruence);
    destruct r; discriminate.
Qed.

Lemma exits_one_bind {A B : Type} (m : M A) (k : A -> M B) :
  exits_one m -> (forall a, exits_one (k a)) -> exits_one (bind m k).
Proof.
  intros Hm Hk st c. unfold bind. specialize (Hm st).
  destruct (m st) as [[a| | |c'|] st1]; cbn [fst] in *; try discriminate.
  - apply Hk.
  - intros H. apply Hm. congruence.
Qed.

Lemma exits_one_try_catch {A : Type} (m : M A) (h : string -> M A) :
  exits_one m -> (forall msg, exits_one (h msg)) -> exits_one (try_catch m h).
Proof.
  intros Hm Hh st c. unfold try_catch. specialize (Hm st).
  destruct (m st) as [[a| | |c'|] st1]; cbn [fst] in *; try discriminate.
  - apply Hh.
  - intros H. apply Hm. congruence.
Qed.

Lemma exits_one_try_finally {A : Type} (m : M A) (f : M unit) :
  exits_one m -> exits_one f -> exits_one (try_finally m f).
Proof.
  intros Hm Hf st c. unfold try_finally. specialize (Hm st).
  destruct (m st) as [[a| | |c'|] st1]; cbn [fst] in *; try discriminate.
  - apply exits_one_bind; [assumption|intros; apply exits_one_ret].
  - apply exits_one_bind; [assumption|intros; apply exits_one_throw].
  - intros H. apply Hm. congruence.
Qed.

Lemma exits_one_if {A : Type} (b : bool) (m1 m2 : M A) :
  exits_one m1 -> exits_one m2 -> exits_one (if b then m1 else m2).
Proof. now destruct b. Qed.

Lemma convertCastToVideo_exits_one (env : Env) (inputPath : string)
    (options : ConvertOptions) :
  exits_one (convertCastToVideo env inputPath options).
Proof.
  unfold convertCastToVideo, setupBrowser, setupPlayer, recordVideo.
  cbv zeta.
  repeat first
    [ apply exits_one_bind; [|intros ?]
    | apply exits_one_try_finally
    | apply exits_one_try_catch; [|intros ?]
    | apply exits_one_if
    | apply exits_one_lift
    | apply exits_one_ret
    | apply exits_one_throw
    | apply exits_one_process_on
    | apply exits_one_process_off
    | apply exits_one_emit
    | apply exits_one_await ].
Qed.

(** X16.  The action of the command never throws.  When the conversion
    returns, so does the action; when the conversion throws, the action
    logs the message of the error and exits with status 1; and whenever the
    process exits, by the action or by the signal listener, the status
    is 1. *)
Theorem X16_action_never_throws (env : Env) (inputPath : string)
    (options : ConvertOptions) (st : state) :
  (forall msg, fst (createProgram_action env inputPath options st) <> Thrown msg)
  /\ (forall c, fst (createProgram_action env inputPath options st) = Exited c ->
                c = 1%Z)
  /\ (forall st',
        convertCastToVideo env inputPath options st = (Returned tt, st') ->
        createProgram_action env inputPath options st = (Returned tt, st'))
  /\ (forall msg st',
        convertCastToVideo env inputPath options st = (Thrown msg, st') ->
        createProgram_action env inputPath options st
        = (Exited 1,
           mkState (log st' ++ [EConsola error [msg]; EProcessExit 1])
             (listeners st') (awaits st'))).
Proof.
  unfold createProgram_action, try_catch.
  pose proof (convertCastToVideo_exits_one env inputPath options st) as Hx.
  destruct (convertCastToVideo env inputPath options st)
    as [[[]|msg| |c|s] st1]; cbn [fst] in *.
  - repeat split; try discriminate; intros; congruence.
  - split; [discriminate|]. split; [intros c H; now injection H|].
    split; [discriminate|]. intros msg' st' H. injection H as -> ->.
    unfold bind, emit, process_exit. cbn. now rewrite <- app_assoc.
  - repeat split; try discriminate; intros; congruence.
  - split; [discriminate|]. split; [exact Hx|].
    split; intros; discriminate.
  - repeat split; try discriminate; intros; congruence.
Qed.

(** X17.  When the input file does not exist, the conversion throws before
    it makes any call, and the action of the command logs
    [Input file not found: ] followed by the resolved path and exits with
    status 1: no browser is launched and nothing else is logged. *)
Theorem X17_missing_input (env : Env) (inputPath : string)
    (options : ConvertOptions) (st : state) :
  fs_existsSync env (path_resolve env inputPath) = false ->
  convertCastToVideo env inputPath options st
  = (Thrown ("Input file not found: " ++ path_resolve env inputPath), st)
  /\ createProgram_action env inputPath options st
     = (Exited 1,
        mkState
          (log st
           ++ [EConsola error
                 ["Input file not found: " ++ path_resolve env inputPath];
               EProcessExit 1])
          (listeners st) (awaits st)).
Proof.
  intros H.
  assert (E : convertCastToVideo env inputPath options st
              = (Thrown ("Input file not found: " ++ path_resolve env inputPath), st)).
  { unfold convertCastToVideo, validateInputFile, bind. now rewrite H. }
  split; [exact E|].
  unfold createProgram_action, try_catch. rewrite E.
  unfold bind, emit, process_exit. cbn. now rewrite <- app_assoc.
Qed.

Lemma X17_missing_input_witness :
  createProgram_action (mock_env missing_input) "nonexistent.cast"
    default_options initial
  = (Exited 1,
     mkState
       [EConsola error ["Input file not found: /absolute/nonexistent.cast"];
        EProcessExit 1] [] 0).
Proof.
  exact (proj2 (X17_missing_input (mock_env missing_input) "nonexistent.cast"
                  default_options initial eq_refl)).
Defined.

Lemma X16_action_never_throws_witness :
  fst (createProgram_action (mock_env boom) "input.cast" default_options initial)
  = Exited 1.
Proof.
  rewrite (proj2 (proj2 (proj2 (X16_action_never_throws (mock_env boom)
                                  "input.cast" default_options initial)))
             "Player failed to initialize: boom"
             (snd (convertCastToVideo (mock_env boom) "input.cast"
                     default_options initial))
             ltac:(vm_compute; reflexivity)).
  reflexivity.
Defined.

(** ** [setupBrowser] *)

(** X18.  [setupBrowser] has no cleanup of its own: it never closes the
    browser, so when [browser.newPage] or [page.setViewport] fails after the
    launch it throws that error with the browser launched and left open. *)
Theorem X18_setupBrowser_leaves_browser (env : Env) (options : ParsedOptions)
    (st : state) (msg : string) :
  listeners st = [] ->
  closes (log (snd (setupBrowser env options st))) = closes (log st)
  /\ (interrupt env = None ->
      puppeteer_launch env = Resolved tt ->
      browser_newPage env = Rejected msg
      \/ (browser_newPage env = Resolved tt /\ page_setViewport env = Rejected msg) ->
      fst (setupBrowser env options st) = Thrown msg
      /\ In (ELaunch true ["--no-sandbox"; "--disable-setuid-sandbox"])
            (log (snd (setupBrowser env options st)))).
Proof.
  intros L. split; [apply (setupBrowser_quiet env options st L)|].
  intros Hi Hl Hfail. unfold setupBrowser, bind. rewrite Hl.
  destruct Hfail as [Hn|[Hn Hv]].
  - rewrite Hn. repeat (rewrite await_plain by assumption; cbn).
    split; [reflexivity|]. apply in_or_app. left. apply in_or_app. right.
    now left.
  - rewrite Hn, Hv. repeat (rewrite await_plain by assumption; cbn).
    split; [reflexivity|]. apply in_or_app. left. apply in_or_app. left.
    apply in_or_app. right. now left.
Qed.

Lemma X18_setupBrowser_leaves_browser_witness :
  fst (setupBrowser (mock_env no_page) (parseOptions default_options) initial)
  = Thrown "Protocol error"
  /\ closes (log (snd (setupBrowser (mock_env no_page)
                         (parseOptions default_options) initial))) = 0.
Proof.
  destruct (X18_setupBrowser_leaves_browser (mock_env no_page)
              (parseOptions default_options) initial "Protocol error" eq_refl)
    as [Hc Hf].
  split; [|exact Hc].
  exact (proj1 (Hf eq_refl eq_refl (or_introl eq_refl))).
Defined.

(** ** What a successful run took *)

Lemma bind_returns {A B : Type} (m : M A) (k : A -> M B) (st : state) (b : B) :
  fst (bind m k st) = Returned b ->
  exists a st1, m st = (Returned a, st1) /\ fst (k a st1) = Returned b.
Proof.
  unfold bind. destruct (m st) as [[a| | | |] st1]; cbn [fst]; try discriminate.
  intros H. now exists a, st1.
Qed.

Lemma await_returns {A : Type} (env : Env) (e : event) (r : reply A)
    (st st1 : state) (a : A) :
  await env e r st = (Returned a, st1) -> r = Resolved a.
Proof.
  unfold await, cleanup.
  destruct (interrupt env) as [[n s]|];
    [destruct (n =? awaits st)%nat;
     [destruct (existsb (signal_eqb s) (listeners st));
      [destruct (browser_close env)|]|]|];
    try discriminate; destruct r; intros H; inversion H; reflexivity.
Qed.

Lemma try_finally_returns {A : Type} (body : M A) (final : M unit)
    (st : state) (a : A) :
  fst (try_finally body final st) = Returned a ->
  exists st1,
    body st = (Returned a, st1) /\ fst (final st1) = Returned tt.
Proof.
  unfold try_finally.
  destruct (body st) as [[a'|msg| | |] st1]; cbn [fst]; try discriminate.
  - intros H. apply bind_returns in H as ([] & st2 & E & H).
    injection H as ->. exists st1. now rewrite E.
  - intros H. apply bind_returns in H as ([] & st2 & E & H). discriminate.
Qed.

Ltac returned_await H a :=
  let st' := fresh "st" in
  let E := fresh "E" in
  apply bind_returns in H as (a & st' & E & H);
  apply await_returns in E.

Lemma setupBrowser_returns (env : Env) (options : ParsedOptions) (st : state)
    (session : Browser * Page) :
  fst (setupBrowser env options st) = Returned session ->
  puppeteer_launch env = Resolved tt
  /\ browser_newPage env = Resolved tt
  /\ page_setViewport env = Resolved tt.
Proof.
  unfold setupBrowser. intros H.
  returned_await H a1. returned_await H a2. returned_await H a3.
  destruct a1, a2, a3. now repeat split.
Qed.

Lemma recordVideo_returns (env : Env) (page : Page) (outputPath : string)
    (options : ParsedOptions) (st : state) :
  fst (recordVideo env page outputPath options st) = Returned tt ->
  (exists ffmpegPath, import_ffmpeg env = Resolved ffmpegPath)
  /\ recorder_start env = Resolved tt
  /\ eval_play env = Resolved tt
  /\ wait_playerEnded env = Resolved tt
  /\ recorder_stop env = Resolved tt.
Proof.
  unfold recordVideo. intros H.
  returned_await H ff.
  apply bind_returns in H as ([] & s1 & _ & H).
  apply bind_returns in H as ([] & s2 & _ & H).
  returned_await H a1.
  apply bind_returns in H as ([] & s3 & _ & H).
  returned_await H a2. returned_await H a3.
  apply bind_returns in H as ([] & s4 & _ & H).
  destruct (await env ERecorderStop (recorder_stop env) s4) as [o s5] eqn:E5.
  cbn [fst] in H. subst o. apply await_returns in E5.
  destruct a1, a2, a3. repeat split; try assumption. now exists ff.
Qed.

(** X19.  [convertCastToVideo] returns only when every step succeeded: the
    input was found and read, the browser, the page and the viewport were
    set up, the player became ready, the recorder was started and stopped
    around a playback that ended, and the browser was closed.  Without a
    signal, these are also enough for it to return. *)
Theorem X19_returns_on_success (env : Env) (inputPath : string)
    (options : ConvertOptions) :
  (fst (convertCastToVideo env inputPath options initial) = Returned tt ->
   fs_existsSync env (path_resolve env inputPath) = true
   /\ (exists castContent,
         fs_readFileSync env (path_resolve env inputPath) = Ok castContent)
   /\ puppeteer_launch env = Resolved tt
   /\ browser_newPage env = Resolved tt
   /\ page_setViewport env = Resolved tt
   /\ page_setContent env = Resolved tt
   /\ wait_playerReady env = Resolved tt
   /\ recorder_start env = Resolved tt
   /\ eval_play env = Resolved tt
   /\ wait_playerEnded env = Resolved tt
   /\ recorder_stop env = Resolved tt
   /\ browser_close env = Resolved tt)
  /\ (interrupt env = None ->
      forall jsPath cssPath playerAssets castContent ffmpegPath,
        fs_existsSync env (path_resolve env inputPath) = true ->
        getPlayerAssetPaths env = Ok (jsPath, cssPath) ->
        loadPlayerAssets env jsPath cssPath = Ok playerAssets ->
        fs_readFileSync env (path_resolve env inputPath) = Ok castContent ->
        puppeteer_launch env = Resolved tt ->
        browser_newPage env = Resolved tt ->
        page_setViewport env = Resolved tt ->
        page_setContent env = Resolved tt ->
        wait_playerReady env = Resolved tt ->
        import_ffmpeg env = Resolved ffmpegPath ->
        recorder_start env = Resolved tt ->
        eval_play env = Resolved tt ->
        wait_playerEnded env = Resolved tt ->
        recorder_stop env = Resolved tt ->
        browser_close env = Resolved tt ->
        fst (convertCastToVideo env inputPath options initial) = Returned tt).
Proof.
  split.
  - unfold convertCastToVideo. cbv zeta. intros H.
    apply bind_returns in H as (inputAbsPath & s1 & E1 & H).
    apply lift_returns in E1 as [E1 ->].
    assert (Hex : fs_existsSync env (path_resolve env inputPath) = true
                  /\ inputAbsPath = path_resolve env inputPath).
    { unfold validateInputFile in E1.
      destruct (fs_existsSync env (path_resolve env inputPath));
        [now injection E1 as <-|discriminate]. }
    destruct Hex as [Hex ->].
    apply bind_returns in H as ([] & s2 & _ & H).
    apply bind_returns in H as (paths & s3 & _ & H).
    apply bind_returns in H as (playerAssets & s4 & _ & H).
    apply bind_returns in H as (castContent & s5 & E5 & H).
    apply lift_returns in E5 as [E5 ->].
    apply bind_returns in H as (session & s6 & E6 & H).
    destruct (setupBrowser_returns env (parseOptions options) s4 session)
      as (Hl & Hn & Hv); [now rewrite E6|].
    apply bind_returns in H as ([] & s7 & _ & H).
    apply bind_returns in H as ([] & s8 & _ & H).
    apply try_finally_returns in H as (s9 & Eb & Hf).
    assert (Hb : fst ((setupPlayer env (snd session)
                         (generateHtml playerAssets (createCastDataUri castContent)
                            (parseOptions options)) ;;
                       recordVideo env (snd session)
                         (path_resolve env (co_output options))
                         (parseOptions options) ;;
                       emit (EConsola success ["Done!"])) s8) = Returned tt)
      by now rewrite Eb.
    apply bind_returns in Hb as ([] & s10 & Ep & Hb).
    destruct (setupPlayer_returns env (snd session)
                (generateHtml playerAssets (createCastDataUri castContent)
                   (parseOptions options)) s8) as (Hc & Hw & _);
      [now rewrite Ep|].
    apply bind_returns in Hb as ([] & s11 & Er & _).
    destruct (recordVideo_returns env (snd session)
                (path_resolve env (co_output options)) (parseOptions options) s10)
      as (_ & Hs & Hp & He & Hx); [now rewrite Er|].
    apply bind_returns in Hf as ([] & s12 & _ & Hf).
    apply bind_returns in Hf as ([] & s13 & _ & Hf).
    destruct (await env EBrowserClose (browser_close env) s13) as [o s14] eqn:Ec.
    cbn [fst] in Hf. subst o. apply await_returns in Ec.
    repeat split; try assumption. now exists castContent.
  - intros Hi jsPath cssPath playerAssets castContent ffmpegPath
      Hex Hpaths Hassets Hcast Hl Hn Hv Hc Hw Hf Hs Hp He Hx Hclose.
    unfold convertCastToVideo, validateInputFile. cbv zeta.
    rewrite Hex. cbn [negb lift].
    unfold bind at 1. cbn [ret]. unfold bind at 1. cbn [emit].
    unfold bind at 1. rewrite Hpaths. cbn [lift ret fst snd].
    unfold bind at 1. rewrite Hassets. cbn [lift ret].
    unfold bind at 1. rewrite Hcast. cbn [lift ret].
    unfold setupBrowser, setupPlayer, recordVideo, try_finally, try_catch,
      bind, emit, process_on, process_off, ret.
    rewrite Hl, Hn, Hv, Hc, Hw, Hf, Hs, Hp, He, Hx, Hclose.
    repeat (rewrite await_plain by assumption; cbn [settle fst snd log listeners awaits]).
    reflexivity.
Qed.

Lemma X19_returns_on_success_witness :
  fst (convertCastToVideo (mock_env happy) "input.cast" default_options initial)
  = Returned tt.
Proof.
  exact (proj2 (X19_returns_on_success (mock_env happy) "input.cast"
                  default_options) eq_refl
           "/node_modules/asciinema-player/dist/bundle/asciinema-player.js"
           "/node_modules/asciinema-player/dist/bundle/asciinema-player.css"
           (mkPlayerAssets "/* JS content */" "/* CSS content */")
           sample_cast "/path/to/ffmpeg"
           eq_refl eq_refl eq_refl eq_refl eq_refl eq_refl eq_refl eq_refl
           eq_refl eq_refl eq_refl eq_refl eq_refl eq_refl eq_refl).
Defined.
